(** * QueryNode control-plane tasks (internal/querynode/task.go)

    A shallow embedding of the task variants of the query node:
    watchDmChannelsTask, watchDeltaChannelsTask, loadSegmentsTask,
    releaseCollectionTask and releasePartitionsTask with their Execute,
    and, for these and addQueryChannelTask, Timestamp and OnEnqueue.

    Go pointers that the code tests against nil, or that protobuf leaves
    optional, are [option]s; a nil dereference is the outcome [Panic].
    The request of a task and the elements of its Infos are taken to be
    non-nil where Execute runs. Identifiers (int64) and timestamps
    (uint64) are integers; the code only copies and compares them.
    The node's registries are finite maps and sets; every call into a
    collaborator (replica, flow-graph service, tSafe replica, query-shard
    service, segment loader, message bus) appends an [Event] to the trace
    of the execution, in program order. *)

From Stdlib Require Import ZArith Lia.
From stdpp Require Import base gmap strings list fin_maps.

Open Scope Z_scope.
Set Warnings "-clear-no-such-hyp".

Abbreviation UniqueID := Z (only parsing).
Abbreviation Timestamp := Z (only parsing).
Abbreviation Channel := string (only parsing).

(** ** Protobuf messages

    Modelled from the spec: the generated message types of commonpb,
    internalpb, schemapb, datapb and querypb, which are missing. Each
    record carries the fields that task.go reads or writes, under the
    names the code uses. A message-typed field is a Go pointer, hence an
    [option]. *)

Module commonpb.
Inductive MsgType := MsgType_Undefined | MsgType_LoadSegments | MsgType_Other (n : Z).
Record MsgBase := { MsgType_ : MsgType; MsgID : UniqueID; Timestamp : Timestamp }.
End commonpb.

Module internalpb.
Record MsgPosition := {
  ChannelName : string;
  MsgID : list Z;
  MsgGroup : string;
  Timestamp : Timestamp }.
End internalpb.

Module schemapb.
Record CollectionSchema := { Name : string }.
End schemapb.

Module datapb.
Record FieldBinlog := { FieldID : Z; Binlogs_ : list string }.
Record SegmentInfo := {
  ID : UniqueID;
  CollectionID : UniqueID;
  PartitionID : UniqueID;
  NumOfRows : Z;
  Binlogs : list FieldBinlog;
  Statslogs : list FieldBinlog;
  Deltalogs : list FieldBinlog;
  DmlPosition : option internalpb.MsgPosition }.
(** An element of a Go [[]*datapb.SegmentInfo]; [None] is a nil pointer. *)
Abbreviation SegmentPtr := (option SegmentInfo) (only parsing).
Record VchannelInfo := {
  ChannelName : string;
  SeekPosition : option internalpb.MsgPosition;
  UnflushedSegments : list SegmentPtr;
  FlushedSegments : list SegmentPtr;
  DroppedSegments : list SegmentPtr }.
End datapb.

Module querypb.
Inductive LoadType := LoadType_UnKnownType | LoadType_LoadPartition | LoadType_LoadCollection.
Record LoadMetaInfo := { LoadType_ : LoadType; PartitionIDs : list UniqueID }.
Record SegmentLoadInfo := {
  SegmentID : UniqueID;
  PartitionID : UniqueID;
  CollectionID : UniqueID;
  BinlogPaths : list datapb.FieldBinlog;
  NumOfRows : Z;
  Statslogs : list datapb.FieldBinlog;
  Deltalogs : list datapb.FieldBinlog }.
(** The nil-safe getters of the generated code. *)
Definition GetLoadType (m : option LoadMetaInfo) : LoadType :=
  match m with Some lm => LoadType_ lm | None => LoadType_UnKnownType end.
Definition GetPartitionIDs (m : option LoadMetaInfo) : list UniqueID :=
  match m with Some lm => PartitionIDs lm | None => [] end.
End querypb.

Module AddQueryChannelRequest.
Record t := {
  Base : option commonpb.MsgBase;
  CollectionID : UniqueID;
  QueryChannel : string;
  SeekPosition : option internalpb.MsgPosition }.
End AddQueryChannelRequest.

Module WatchDmChannelsRequest.
Record t := {
  Base : option commonpb.MsgBase;
  CollectionID : UniqueID;
  PartitionIDs : list UniqueID;
  Infos : list datapb.VchannelInfo;
  Schema : option schemapb.CollectionSchema;
  LoadMeta : option querypb.LoadMetaInfo;
  ReplicaID : Z }.
End WatchDmChannelsRequest.

Module WatchDeltaChannelsRequest.
Record t := {
  Base : option commonpb.MsgBase;
  CollectionID : UniqueID;
  Infos : list datapb.VchannelInfo;
  ReplicaId : Z }.
End WatchDeltaChannelsRequest.

Module LoadSegmentsRequest.
Record t := {
  Base : option commonpb.MsgBase;
  Infos : list querypb.SegmentLoadInfo;
  Schema : option schemapb.CollectionSchema;
  CollectionID : UniqueID;
  LoadMeta : option querypb.LoadMetaInfo }.
End LoadSegmentsRequest.

Module ReleaseCollectionRequest.
Record t := { Base : option commonpb.MsgBase; CollectionID : UniqueID }.
End ReleaseCollectionRequest.

Module ReleasePartitionsRequest.
Record t := {
  Base : option commonpb.MsgBase;
  CollectionID : UniqueID;
  PartitionIDs : list UniqueID }.
End ReleasePartitionsRequest.

(** ** Errors and outcomes *)

Inductive Error :=
| ErrIllegalChannelLength (collectionID : UniqueID)
  (* "get physical channels failed, illegal channel length, collectionID = ..." *)
| ErrCannotFindCollection (collectionID : UniqueID)
  (* "cannot find collection with collectionID, %d" *)
| ErrReleaseCollectionFailed (collectionID : UniqueID) (cause : Error)
  (* "release collection failed, collectionID = %d, err = %s" *)
| ErrReleasePartitionsFailed (collectionID : UniqueID) (cause : Error)
  (* "release partitions failed, collectionID = %d, err = %s" *)
| ErrCollectionNotExist (collectionID : UniqueID)
  (* the replica's getCollectionByID on a missing id *)
| ErrQueryShardNotExist (channel : Channel)
  (* the query-shard service's getQueryShard on a missing channel *)
| ErrCollaborator (msg : string).
  (* any other error a collaborator returns *)

(** The outcome of a Go call: a value, a returned error, or a run-time
    panic (here always a nil-pointer dereference). *)
Inductive Res (A : Type) :=
| Ok (a : A)
| Fail (e : Error)
| Panic.
Arguments Ok {A} a.
Arguments Fail {A} e.
Arguments Panic {A}.

(** ** Node state

    Modelled from the spec: the registries of the QueryNode (collections,
    partitions, segments and excluded segments per replica; flow-graphs
    per DML and per delta channel; tSafes; query shards; shard clusters),
    whose declarations are missing. *)

Inductive ReplicaKind := Streaming | Historical.
Inductive FlowGraphKind := DML | Delta.
Inductive segmentType := segmentTypeGrowing | segmentTypeSealed.

Module Collection.
Record t := {
  id : UniqueID;
  schema : option schemapb.CollectionSchema;
  loadType : querypb.LoadType;
  vChannels : list Channel;
  pChannels : list Channel;
  vDeltaChannels : list Channel;
  pDeltaChannels : list Channel;
  releaseTime : Timestamp }.

(** Adding channels keeps the channel list free of duplicates. *)
Fixpoint appendNew (dst src : list Channel) : list Channel :=
  match src with
  | [] => dst
  | c :: src' => appendNew (if bool_decide (c ∈ dst) then dst else dst ++ [c]) src'
  end.

Definition setVChannels (l : list Channel) (c : t) : t :=
  {| id := id c; schema := schema c; loadType := loadType c;
     vChannels := l; pChannels := pChannels c;
     vDeltaChannels := vDeltaChannels c; pDeltaChannels := pDeltaChannels c;
     releaseTime := releaseTime c |}.
Definition setPChannels (l : list Channel) (c : t) : t :=
  {| id := id c; schema := schema c; loadType := loadType c;
     vChannels := vChannels c; pChannels := l;
     vDeltaChannels := vDeltaChannels c; pDeltaChannels := pDeltaChannels c;
     releaseTime := releaseTime c |}.
Definition setVDeltaChannels (l : list Channel) (c : t) : t :=
  {| id := id c; schema := schema c; loadType := loadType c;
     vChannels := vChannels c; pChannels := pChannels c;
     vDeltaChannels := l; pDeltaChannels := pDeltaChannels c;
     releaseTime := releaseTime c |}.
Definition setPDeltaChannels (l : list Channel) (c : t) : t :=
  {| id := id c; schema := schema c; loadType := loadType c;
     vChannels := vChannels c; pChannels := pChannels c;
     vDeltaChannels := vDeltaChannels c; pDeltaChannels := l;
     releaseTime := releaseTime c |}.
Definition withLoadType (l : querypb.LoadType) (c : t) : t :=
  {| id := id c; schema := schema c; loadType := l;
     vChannels := vChannels c; pChannels := pChannels c;
     vDeltaChannels := vDeltaChannels c; pDeltaChannels := pDeltaChannels c;
     releaseTime := releaseTime c |}.
Definition withReleaseTime (ts : Timestamp) (c : t) : t :=
  {| id := id c; schema := schema c; loadType := loadType c;
     vChannels := vChannels c; pChannels := pChannels c;
     vDeltaChannels := vDeltaChannels c; pDeltaChannels := pDeltaChannels c;
     releaseTime := ts |}.
End Collection.

Record Replica := {
  collections : gmap Z Collection.t;
  partitions : gmap Z Z;            (* partition-id -> collection-id *)
  segments : gset Z;
  excludedSegments : gmap Z (list datapb.SegmentPtr) }.

Record queryShard := { qsCollectionID : UniqueID; qsChannel : Channel; qsReplicaID : Z }.

Record queryNodeFlowGraph := { fgKind : FlowGraphKind; fgCollectionID : UniqueID; fgChannel : Channel }.

Record QueryNode := {
  streaming : Replica;
  historical : Replica;
  dmlChannel2FlowGraph : gmap string queryNodeFlowGraph;
  deltaChannel2FlowGraph : gmap string queryNodeFlowGraph;
  tSafes : gset string;
  queryShards : gmap string queryShard;
  shardClusters : list (UniqueID * Z * Channel) }.

Definition replica (k : ReplicaKind) (n : QueryNode) : Replica :=
  match k with Streaming => streaming n | Historical => historical n end.

Definition withReplica (k : ReplicaKind) (f : Replica -> Replica) (n : QueryNode) : QueryNode :=
  {| streaming := match k with Streaming => f (streaming n) | Historical => streaming n end;
     historical := match k with Streaming => historical n | Historical => f (historical n) end;
     dmlChannel2FlowGraph := dmlChannel2FlowGraph n;
     deltaChannel2FlowGraph := deltaChannel2FlowGraph n;
     tSafes := tSafes n; queryShards := queryShards n;
     shardClusters := shardClusters n |}.

Definition flowGraphs (k : FlowGraphKind) (n : QueryNode) : gmap string queryNodeFlowGraph :=
  match k with DML => dmlChannel2FlowGraph n | Delta => deltaChannel2FlowGraph n end.

Definition withFlowGraphs (k : FlowGraphKind)
  (f : gmap string queryNodeFlowGraph -> gmap string queryNodeFlowGraph)
  (n : QueryNode) : QueryNode :=
  {| streaming := streaming n; historical := historical n;
     dmlChannel2FlowGraph :=
       match k with DML => f (dmlChannel2FlowGraph n) | Delta => dmlChannel2FlowGraph n end;
     deltaChannel2FlowGraph :=
       match k with DML => deltaChannel2FlowGraph n | Delta => f (deltaChannel2FlowGraph n) end;
     tSafes := tSafes n; queryShards := queryShards n;
     shardClusters := shardClusters n |}.

Definition withTSafes (f : gset string -> gset string) (n : QueryNode) : QueryNode :=
  {| streaming := streaming n; historical := historical n;
     dmlChannel2FlowGraph := dmlChannel2FlowGraph n;
     deltaChannel2FlowGraph := deltaChannel2FlowGraph n;
     tSafes := f (tSafes n); queryShards := queryShards n;
     shardClusters := shardClusters n |}.

Definition withQueryShards (f : gmap string queryShard -> gmap string queryShard)
  (n : QueryNode) : QueryNode :=
  {| streaming := streaming n; historical := historical n;
     dmlChannel2FlowGraph := dmlChannel2FlowGraph n;
     deltaChannel2FlowGraph := deltaChannel2FlowGraph n;
     tSafes := tSafes n; queryShards := f (queryShards n);
     shardClusters := shardClusters n |}.

Definition withShardClusters
  (f : list (UniqueID * Z * Channel) -> list (UniqueID * Z * Channel))
  (n : QueryNode) : QueryNode :=
  {| streaming := streaming n; historical := historical n;
     dmlChannel2FlowGraph := dmlChannel2FlowGraph n;
     deltaChannel2FlowGraph := deltaChannel2FlowGraph n;
     tSafes := tSafes n; queryShards := queryShards n;
     shardClusters := f (shardClusters n) |}.

Definition withCollections (f : gmap Z Collection.t -> gmap Z Collection.t) (r : Replica) : Replica :=
  {| collections := f (collections r); partitions := partitions r;
     segments := segments r; excludedSegments := excludedSegments r |}.

Definition withPartitions (f : gmap Z Z -> gmap Z Z) (r : Replica) : Replica :=
  {| collections := collections r; partitions := f (partitions r);
     segments := segments r; excludedSegments := excludedSegments r |}.

Definition withSegments (f : gset Z -> gset Z) (r : Replica) : Replica :=
  {| collections := collections r; partitions := partitions r;
     segments := f (segments r); excludedSegments := excludedSegments r |}.

Definition withExcluded
  (f : gmap Z (list datapb.SegmentPtr) -> gmap Z (list datapb.SegmentPtr))
  (r : Replica) : Replica :=
  {| collections := collections r; partitions := partitions r;
     segments := segments r; excludedSegments := f (excludedSegments r) |}.

(** ** Trace of collaborator calls

    One event per call that task.go makes into a collaborator, with the
    error the call returned where it can return one. *)

Inductive Event :=
| EvSleep (seconds : Z)
| EvAddCollection (k : ReplicaKind) (collectionID : UniqueID)
| EvAddShardCluster (collectionID : UniqueID) (replicaID : Z) (vchannel : Channel)
| EvAddPartition (k : ReplicaKind) (collectionID partitionID : UniqueID) (err : option Error)
| EvRemovePartition (k : ReplicaKind) (partitionID : UniqueID) (err : option Error)
| EvLoadSegment (req : LoadSegmentsRequest.t) (ty : segmentType) (err : option Error)
| EvRemoveSegment (k : ReplicaKind) (segmentID : UniqueID)
| EvAddExcludedSegments (k : ReplicaKind) (collectionID : UniqueID) (infos : list datapb.SegmentPtr)
| EvRemoveExcludedSegments (k : ReplicaKind) (collectionID : UniqueID)
| EvAddFlowGraphs (k : FlowGraphKind) (collectionID : UniqueID) (channels : list Channel) (err : option Error)
| EvRemoveFlowGraphs (k : FlowGraphKind) (channels : list Channel)
| EvConsumeFlowGraph (channel pchannel : Channel) (subName : string) (err : option Error)
| EvConsumeFlowGraphFromLatest (channel pchannel : Channel) (subName : string) (err : option Error)
| EvSeekQueryNodeFlowGraph (channel : Channel) (position : internalpb.MsgPosition) (err : option Error)
| EvFromDmlCPLoadDelete (collectionID : UniqueID) (position : option internalpb.MsgPosition) (err : option Error)
| EvFlowGraphClose (k : FlowGraphKind) (channel : Channel)
| EvFlowGraphStart (k : FlowGraphKind) (channel : Channel)
| EvAddVChannels (k : ReplicaKind) (collectionID : UniqueID) (channels : list Channel)
| EvAddPChannels (k : ReplicaKind) (collectionID : UniqueID) (channels : list Channel)
| EvAddVDeltaChannels (k : ReplicaKind) (collectionID : UniqueID) (channels : list Channel)
| EvAddPDeltaChannels (k : ReplicaKind) (collectionID : UniqueID) (channels : list Channel)
| EvSetLoadType (k : ReplicaKind) (collectionID : UniqueID) (l : querypb.LoadType)
| EvSetReleaseTime (k : ReplicaKind) (collectionID : UniqueID) (t : Timestamp)
| EvQueryLock (k : ReplicaKind)
| EvQueryUnlock (k : ReplicaKind)
| EvRemoveCollection (k : ReplicaKind) (collectionID : UniqueID) (err : option Error)
| EvAddTSafe (channel : Channel)
| EvRemoveTSafe (channel : Channel)
| EvAddQueryShard (collectionID : UniqueID) (channel : Channel) (replicaID : Z) (err : option Error)
| EvWatchDMLTSafe (channel : Channel) (err : option Error)
| EvWatchDeltaTSafe (channel : Channel) (err : option Error)
| EvFreeOSMemory
| EvReleaseCollection (collectionID : UniqueID).

(** ** Environment

    What task.go takes from outside the file: the channel-naming helpers
    of funcutil and the configuration in Params (parameters here), the
    error, if any, that each fallible collaborator call returns, and the
    order in which a Go [range] visits the keys of a map, which Go leaves
    unspecified and may differ from one loop to the next (the tag names
    the loop and the iteration of the loops around it). *)

Record Env := {
  ToPhysicalChannel : Channel -> Channel;
  GenChannelSubName : string -> UniqueID -> UniqueID -> string;
  ConvertChannelName : Channel -> string -> string -> Error + Channel;
  QueryNodeSubName : string;
  GetNodeID : UniqueID;
  RootCoordDelta : string;
  RootCoordDml : string;
  addPartition_err : ReplicaKind -> UniqueID -> UniqueID -> option Error;
  removePartition_err : ReplicaKind -> UniqueID -> option Error;
  removeCollection_err : ReplicaKind -> UniqueID -> option Error;
  loadSegment_err : LoadSegmentsRequest.t -> segmentType -> option Error;
  addFlowGraphs_err : FlowGraphKind -> UniqueID -> list Channel -> option Error;
  consumeFlowGraph_err : Channel -> Channel -> string -> option Error;
  consumeFlowGraphFromLatest_err : Channel -> Channel -> string -> option Error;
  seekQueryNodeFlowGraph_err : Channel -> internalpb.MsgPosition -> option Error;
  FromDmlCPLoadDelete_err : UniqueID -> option internalpb.MsgPosition -> option Error;
  addQueryShard_err : UniqueID -> Channel -> Z -> option Error;
  watchDMLTSafe_err : Channel -> option Error;
  watchDeltaTSafe_err : Channel -> option Error;
  rangeOrder : list nat -> list Channel -> list Channel;
  rangeOrder_perm : forall tag l, rangeOrder tag l ≡ₚ l }.

(** ** The execution monad: state, trace, errors and panics *)

Definition M (A : Type) : Type := QueryNode -> Res A * QueryNode * list Event.

Definition ret {A} (a : A) : M A := fun n => (Ok a, n, []).

Definition bind {A B} (m : M A) (f : A -> M B) : M B :=
  fun n =>
    match m n with
    | (Ok a, n1, e1) => match f a n1 with (r, n2, e2) => (r, n2, e1 ++ e2) end
    | (Fail e, n1, e1) => (Fail e, n1, e1)
    | (Panic, n1, e1) => (Panic, n1, e1)
    end.

(** [return err] with a non-nil error. *)
Definition throw {A} (e : Error) : M A := fun n => (Fail e, n, []).

(** A nil-pointer dereference. *)
Definition panic {A} : M A := fun n => (Panic, n, []).

Definition deref {A} (o : option A) : M A :=
  match o with Some a => ret a | None => panic end.

(** Reading the node's state. *)
Definition gets {A} (f : QueryNode -> A) : M A := fun n => (Ok (f n), n, []).

(** A collaborator call that cannot fail. *)
Definition call (ev : Event) (f : QueryNode -> QueryNode) : M unit :=
  fun n => (Ok tt, f n, [ev]).

(** A collaborator call that returns a Go [error]: the error is the
    call's value, and the update happens when there is none. *)
Definition callE (err : option Error) (ev : option Error -> Event)
  (f : QueryNode -> QueryNode) : M (option Error) :=
  fun n => (Ok err, match err with None => f n | Some _ => n end, [ev err]).

(** [if err != nil { return err }] *)
Definition check (err : option Error) : M unit :=
  match err with Some e => throw e | None => ret tt end.

(** [defer d]: [d] runs when the function leaves, whatever the outcome,
    and sees that outcome. *)
Definition defer {A} (d : Res A -> M unit) (m : M A) : M A :=
  fun n =>
    match m n with
    | (r, n1, e1) => match d r n1 with (_, n2, e2) => (r, n2, e1 ++ e2) end
    end.

Declare Scope go_scope.
Delimit Scope go_scope with go.
Notation "x <- m ;; k" := (bind m (fun x => k))
  (at level 100, m at next level, right associativity) : go_scope.
Notation "m ;; k" := (bind m (fun _ => k))
  (at level 100, right associativity) : go_scope.
Open Scope go_scope.

(** [for _, x := range l { f x }] over a slice. *)
Fixpoint forM_ {A} (l : list A) (f : A -> M unit) : M unit :=
  match l with
  | [] => ret tt
  | x :: l' => f x ;; forM_ l' f
  end.

Definition result {A} (x : Res A * QueryNode * list Event) : Res A := x.1.1.
Definition final {A} (x : Res A * QueryNode * list Event) : QueryNode := x.1.2.
Definition trace {A} (x : Res A * QueryNode * list Event) : list Event := x.2.

(** ** Collaborators

    The replica registry, the flow-graph service, the tSafe replica, the
    query-shard service, the shard-cluster service and the segment loader
    live in other files of the package. *)

(** Modelled from the spec: the replica's collection constructor, which is
    missing. A new collection has no channels yet and an unknown load type. *)
Definition newCollection (collectionID : UniqueID)
  (sch : option schemapb.CollectionSchema) : Collection.t :=
  {| Collection.id := collectionID; Collection.schema := sch;
     Collection.loadType := querypb.LoadType_UnKnownType;
     Collection.vChannels := []; Collection.pChannels := [];
     Collection.vDeltaChannels := []; Collection.pDeltaChannels := [];
     Collection.releaseTime := 0 |}.

(** Modelled from the spec: ReplicaInterface.addCollection, which is
    missing; "idempotent add by id". *)
Definition addCollection (k : ReplicaKind) (collectionID : UniqueID)
  (sch : option schemapb.CollectionSchema) : M unit :=
  call (EvAddCollection k collectionID)
    (withReplica k (withCollections (fun cs =>
       match cs !! collectionID with
       | Some _ => cs
       | None => <[collectionID := newCollection collectionID sch]> cs
       end))).

(** Modelled from the spec: ReplicaInterface.hasCollection, which is missing. *)
Definition hasCollection (k : ReplicaKind) (collectionID : UniqueID) : M bool :=
  gets (fun n => bool_decide (is_Some (collections (replica k n) !! collectionID))).

(** Modelled from the spec: ReplicaInterface.getCollectionByID, which is
    missing; the error it returns on a missing id comes back as the
    call's value. *)
Definition getCollectionByID (k : ReplicaKind) (collectionID : UniqueID)
  : M (option Collection.t * option Error) :=
  gets (fun n =>
    match collections (replica k n) !! collectionID with
    | Some c => (Some c, None)
    | None => (None, Some (ErrCollectionNotExist collectionID))
    end).

(** A method call through the collection pointer: it updates the object
    the replica holds under that id. *)
Definition onCollection (k : ReplicaKind) (collectionID : UniqueID)
  (ev : Event) (f : Collection.t -> Collection.t) : M unit :=
  call ev (withReplica k (withCollections (alter f collectionID))).

(** Modelled from the spec: the methods of Collection, which are missing
    (add channels without duplicates, set load type, set release time). *)
Definition addVChannels (k : ReplicaKind) (cid : UniqueID) (l : list Channel) : M unit :=
  onCollection k cid (EvAddVChannels k cid l)
    (fun c => Collection.setVChannels (Collection.appendNew (Collection.vChannels c) l) c).
Definition addPChannels (k : ReplicaKind) (cid : UniqueID) (l : list Channel) : M unit :=
  onCollection k cid (EvAddPChannels k cid l)
    (fun c => Collection.setPChannels (Collection.appendNew (Collection.pChannels c) l) c).
Definition addVDeltaChannels (k : ReplicaKind) (cid : UniqueID) (l : list Channel) : M unit :=
  onCollection k cid (EvAddVDeltaChannels k cid l)
    (fun c => Collection.setVDeltaChannels (Collection.appendNew (Collection.vDeltaChannels c) l) c).
Definition addPDeltaChannels (k : ReplicaKind) (cid : UniqueID) (l : list Channel) : M unit :=
  onCollection k cid (EvAddPDeltaChannels k cid l)
    (fun c => Collection.setPDeltaChannels (Collection.appendNew (Collection.pDeltaChannels c) l) c).
Definition setLoadType (k : ReplicaKind) (cid : UniqueID) (l : querypb.LoadType) : M unit :=
  onCollection k cid (EvSetLoadType k cid l) (Collection.withLoadType l).
Definition setReleaseTime (k : ReplicaKind) (cid : UniqueID) (t : Timestamp) : M unit :=
  onCollection k cid (EvSetReleaseTime k cid t) (Collection.withReleaseTime t).

(** Modelled from the spec: ReplicaInterface.addPartition, hasPartition and
    removePartition, which are missing. Adding is idempotent; whether a
    call fails is the environment's choice, and a failed call changes
    nothing. *)
Definition addPartition (env : Env) (k : ReplicaKind) (collectionID partitionID : UniqueID)
  : M (option Error) :=
  callE (addPartition_err env k collectionID partitionID)
    (EvAddPartition k collectionID partitionID)
    (withReplica k (withPartitions (fun ps =>
       match ps !! partitionID with
       | Some _ => ps
       | None => <[partitionID := collectionID]> ps
       end))).

Definition hasPartition (k : ReplicaKind) (partitionID : UniqueID) : M bool :=
  gets (fun n => bool_decide (is_Some (partitions (replica k n) !! partitionID))).

Definition removePartition (env : Env) (k : ReplicaKind) (partitionID : UniqueID)
  : M (option Error) :=
  callE (removePartition_err env k partitionID) (EvRemovePartition k partitionID)
    (withReplica k (withPartitions (delete partitionID))).

(** Modelled from the spec: ReplicaInterface.removeCollection, which is
    missing; "remove the collection entry from the replica". *)
Definition removeCollection (env : Env) (k : ReplicaKind) (collectionID : UniqueID)
  : M (option Error) :=
  callE (removeCollection_err env k collectionID) (EvRemoveCollection k collectionID)
    (withReplica k (withCollections (delete collectionID))).

(** Modelled from the spec: ReplicaInterface.addExcludedSegments and
    removeExcludedSegments, which are missing; the excluded segments of a
    collection are kept per collection id. *)
Definition addExcludedSegments (k : ReplicaKind) (collectionID : UniqueID)
  (infos : list datapb.SegmentPtr) : M unit :=
  call (EvAddExcludedSegments k collectionID infos)
    (withReplica k (withExcluded (fun ex =>
       <[collectionID := default [] (ex !! collectionID) ++ infos]> ex))).

Definition removeExcludedSegments (k : ReplicaKind) (collectionID : UniqueID) : M unit :=
  call (EvRemoveExcludedSegments k collectionID)
    (withReplica k (withExcluded (delete collectionID))).

(** Modelled from the spec: ReplicaInterface.removeSegment, which is
    missing; "double-remove is tolerated (treated as no-op)". *)
Definition removeSegment (k : ReplicaKind) (segmentID : UniqueID) : M unit :=
  call (EvRemoveSegment k segmentID) (withReplica k (withSegments (fun s => s ∖ {[segmentID]}))).

(** Modelled from the spec: the replicas' queryLock and queryUnlock, which
    are missing; they only show in the trace. *)
Definition queryLock (k : ReplicaKind) : M unit := call (EvQueryLock k) (fun n => n).
Definition queryUnlock (k : ReplicaKind) : M unit := call (EvQueryUnlock k) (fun n => n).

(** Modelled from the spec: segmentLoader.loadSegment, which is missing.
    Growing segments go to the streaming replica, sealed ones to the
    historical replica; a failed load leaves no segment behind. *)
Definition segmentReplica (ty : segmentType) : ReplicaKind :=
  match ty with segmentTypeGrowing => Streaming | segmentTypeSealed => Historical end.

Definition loadSegment (env : Env) (req : LoadSegmentsRequest.t) (ty : segmentType)
  : M (option Error) :=
  callE (loadSegment_err env req ty) (EvLoadSegment req ty)
    (withReplica (segmentReplica ty) (withSegments (fun s =>
       list_to_set (querypb.SegmentID <$> LoadSegmentsRequest.Infos req) ∪ s))).

(** Modelled from the spec: segmentLoader.FromDmlCPLoadDelete, which is missing. *)
Definition FromDmlCPLoadDelete (env : Env) (collectionID : UniqueID)
  (position : option internalpb.MsgPosition) : M (option Error) :=
  callE (FromDmlCPLoadDelete_err env collectionID position)
    (EvFromDmlCPLoadDelete collectionID position) (fun n => n).

(** Modelled from the spec: ShardClusterService.addShardCluster, which is missing. *)
Definition addShardCluster (collectionID : UniqueID) (replicaID : Z) (vchannel : Channel)
  : M unit :=
  call (EvAddShardCluster collectionID replicaID vchannel)
    (withShardClusters (fun l => l ++ [(collectionID, replicaID, vchannel)])).

(** Modelled from the spec: dataSyncService.addFlowGraphsForDMLChannels and
    addFlowGraphsForDeltaChannels, which are missing; one graph per
    channel, registered under the channel and returned as a map from
    channel to graph. A failed call registers nothing and returns no map. *)
Definition newFlowGraphs (k : FlowGraphKind) (collectionID : UniqueID)
  (channels : list Channel) : gmap string queryNodeFlowGraph :=
  list_to_map ((fun ch => (ch, {| fgKind := k; fgCollectionID := collectionID;
                                  fgChannel := ch |})) <$> channels).

Definition addFlowGraphs (env : Env) (k : FlowGraphKind) (collectionID : UniqueID)
  (channels : list Channel) : M (gmap string queryNodeFlowGraph * option Error) :=
  err <- callE (addFlowGraphs_err env k collectionID channels)
           (EvAddFlowGraphs k collectionID channels)
           (withFlowGraphs k (fun m => newFlowGraphs k collectionID channels ∪ m)) ;;
  match err with
  | Some e => ret (∅, Some e)
  | None => ret (newFlowGraphs k collectionID channels, None)
  end.

(** Modelled from the spec: dataSyncService.removeFlowGraphsByDMLChannels
    and removeFlowGraphsByDeltaChannels, which are missing. *)
Definition removeFlowGraphs (k : FlowGraphKind) (channels : list Channel) : M unit :=
  call (EvRemoveFlowGraphs k channels)
    (withFlowGraphs k (fun m => foldr delete m channels)).

(** Modelled from the spec: the methods of a flow-graph, which are
    missing; the bus decides whether attaching succeeds. *)
Definition consumeFlowGraph (env : Env) (fg : queryNodeFlowGraph) (pchannel : Channel)
  (subName : string) : M (option Error) :=
  callE (consumeFlowGraph_err env (fgChannel fg) pchannel subName)
    (EvConsumeFlowGraph (fgChannel fg) pchannel subName) (fun n => n).

Definition consumeFlowGraphFromLatest (env : Env) (fg : queryNodeFlowGraph)
  (pchannel : Channel) (subName : string) : M (option Error) :=
  callE (consumeFlowGraphFromLatest_err env (fgChannel fg) pchannel subName)
    (EvConsumeFlowGraphFromLatest (fgChannel fg) pchannel subName) (fun n => n).

Definition seekQueryNodeFlowGraph (env : Env) (fg : queryNodeFlowGraph)
  (position : internalpb.MsgPosition) : M (option Error) :=
  callE (seekQueryNodeFlowGraph_err env (fgChannel fg) position)
    (EvSeekQueryNodeFlowGraph (fgChannel fg) position) (fun n => n).

Definition flowGraphClose (fg : queryNodeFlowGraph) : M unit :=
  call (EvFlowGraphClose (fgKind fg) (fgChannel fg)) (fun n => n).

Definition flowGraphStart (fg : queryNodeFlowGraph) : M unit :=
  call (EvFlowGraphStart (fgKind fg) (fgChannel fg)) (fun n => n).

(** Modelled from the spec: tSafeReplica.addTSafe and removeTSafe, which
    are missing. *)
Definition addTSafe (channel : Channel) : M unit :=
  call (EvAddTSafe channel) (withTSafes (fun s => {[channel]} ∪ s)).
Definition removeTSafe (channel : Channel) : M unit :=
  call (EvRemoveTSafe channel) (withTSafes (fun s => s ∖ {[channel]})).

(** Modelled from the spec: the query-shard service, which is missing.
    A shard is kept per DML channel; releasing a collection drops every
    shard of that collection. *)
Definition hasQueryShard (channel : Channel) : M bool :=
  gets (fun n => bool_decide (is_Some (queryShards n !! channel))).

Definition addQueryShard (env : Env) (collectionID : UniqueID) (channel : Channel)
  (replicaID : Z) : M (option Error) :=
  callE (addQueryShard_err env collectionID channel replicaID)
    (EvAddQueryShard collectionID channel replicaID)
    (withQueryShards (insert channel
       {| qsCollectionID := collectionID; qsChannel := channel; qsReplicaID := replicaID |})).

Definition getQueryShard (channel : Channel) : M (option queryShard * option Error) :=
  gets (fun n =>
    match queryShards n !! channel with
    | Some qs => (Some qs, None)
    | None => (None, Some (ErrQueryShardNotExist channel))
    end).

Definition watchDMLTSafe (env : Env) (qs : queryShard) : M (option Error) :=
  callE (watchDMLTSafe_err env (qsChannel qs)) (EvWatchDMLTSafe (qsChannel qs)) (fun n => n).

Definition watchDeltaTSafe (env : Env) (qs : queryShard) : M (option Error) :=
  callE (watchDeltaTSafe_err env (qsChannel qs)) (EvWatchDeltaTSafe (qsChannel qs)) (fun n => n).

Definition queryShardService_releaseCollection (collectionID : UniqueID) : M unit :=
  call (EvReleaseCollection collectionID)
    (withQueryShards (filter (fun kv => qsCollectionID kv.2 <> collectionID))).

(** time.Sleep and debug.FreeOSMemory only show in the trace. *)
Definition sleep (seconds : Z) : M unit := call (EvSleep seconds) (fun n => n).
Definition FreeOSMemory : M unit := call EvFreeOSMemory (fun n => n).

(** ** Go map iteration *)

(** The keys of [m] in the order the [range] loop named [tag] visits them. *)
Definition rangeKeys {V} (env : Env) (tag : list nat) (m : gmap string V) : list string :=
  rangeOrder env tag (map_to_list m).*1.

(** The entries of [m] in that order. *)
Definition rangeMap {V} (env : Env) (tag : list nat) (m : gmap string V) : list (string * V) :=
  omap (fun k => pair k <$> m !! k) (rangeKeys env tag m).

(** ** watchDmChannelsTask *)

Module watchDmChannelsTask.
Import WatchDmChannelsRequest.

(** The load type Execute works with (lines 193-201). *)
Definition lType (req : t) : querypb.LoadType :=
  let partitionIDs := PartitionIDs req in
  match querypb.GetLoadType (LoadMeta req) with
  | querypb.LoadType_UnKnownType =>
      if negb (length partitionIDs =? 0)%nat
      then querypb.LoadType_LoadPartition
      else querypb.LoadType_LoadCollection
  | l => l
  end.

(** The channel slices and the vChannel-to-pChannel map (lines 204-213). *)
Definition vChannels (req : t) : list Channel := datapb.ChannelName <$> Infos req.

Definition pChannels (env : Env) (req : t) : list Channel :=
  (fun info => ToPhysicalChannel env (datapb.ChannelName info)) <$> Infos req.

Definition VPChannels (env : Env) (req : t) : gmap string string :=
  foldl (fun m info =>
           <[datapb.ChannelName info := ToPhysicalChannel env (datapb.ChannelName info)]> m)
        ∅ (Infos req).

(** The growing segments to load (lines 238-256): the unflushed segments
    that have binlogs. Reading [ufInfo.Binlogs] through a nil element
    panics ([None]). *)
Definition toSegmentLoadInfo (ufInfo : datapb.SegmentInfo) : querypb.SegmentLoadInfo :=
  {| querypb.SegmentID := datapb.ID ufInfo;
     querypb.PartitionID := datapb.PartitionID ufInfo;
     querypb.CollectionID := datapb.CollectionID ufInfo;
     querypb.BinlogPaths := datapb.Binlogs ufInfo;
     querypb.NumOfRows := datapb.NumOfRows ufInfo;
     querypb.Statslogs := datapb.Statslogs ufInfo;
     querypb.Deltalogs := datapb.Deltalogs ufInfo |}.

Fixpoint gatherSegments (segs : list datapb.SegmentPtr) (acc : list querypb.SegmentLoadInfo)
  : option (list querypb.SegmentLoadInfo) :=
  match segs with
  | [] => Some acc
  | None :: _ => None
  | Some ufInfo :: rest =>
      gatherSegments rest
        (if (0 <? length (datapb.Binlogs ufInfo))%nat
         then acc ++ [toSegmentLoadInfo ufInfo] else acc)
  end.

Fixpoint gatherInfos (infos : list datapb.VchannelInfo) (acc : list querypb.SegmentLoadInfo)
  : option (list querypb.SegmentLoadInfo) :=
  match infos with
  | [] => Some acc
  | info :: rest =>
      match gatherSegments (datapb.UnflushedSegments info) acc with
      | None => None
      | Some acc' => gatherInfos rest acc'
      end
  end.

Definition unFlushedSegments (req : t) : option (list querypb.SegmentLoadInfo) :=
  gatherInfos (Infos req) [].

(** The inner load request (lines 257-266). *)
Definition loadRequest (req : t) (base : commonpb.MsgBase)
  (segs : list querypb.SegmentLoadInfo) : LoadSegmentsRequest.t :=
  {| LoadSegmentsRequest.Base :=
       Some {| commonpb.MsgType_ := commonpb.MsgType_LoadSegments;
               commonpb.MsgID := commonpb.MsgID base;
               commonpb.Timestamp := 0 |};
     LoadSegmentsRequest.Infos := segs;
     LoadSegmentsRequest.CollectionID := CollectionID req;
     LoadSegmentsRequest.Schema := Schema req;
     LoadSegmentsRequest.LoadMeta := LoadMeta req |}.

Definition consumeSubName (env : Env) (req : t) : string :=
  GenChannelSubName env (QueryNodeSubName env) (CollectionID req) (GetNodeID env).

(** Grouping the channels by seeking or consuming (lines 304-313); the
    first component is channel2SeekPosition, the second
    channel2AsConsumerPosition. A request decoded from the wire shares no
    position between two fields, so the assignment to MsgGroup is made on
    the copy kept in the map. *)
Definition withMsgGroup (g : string) (p : internalpb.MsgPosition) : internalpb.MsgPosition :=
  {| internalpb.ChannelName := internalpb.ChannelName p;
     internalpb.MsgID := internalpb.MsgID p;
     internalpb.MsgGroup := g;
     internalpb.Timestamp := internalpb.Timestamp p |}.

Definition withChannelName (c : string) (p : internalpb.MsgPosition) : internalpb.MsgPosition :=
  {| internalpb.ChannelName := c;
     internalpb.MsgID := internalpb.MsgID p;
     internalpb.MsgGroup := internalpb.MsgGroup p;
     internalpb.Timestamp := internalpb.Timestamp p |}.

Definition groupChannels (subName : string) (infos : list datapb.VchannelInfo)
  : gmap string internalpb.MsgPosition * gmap string (option internalpb.MsgPosition) :=
  foldl (fun '(seek, consume) info =>
           match datapb.SeekPosition info with
           | None => (seek, <[datapb.ChannelName info := None]> consume)
           | Some pos =>
               if (length (internalpb.MsgID pos) =? 0)%nat
               then (seek, <[datapb.ChannelName info := Some pos]> consume)
               else (<[datapb.ChannelName info := withMsgGroup subName pos]> seek, consume)
           end)
        (∅, ∅) infos.

(** The check-point rule of lines 338-340 and 358-360. *)
Definition laterThan (dml position : internalpb.MsgPosition) : bool :=
  bool_decide (internalpb.ChannelName dml = internalpb.ChannelName position)
  && bool_decide (internalpb.Timestamp position < internalpb.Timestamp dml).

(** Lines 338-340: a nil DmlPosition is skipped; a nil segment panics. *)
Definition flushedCond (flushedSegment : datapb.SegmentPtr)
  (position : internalpb.MsgPosition) : option bool :=
  match flushedSegment with
  | None => None
  | Some s =>
      match datapb.DmlPosition s with
      | Some dml => Some (laterThan dml position)
      | None => Some false
      end
  end.

(** Lines 358-360: a nil segment is skipped; a nil DmlPosition panics. *)
Definition droppedCond (droppedSegment : datapb.SegmentPtr)
  (position : internalpb.MsgPosition) : option bool :=
  match droppedSegment with
  | None => Some false
  | Some s =>
      match datapb.DmlPosition s with
      | Some dml => Some (laterThan dml position)
      | None => None
      end
  end.

(** The three nested loops of lines 335-345 and 355-365, innermost first;
    [None] is a panic. *)
Fixpoint rangePositions (cond : internalpb.MsgPosition -> option bool)
  (seg : datapb.SegmentPtr) (positions : list internalpb.MsgPosition)
  (acc : list datapb.SegmentPtr) : option (list datapb.SegmentPtr) :=
  match positions with
  | [] => Some acc
  | position :: rest =>
      match cond position with
      | None => None
      | Some b => rangePositions cond seg rest (if b then acc ++ [seg] else acc)
      end
  end.

Fixpoint rangeSegments (env : Env) (cond : datapb.SegmentPtr -> internalpb.MsgPosition -> option bool)
  (seek : gmap string internalpb.MsgPosition) (tag : list nat) (j : nat)
  (segs : list datapb.SegmentPtr) (acc : list datapb.SegmentPtr)
  : option (list datapb.SegmentPtr) :=
  match segs with
  | [] => Some acc
  | seg :: rest =>
      match rangePositions (cond seg) seg (rangeMap env (tag ++ [j]) seek).*2 acc with
      | None => None
      | Some acc' => rangeSegments env cond seek tag (S j) rest acc'
      end
  end.

Fixpoint rangeInfos (env : Env) (sel : datapb.VchannelInfo -> list datapb.SegmentPtr)
  (cond : datapb.SegmentPtr -> internalpb.MsgPosition -> option bool)
  (seek : gmap string internalpb.MsgPosition) (site i : nat)
  (infos : list datapb.VchannelInfo) (acc : list datapb.SegmentPtr)
  : option (list datapb.SegmentPtr) :=
  match infos with
  | [] => Some acc
  | info :: rest =>
      match rangeSegments env cond seek [site; i] 0 (sel info) acc with
      | None => None
      | Some acc' => rangeInfos env sel cond seek site (S i) rest acc'
      end
  end.

Definition unFlushedCheckPointInfos (req : t) : list datapb.SegmentPtr :=
  concat (datapb.UnflushedSegments <$> Infos req).

Definition flushedCheckPointInfos (env : Env) (req : t)
  (seek : gmap string internalpb.MsgPosition) : option (list datapb.SegmentPtr) :=
  rangeInfos env datapb.FlushedSegments flushedCond seek 1 0 (Infos req) [].

Definition droppedCheckPointInfos (env : Env) (req : t)
  (seek : gmap string internalpb.MsgPosition) : option (list datapb.SegmentPtr) :=
  rangeInfos env datapb.DroppedSegments droppedCond seek 2 0 (Infos req) [].

(** Lines 316-370. *)
Definition addCheckPoints (env : Env) (req : t)
  (seek : gmap string internalpb.MsgPosition) : M unit :=
  addExcludedSegments Streaming (CollectionID req) (unFlushedCheckPointInfos req) ;;
  flushed <- deref (flushedCheckPointInfos env req seek) ;;
  addExcludedSegments Streaming (CollectionID req) flushed ;;
  dropped <- deref (droppedCheckPointInfos env req seek) ;;
  addExcludedSegments Streaming (CollectionID req) dropped.

(** Lines 381-401; the value is [err] when the loop is left. *)
Fixpoint asConsumer (env : Env) (req : t)
  (seek : gmap string internalpb.MsgPosition)
  (consume : gmap string (option internalpb.MsgPosition))
  (l : list (string * queryNodeFlowGraph)) : M (option Error) :=
  match l with
  | [] => ret None
  | (channel, fg) :: rest =>
      err <- (if bool_decide (is_Some (consume !! channel))
              then consumeFlowGraph env fg (default "" (VPChannels env req !! channel))
                     (consumeSubName env req)
              else ret None) ;;
      match err with
      | Some e => ret (Some e)
      | None =>
          err <- match seek !! channel with
                 | Some pos =>
                     seekQueryNodeFlowGraph env fg
                       (withChannelName (default "" (VPChannels env req !! channel))
                          (withMsgGroup (consumeSubName env req) pos))
                 | None => ret None
                 end ;;
          match err with
          | Some e => ret (Some e)
          | None => asConsumer env req seek consume rest
          end
      end
  end.

(** Lines 403-414: closing and removing the flow-graphs, then [return err]. *)
Definition rollback (env : Env) (channel2FlowGraph : gmap string queryNodeFlowGraph)
  (e : Error) : M unit :=
  forM_ (rangeMap env [4%nat] channel2FlowGraph) (fun '(_, fg) => flowGraphClose fg) ;;
  removeFlowGraphs DML (rangeKeys env [5%nat] channel2FlowGraph) ;;
  throw e.

(** Lines 433-447, one iteration. *)
Definition watchShard (env : Env) (req : t) (dmlChannel : Channel) : M unit :=
  has <- hasQueryShard dmlChannel ;;
  (if negb has
   then _ <- addQueryShard env (CollectionID req) dmlChannel (ReplicaID req) ;; ret tt
   else ret tt) ;;
  got <- getQueryShard dmlChannel ;;
  match got with
  | (_, Some _) => ret tt
  | (qs, None) => qs <- deref qs ;; _ <- watchDMLTSafe env qs ;; ret tt
  end.

(** Lines 418-455. *)
Definition finish (env : Env) (req : t)
  (channel2FlowGraph : gmap string queryNodeFlowGraph) : M unit :=
  let collectionID := CollectionID req in
  addVChannels Streaming collectionID (vChannels req) ;;
  addPChannels Streaming collectionID (pChannels env req) ;;
  setLoadType Streaming collectionID (lType req) ;;
  addVChannels Historical collectionID (vChannels req) ;;
  addPChannels Historical collectionID (pChannels env req) ;;
  setLoadType Historical collectionID (lType req) ;;
  forM_ (vChannels req) addTSafe ;;
  forM_ (vChannels req) (watchShard env req) ;;
  forM_ (rangeMap env [6%nat] channel2FlowGraph) (fun '(_, fg) => flowGraphStart fg).

(** Lines 301-455: what runs once the deferred clean-up is armed. *)
Definition watch (env : Env) (req : t) : M unit :=
  let collectionID := CollectionID req in
  let '(channel2SeekPosition, channel2AsConsumerPosition) :=
    groupChannels (consumeSubName env req) (Infos req) in
  addCheckPoints env req channel2SeekPosition ;;
  added <- addFlowGraphs env DML collectionID (vChannels req) ;;
  let '(channel2FlowGraph, err) := added in
  check err ;;
  err <- asConsumer env req channel2SeekPosition channel2AsConsumerPosition
           (rangeMap env [3%nat] channel2FlowGraph) ;;
  match err with
  | Some e => rollback env channel2FlowGraph e
  | None => finish env req channel2FlowGraph
  end.

(** Lines 293-299, the deferred function: [err] is non-nil exactly when
    Execute leaves through one of its [return err]; at the final
    [return nil] and at every panic past this point it is nil. *)
Definition removeGrowing (unFlushedSegmentIDs : list UniqueID) (r : Res unit) : M unit :=
  match r with
  | Fail _ => forM_ unFlushedSegmentIDs (removeSegment Streaming)
  | _ => ret tt
  end.

(** Lines 268-276. *)
Definition addPartitions (env : Env) (lreq : LoadSegmentsRequest.t) (collectionID : UniqueID)
  : M unit :=
  forM_ (LoadSegmentsRequest.Infos lreq) (fun info =>
    _ <- addPartition env Streaming collectionID (querypb.PartitionID info) ;;
    _ <- addPartition env Historical collectionID (querypb.PartitionID info) ;;
    ret tt) ;;
  forM_ (querypb.GetPartitionIDs (LoadSegmentsRequest.LoadMeta lreq)) (fun partitionID =>
    _ <- addPartition env Historical collectionID partitionID ;;
    _ <- addPartition env Streaming collectionID partitionID ;;
    ret tt).

(** Lines 190-290: everything up to the loading of the growing segments;
    the value is unFlushedSegmentIDs. *)
Definition prepare (env : Env) (req : t) : M (list UniqueID) :=
  let collectionID := CollectionID req in
  if negb (size (VPChannels env req) =? length (vChannels req))%nat
  then throw (ErrIllegalChannelLength collectionID)
  else
    _ <- deref (Schema req) ;;                      (* w.req.Schema.Name, line 220 *)
    addCollection Streaming collectionID (Schema req) ;;
    addCollection Historical collectionID (Schema req) ;;
    forM_ (vChannels req) (addShardCluster collectionID (ReplicaID req)) ;;
    segs <- deref (unFlushedSegments req) ;;
    base <- deref (Base req) ;;                     (* w.req.Base.MsgID, line 260 *)
    let lreq := loadRequest req base segs in
    addPartitions env lreq collectionID ;;
    err <- loadSegment env lreq segmentTypeGrowing ;;
    check err ;;
    ret (querypb.SegmentID <$> segs).

Definition Execute (env : Env) (req : t) : M unit :=
  unFlushedSegmentIDs <- prepare env req ;;
  defer (removeGrowing unFlushedSegmentIDs) (watch env req).

End watchDmChannelsTask.

(** ** watchDeltaChannelsTask *)

Module watchDeltaChannelsTask.
Import WatchDeltaChannelsRequest.

(** Lines 488-499. *)
Definition vDeltaChannels (req : t) : list Channel := datapb.ChannelName <$> Infos req.

Definition pDeltaChannels (env : Env) (req : t) : list Channel :=
  (fun info => ToPhysicalChannel env (datapb.ChannelName info)) <$> Infos req.

Definition VPDeltaChannels (env : Env) (req : t) : gmap string string :=
  foldl (fun m info =>
           <[datapb.ChannelName info := ToPhysicalChannel env (datapb.ChannelName info)]> m)
        ∅ (Infos req).

Definition vChannel2SeekPosition (req : t) : gmap string (option internalpb.MsgPosition) :=
  foldl (fun m info => <[datapb.ChannelName info := datapb.SeekPosition info]> m)
        ∅ (Infos req).

Definition consumeSubName (env : Env) (req : t) : string :=
  GenChannelSubName env (QueryNodeSubName env) (CollectionID req) (GetNodeID env).

(** Lines 535-547; the value is [err] when the loop is left. *)
Fixpoint asConsumer (env : Env) (req : t) (l : list (string * queryNodeFlowGraph))
  : M (option Error) :=
  match l with
  | [] => ret None
  | (channel, fg) :: rest =>
      err <- consumeFlowGraphFromLatest env fg
               (default "" (VPDeltaChannels env req !! channel)) (consumeSubName env req) ;;
      match err with
      | Some e => ret (Some e)
      | None =>
          err <- FromDmlCPLoadDelete env (CollectionID req)
                   (default None (vChannel2SeekPosition req !! channel)) ;;
          match err with
          | Some e => ret (Some e)
          | None => asConsumer env req rest
          end
      end
  end.

(** Lines 548-559. *)
Definition rollback (env : Env) (channel2FlowGraph : gmap string queryNodeFlowGraph)
  (e : Error) : M unit :=
  forM_ (rangeMap env [4%nat] channel2FlowGraph) (fun '(_, fg) => flowGraphClose fg) ;;
  removeFlowGraphs Delta (rangeKeys env [5%nat] channel2FlowGraph) ;;
  throw e.

(** Lines 576-595, one iteration. *)
Definition watchShard (env : Env) (req : t) (channel : Channel) : M unit :=
  match ConvertChannelName env channel (RootCoordDelta env) (RootCoordDml env) with
  | inl _ => ret tt
  | inr dmlChannel =>
      has <- hasQueryShard dmlChannel ;;
      (if negb has
       then _ <- addQueryShard env (CollectionID req) dmlChannel (ReplicaId req) ;; ret tt
       else ret tt) ;;
      got <- getQueryShard dmlChannel ;;
      match got with
      | (_, Some _) => ret tt
      | (qs, None) => qs <- deref qs ;; _ <- watchDeltaTSafe env qs ;; ret tt
      end
  end.

(** Lines 561-603. *)
Definition finish (env : Env) (req : t)
  (channel2FlowGraph : gmap string queryNodeFlowGraph) : M unit :=
  let collectionID := CollectionID req in
  addVDeltaChannels Historical collectionID (vDeltaChannels req) ;;
  addPDeltaChannels Historical collectionID (pDeltaChannels env req) ;;
  addVDeltaChannels Streaming collectionID (vDeltaChannels req) ;;
  addPDeltaChannels Streaming collectionID (pDeltaChannels env req) ;;
  forM_ (vDeltaChannels req) addTSafe ;;
  forM_ (vDeltaChannels req) (watchShard env req) ;;
  forM_ (rangeMap env [6%nat] channel2FlowGraph) (fun '(_, fg) => flowGraphStart fg).

Definition Execute (env : Env) (req : t) : M unit :=
  let collectionID := CollectionID req in
  if negb (size (VPDeltaChannels env req) =? length (vDeltaChannels req))%nat
  then throw (ErrIllegalChannelLength collectionID)
  else
    hasCollectionInHistorical <- hasCollection Historical collectionID ;;
    if negb hasCollectionInHistorical
    then throw (ErrCannotFindCollection collectionID)
    else
      hCol <- getCollectionByID Historical collectionID ;;
      check hCol.2 ;;
      hasCollectionInStreaming <- hasCollection Streaming collectionID ;;
      if negb hasCollectionInStreaming
      then throw (ErrCannotFindCollection collectionID)
      else
        sCol <- getCollectionByID Streaming collectionID ;;
        check sCol.2 ;;
        added <- addFlowGraphs env Delta collectionID (vDeltaChannels req) ;;
        let '(channel2FlowGraph, err) := added in
        check err ;;
        err <- asConsumer env req (rangeMap env [3%nat] channel2FlowGraph) ;;
        match err with
        | Some e => rollback env channel2FlowGraph e
        | None => finish env req channel2FlowGraph
        end.

End watchDeltaChannelsTask.

(** ** loadSegmentsTask *)

Module loadSegmentsTask.
Import LoadSegmentsRequest.

(** Lines 641-650, one iteration. *)
Definition addPartitions (env : Env) (collectionID partitionID : UniqueID) : M unit :=
  err <- addPartition env Historical collectionID partitionID ;;
  check err ;;
  err <- addPartition env Streaming collectionID partitionID ;;
  check err.

Definition Execute (env : Env) (req : t) : M unit :=
  _ <- deref (Base req) ;;                          (* l.req.Base.MsgID, line 634 *)
  let collectionID := CollectionID req in
  addCollection Historical collectionID (Schema req) ;;
  addCollection Streaming collectionID (Schema req) ;;
  forM_ (querypb.GetPartitionIDs (LoadMeta req)) (addPartitions env collectionID) ;;
  err <- loadSegment env req segmentTypeSealed ;;
  check err ;;
  _ <- deref (Base req) ;;                          (* l.req.Base.MsgID, line 658 *)
  ret tt.

End loadSegmentsTask.

(** ** releaseCollectionTask *)

Inductive ReplicaType := replicaNone | replicaStreaming | replicaHistorical.

Module releaseCollectionTask.
Import ReleaseCollectionRequest.

Definition gracefulReleaseTime : Z := 1.

(** Lines 725-766; the value is the error releaseReplica returns. *)
Definition releaseReplica (env : Env) (req : t) (k : ReplicaKind) (replicaType : ReplicaType)
  : M (option Error) :=
  queryLock k ;;
  got <- getCollectionByID k (CollectionID req) ;;
  match got with
  | (_, Some e) => queryUnlock k ;; ret (Some e)
  | (collection, None) =>
      collection <- deref collection ;;
      base <- deref (Base req) ;;                   (* r.req.Base.Timestamp, line 736 *)
      setReleaseTime k (CollectionID req) (commonpb.Timestamp base) ;;
      queryUnlock k ;;
      channels <- match replicaType with
                  | replicaStreaming =>
                      let channels := Collection.vChannels collection in
                      removeFlowGraphs DML channels ;; ret channels
                  | _ =>
                      let channels := Collection.vDeltaChannels collection in
                      removeFlowGraphs Delta channels ;; ret channels
                  end ;;
      forM_ channels removeTSafe ;;
      removeExcludedSegments k (CollectionID req) ;;
      removeCollection env k (CollectionID req)
  end.

Definition Execute (env : Env) (req : t) : M unit :=
  sleep gracefulReleaseTime ;;
  err <- releaseReplica env req Streaming replicaStreaming ;;
  match err with
  | Some e => throw (ErrReleaseCollectionFailed (CollectionID req) e)
  | None =>
      err <- releaseReplica env req Historical replicaHistorical ;;
      match err with
      | Some e => throw (ErrReleaseCollectionFailed (CollectionID req) e)
      | None =>
          FreeOSMemory ;;
          queryShardService_releaseCollection (CollectionID req)
      end
  end.

End releaseCollectionTask.

(** ** releasePartitionsTask *)

Module releasePartitionsTask.
Import ReleasePartitionsRequest.

Definition gracefulReleaseTime : Z := 1.

(** Lines 814-832, one iteration. *)
Definition releasePartition (env : Env) (id : UniqueID) : M unit :=
  hasPartitionInHistorical <- hasPartition Historical id ;;
  (if hasPartitionInHistorical : bool
   then _ <- removePartition env Historical id ;; ret tt
   else ret tt) ;;
  hasPartitionInStreaming <- hasPartition Streaming id ;;
  (if hasPartitionInStreaming : bool
   then _ <- removePartition env Streaming id ;; ret tt
   else ret tt).

Definition Execute (env : Env) (req : t) : M unit :=
  sleep gracefulReleaseTime ;;
  got <- getCollectionByID Historical (CollectionID req) ;;
  match got.2 with
  | Some e => throw (ErrReleasePartitionsFailed (CollectionID req) e)
  | None =>
      got <- getCollectionByID Streaming (CollectionID req) ;;
      match got.2 with
      | Some e => throw (ErrReleasePartitionsFailed (CollectionID req) e)
      | None => forM_ (PartitionIDs req) (releasePartition env)
      end
  end.

End releasePartitionsTask.

(** ** What the six tasks share: ID, SetID, Timestamp, OnEnqueue *)

(** A request type of one of the task variants; [Base] is its envelope. *)
Class Request (R : Type) := { Base : R -> option commonpb.MsgBase }.

#[export] Instance AddQueryChannel_Request : Request AddQueryChannelRequest.t :=
  {| Base := AddQueryChannelRequest.Base |}.
#[export] Instance WatchDmChannels_Request : Request WatchDmChannelsRequest.t :=
  {| Base := WatchDmChannelsRequest.Base |}.
#[export] Instance WatchDeltaChannels_Request : Request WatchDeltaChannelsRequest.t :=
  {| Base := WatchDeltaChannelsRequest.Base |}.
#[export] Instance LoadSegments_Request : Request LoadSegmentsRequest.t :=
  {| Base := LoadSegmentsRequest.Base |}.
#[export] Instance ReleaseCollection_Request : Request ReleaseCollectionRequest.t :=
  {| Base := ReleaseCollectionRequest.Base |}.
#[export] Instance ReleasePartitions_Request : Request ReleasePartitionsRequest.t :=
  {| Base := ReleasePartitionsRequest.Base |}.

(** math/rand: [Int63n n] is, for [n > 0], a number in [[0, n)]. *)
Record Rand := {
  Int63n : Z -> Z;
  Int63n_range : forall n, 0 < n -> 0 <= Int63n n < n }.

Module task.

(** A task: the id of its baseTask and its request pointer. *)
Record t (R : Type) := { id : UniqueID; req : option R }.
Arguments id {R} _.
Arguments req {R} _.

Definition ID {R} (b : t R) : UniqueID := id b.

Definition SetID {R} (uid : UniqueID) (b : t R) : t R := {| id := uid; req := req b |}.

(** Timestamp of each variant (lines 109, 168, 463, 611, 667, 773); the
    test [r.req.Base == nil] reads through the request pointer. *)
Definition Timestamp {R} `{Request R} (r : t R) : Res Z :=
  match req r with
  | None => Panic
  | Some q =>
      match Base q with
      | None => Ok 0
      | Some base => Ok (commonpb.Timestamp base)
      end
  end.

(** OnEnqueue of each variant (lines 117, 176, 471, 619, 675, 781): the
    task after the call and the error returned. *)
Definition OnEnqueue {R} `{Request R} (rand : Rand) (r : t R) : t R * option Error :=
  match req r with
  | None => (SetID (Int63n rand 100000000000) r, None)
  | Some q =>
      match Base q with
      | None => (SetID (Int63n rand 100000000000) r, None)
      | Some base => (SetID (commonpb.MsgID base) r, None)
      end
  end.

End task.

(** ** A concrete environment and node *)

(** funcutil.ToPhysicalChannel drops what follows the last underscore. *)
Fixpoint beforeLastUnderscore (s : string) : option string :=
  match s with
  | EmptyString => None
  | String c rest =>
      match beforeLastUnderscore rest with
      | Some p => Some (String c p)
      | None => if String.eqb (String c EmptyString) "_" then Some EmptyString else None
      end
  end.

Definition toPhysicalChannel (vchannel : string) : string :=
  default vchannel (beforeLastUnderscore vchannel).

(** An environment in which no collaborator fails and every map is
    visited in the order of its key list. *)
Definition quietEnv : Env :=
  {| ToPhysicalChannel := toPhysicalChannel;
     GenChannelSubName := fun prefix collectionID nodeID => prefix;
     ConvertChannelName := fun ch _ _ => inr ch;
     QueryNodeSubName := "by-dev-queryNode";
     GetNodeID := 1;
     RootCoordDelta := "by-dev-rootcoord-delta";
     RootCoordDml := "by-dev-rootcoord-dml";
     addPartition_err := fun _ _ _ => None;
     removePartition_err := fun _ _ => None;
     removeCollection_err := fun _ _ => None;
     loadSegment_err := fun _ _ => None;
     addFlowGraphs_err := fun _ _ _ => None;
     consumeFlowGraph_err := fun _ _ _ => None;
     consumeFlowGraphFromLatest_err := fun _ _ _ => None;
     seekQueryNodeFlowGraph_err := fun _ _ => None;
     FromDmlCPLoadDelete_err := fun _ _ => None;
     addQueryShard_err := fun _ _ _ => None;
     watchDMLTSafe_err := fun _ => None;
     watchDeltaTSafe_err := fun _ => None;
     rangeOrder := fun _ l => l;
     rangeOrder_perm := fun _ l => Permutation_refl l |}.

(** The same environment with a bus on which every seek fails. *)
Definition seekFailsEnv : Env :=
  {| ToPhysicalChannel := toPhysicalChannel;
     GenChannelSubName := fun prefix collectionID nodeID => prefix;
     ConvertChannelName := fun ch _ _ => inr ch;
     QueryNodeSubName := "by-dev-queryNode";
     GetNodeID := 1;
     RootCoordDelta := "by-dev-rootcoord-delta";
     RootCoordDml := "by-dev-rootcoord-dml";
     addPartition_err := fun _ _ _ => None;
     removePartition_err := fun _ _ => None;
     removeCollection_err := fun _ _ => None;
     loadSegment_err := fun _ _ => None;
     addFlowGraphs_err := fun _ _ _ => None;
     consumeFlowGraph_err := fun _ _ _ => None;
     consumeFlowGraphFromLatest_err := fun _ _ _ => None;
     seekQueryNodeFlowGraph_err := fun _ _ => Some (ErrCollaborator "seek failed");
     FromDmlCPLoadDelete_err := fun _ _ => None;
     addQueryShard_err := fun _ _ _ => None;
     watchDMLTSafe_err := fun _ => None;
     watchDeltaTSafe_err := fun _ => None;
     rangeOrder := fun _ l => l;
     rangeOrder_perm := fun _ l => Permutation_refl l |}.

Definition emptyReplica : Replica :=
  {| collections := ∅; partitions := ∅; segments := ∅; excludedSegments := ∅ |}.

Definition emptyNode : QueryNode :=
  {| streaming := emptyReplica; historical := emptyReplica;
     dmlChannel2FlowGraph := ∅; deltaChannel2FlowGraph := ∅;
     tSafes := ∅; queryShards := ∅; shardClusters := [] |}.

Definition base1 : commonpb.MsgBase :=
  {| commonpb.MsgType_ := commonpb.MsgType_Undefined; commonpb.MsgID := 42;
     commonpb.Timestamp := 1000 |}.

Definition seek500 : internalpb.MsgPosition :=
  {| internalpb.ChannelName := "by-dev-rootcoord-dml_0"; internalpb.MsgID := [120];
     internalpb.MsgGroup := ""; internalpb.Timestamp := 500 |}.

Definition segment7 : datapb.SegmentInfo :=
  {| datapb.ID := 7; datapb.CollectionID := 100; datapb.PartitionID := 1;
     datapb.NumOfRows := 10;
     datapb.Binlogs := [ {| datapb.FieldID := 0; datapb.Binlogs_ := ["binlog/7/0"] |} ];
     datapb.Statslogs := []; datapb.Deltalogs := [];
     datapb.DmlPosition := None |}.

Definition dmlInfo (flushed dropped : list datapb.SegmentPtr) : datapb.VchannelInfo :=
  {| datapb.ChannelName := "by-dev-rootcoord-dml_0";
     datapb.SeekPosition := Some seek500;
     datapb.UnflushedSegments := [Some segment7];
     datapb.FlushedSegments := flushed;
     datapb.DroppedSegments := dropped |}.

(** Scenario 1 of the specification: WatchDmChannels on collection 100. *)
Definition watchDm100 (base : option commonpb.MsgBase) (infos : list datapb.VchannelInfo)
  : WatchDmChannelsRequest.t :=
  {| WatchDmChannelsRequest.Base := base;
     WatchDmChannelsRequest.CollectionID := 100;
     WatchDmChannelsRequest.PartitionIDs := [];
     WatchDmChannelsRequest.Infos := infos;
     WatchDmChannelsRequest.Schema := Some {| schemapb.Name := "c100" |};
     WatchDmChannelsRequest.LoadMeta :=
       Some {| querypb.LoadType_ := querypb.LoadType_LoadCollection;
               querypb.PartitionIDs := [] |};
     WatchDmChannelsRequest.ReplicaID := 1 |}.

(** ** Properties of executions *)

(** [emits P m]: every event of every run of [m] satisfies [P]. *)
Definition emits {A} (P : Event -> Prop) (m : M A) : Prop :=
  forall n, Forall P (trace (m n)).

(** [preserves I m]: every run of [m] from a node in [I] ends in [I]. *)
Definition preserves {A} (I : QueryNode -> Prop) (m : M A) : Prop :=
  forall n, I n -> I (final (m n)).

(** [succeeds m]: no run of [m] fails or panics. *)
Definition succeeds {A} (m : M A) : Prop :=
  forall n, exists a, result (m n) = Ok a.

(** ** Concrete tasks and requests *)

(** A random source whose draw is 0, a value [Int63n] may return. *)
Definition zeroRand : Rand.
Proof. refine {| Int63n := fun _ => 0 |}. intros n Hn. lia. Defined.

Definition releaseCollection100 (base : option commonpb.MsgBase) : ReleaseCollectionRequest.t :=
  {| ReleaseCollectionRequest.Base := base; ReleaseCollectionRequest.CollectionID := 100 |}.

(** An envelope whose timestamp is 0. *)
Definition baseAtZero : commonpb.MsgBase :=
  {| commonpb.MsgType_ := commonpb.MsgType_Undefined; commonpb.MsgID := 42;
     commonpb.Timestamp := 0 |}.

Definition releaseTask (base : option commonpb.MsgBase) : task.t ReleaseCollectionRequest.t :=
  {| task.id := 5; task.req := Some (releaseCollection100 base) |}.

(** WatchDmChannels with an unknown load type and the given partition ids. *)
Definition watchDmUnknown (partitionIDs : list UniqueID) : WatchDmChannelsRequest.t :=
  {| WatchDmChannelsRequest.Base := Some base1;
     WatchDmChannelsRequest.CollectionID := 100;
     WatchDmChannelsRequest.PartitionIDs := partitionIDs;
     WatchDmChannelsRequest.Infos := [dmlInfo [] []];
     WatchDmChannelsRequest.Schema := Some {| schemapb.Name := "c100" |};
     WatchDmChannelsRequest.LoadMeta := None;
     WatchDmChannelsRequest.ReplicaID := 1 |}.

(** ** Classes of events *)

(** A setLoadType call, if [ev] is one, passes [l]. *)
Definition setsLoadType (l : querypb.LoadType) (ev : Event) : Prop :=
  match ev with EvSetLoadType _ _ l' => l' = l | _ => True end.

(** [ev] is not the start of a flow-graph. *)
Definition notStart (ev : Event) : Prop :=
  match ev with EvFlowGraphStart _ _ => False | _ => True end.

(** [ev] is a consumeFlowGraph or seekQueryNodeFlowGraph call that failed. *)
Definition attachFailed (ev : Event) : Prop :=
  match ev with
  | EvConsumeFlowGraph _ _ _ (Some _) => True
  | EvSeekQueryNodeFlowGraph _ _ (Some _) => True
  | _ => False
  end.

(** [ev] is not a removeCollection call. *)
Definition notRemoveCollection (ev : Event) : Prop :=
  match ev with EvRemoveCollection _ _ _ => False | _ => True end.

(** [ev] is not a removePartition call on partition [pid] of replica [k]. *)
Definition notRemovePartition (k : ReplicaKind) (pid : UniqueID) (ev : Event) : Prop :=
  match ev with
  | EvRemovePartition k' pid' _ => ~ (k' = k /\ pid' = pid)
  | _ => True
  end.

(** Segment 8 was dropped and carries no DmlPosition. *)
Definition segment8 : datapb.SegmentInfo :=
  {| datapb.ID := 8; datapb.CollectionID := 100; datapb.PartitionID := 1;
     datapb.NumOfRows := 0; datapb.Binlogs := []; datapb.Statslogs := [];
     datapb.Deltalogs := []; datapb.DmlPosition := None |}.

Definition loadSegments300 (base : option commonpb.MsgBase) : LoadSegmentsRequest.t :=
  {| LoadSegmentsRequest.Base := base;
     LoadSegmentsRequest.Infos := [];
     LoadSegmentsRequest.Schema := Some {| schemapb.Name := "c300" |};
     LoadSegmentsRequest.CollectionID := 300;
     LoadSegmentsRequest.LoadMeta :=
       Some {| querypb.LoadType_ := querypb.LoadType_LoadPartition;
               querypb.PartitionIDs := [1; 2] |} |}.

Definition deltaInfo (channel : string) : datapb.VchannelInfo :=
  {| datapb.ChannelName := channel;
     datapb.SeekPosition := None;
     datapb.UnflushedSegments := [];
     datapb.FlushedSegments := [];
     datapb.DroppedSegments := [] |}.

(** Scenario 4 of the specification: WatchDeltaChannels on collection 200. *)
Definition watchDelta200 (infos : list datapb.VchannelInfo) : WatchDeltaChannelsRequest.t :=
  {| WatchDeltaChannelsRequest.Base := Some base1;
     WatchDeltaChannelsRequest.CollectionID := 200;
     WatchDeltaChannelsRequest.Infos := infos;
     WatchDeltaChannelsRequest.ReplicaId := 1 |}.

(** The node after scenario 1: collection 100, partition 1 and growing
    segment 7 are loaded and "by-dev-rootcoord-dml_0" is watched. *)
Definition loadedNode : QueryNode :=
  final (watchDmChannelsTask.Execute quietEnv (watchDm100 (Some base1) [dmlInfo [] []]) emptyNode).

(** An environment whose replicas refuse to remove partition 1. *)
Definition keepsPartition1Env : Env :=
  {| ToPhysicalChannel := toPhysicalChannel;
     GenChannelSubName := fun prefix collectionID nodeID => prefix;
     ConvertChannelName := fun ch _ _ => inr ch;
     QueryNodeSubName := "by-dev-queryNode";
     GetNodeID := 1;
     RootCoordDelta := "by-dev-rootcoord-delta";
     RootCoordDml := "by-dev-rootcoord-dml";
     addPartition_err := fun _ _ _ => None;
     removePartition_err := fun _ pid =>
       if pid =? 1 then Some (ErrCollaborator "partition is in use") else None;
     removeCollection_err := fun _ _ => None;
     loadSegment_err := fun _ _ => None;
     addFlowGraphs_err := fun _ _ _ => None;
     consumeFlowGraph_err := fun _ _ _ => None;
     consumeFlowGraphFromLatest_err := fun _ _ _ => None;
     seekQueryNodeFlowGraph_err := fun _ _ => None;
     FromDmlCPLoadDelete_err := fun _ _ => None;
     addQueryShard_err := fun _ _ _ => None;
     watchDMLTSafe_err := fun _ => None;
     watchDeltaTSafe_err := fun _ => None;
     rangeOrder := fun _ l => l;
     rangeOrder_perm := fun _ l => Permutation_refl l |}.

Definition releasePartitions100 (partitionIDs : list UniqueID) : ReleasePartitionsRequest.t :=
  {| ReleasePartitionsRequest.Base := Some base1;
     ReleasePartitionsRequest.CollectionID := 100;
     ReleasePartitionsRequest.PartitionIDs := partitionIDs |}.

(** The flow-graph kind and the channels releaseReplica works on
    (lines 740-748). *)
Definition releasedKind (replicaType : ReplicaType) : FlowGraphKind :=
  match replicaType with replicaStreaming => DML | _ => Delta end.

Definition releasedChannels (replicaType : ReplicaType) (c : Collection.t) : list Channel :=
  match replicaType with
  | replicaStreaming => Collection.vChannels c
  | _ => Collection.vDeltaChannels c
  end.

(** The trace of a releaseReplica that finds the collection. *)
Definition releaseTrace (k : ReplicaKind) (replicaType : ReplicaType)
  (collectionID : UniqueID) (ts : Timestamp) (c : Collection.t) (err : option Error)
  : list Event :=
  [EvQueryLock k; EvSetReleaseTime k collectionID ts; EvQueryUnlock k;
   EvRemoveFlowGraphs (releasedKind replicaType) (releasedChannels replicaType c)]
  ++ (EvRemoveTSafe <$> releasedChannels replicaType c)
  ++ [EvRemoveExcludedSegments k collectionID; EvRemoveCollection k collectionID err].

(** The node after a releaseReplica that finds the collection. *)
Definition released (k : ReplicaKind) (replicaType : ReplicaType)
  (collectionID : UniqueID) (ts : Timestamp) (c : Collection.t) (err : option Error)
  (n : QueryNode) : QueryNode :=
  let n1 := withReplica k (withCollections (alter (Collection.withReleaseTime ts) collectionID)) n in
  let n2 := withFlowGraphs (releasedKind replicaType)
              (fun m => foldr delete m (releasedChannels replicaType c)) n1 in
  let n3 := withTSafes (fun s => s ∖ list_to_set (releasedChannels replicaType c)) n2 in
  let n4 := withReplica k (withExcluded (delete collectionID)) n3 in
  match err with
  | None => withReplica k (withCollections (delete collectionID)) n4
  | Some _ => n4
  end.

Definition releaseCollection100At (ts : Timestamp) : ReleaseCollectionRequest.t :=
  releaseCollection100
    (Some {| commonpb.MsgType_ := commonpb.MsgType_Undefined; commonpb.MsgID := 43;
             commonpb.Timestamp := ts |}).

(** [emit evs x]: the run [x] with the events [evs] before its own. *)
Definition emit {A} (evs : list Event) (x : Res A * QueryNode * list Event)
  : Res A * QueryNode * list Event :=
  (result x, final x, evs ++ trace x).

(** Collection 100 as both replicas of [loadedNode] hold it. *)
Definition collection100 : Collection.t :=
  {| Collection.id := 100; Collection.schema := Some {| schemapb.Name := "c100" |};
     Collection.loadType := querypb.LoadType_LoadCollection;
     Collection.vChannels := ["by-dev-rootcoord-dml_0"];
     Collection.pChannels := ["by-dev-rootcoord-dml"];
     Collection.vDeltaChannels := []; Collection.pDeltaChannels := [];
     Collection.releaseTime := 0 |}.

(** Scenario 3 of the specification: ReleaseCollection at timestamp 2000
    after scenario 1. *)
Definition releaseRun : Res unit * QueryNode * list Event :=
  releaseCollectionTask.Execute quietEnv (releaseCollection100At 2000) loadedNode.

(** ** Start comes last

    [startsLast k chans required x]: if the run [x] succeeded, its trace
    is some events, none of them a Start and the [required] ones among
    them, followed by one Start for each channel of [chans] and nothing
    else; if it did not succeed, its trace has no Start. *)
Definition startsLast {A} (k : FlowGraphKind) (chans : list Channel) (required : list Event)
  (x : Res A * QueryNode * list Event) : Prop :=
  match result x with
  | Ok _ =>
      exists pre order,
        trace x = pre ++ (EvFlowGraphStart k <$> order)
        /\ Forall notStart pre
        /\ NoDup order
        /\ (forall ch, ch ∈ order <-> ch ∈ chans)
        /\ (forall ev, ev ∈ required -> ev ∈ pre)
  | _ => Forall notStart (trace x)
  end.

(** The metadata updates and tSafe creations of a WatchDmChannels. *)
Definition watchDmUpdates (env : Env) (req : WatchDmChannelsRequest.t) : list Event :=
  let cid := WatchDmChannelsRequest.CollectionID req in
  [EvAddVChannels Streaming cid (watchDmChannelsTask.vChannels req);
   EvAddPChannels Streaming cid (watchDmChannelsTask.pChannels env req);
   EvSetLoadType Streaming cid (watchDmChannelsTask.lType req);
   EvAddVChannels Historical cid (watchDmChannelsTask.vChannels req);
   EvAddPChannels Historical cid (watchDmChannelsTask.pChannels env req);
   EvSetLoadType Historical cid (watchDmChannelsTask.lType req)]
  ++ (EvAddTSafe <$> watchDmChannelsTask.vChannels req).

(** The metadata updates and tSafe creations of a WatchDeltaChannels. *)
Definition watchDeltaUpdates (env : Env) (req : WatchDeltaChannelsRequest.t) : list Event :=
  let cid := WatchDeltaChannelsRequest.CollectionID req in
  [EvAddVDeltaChannels Historical cid (watchDeltaChannelsTask.vDeltaChannels req);
   EvAddPDeltaChannels Historical cid (watchDeltaChannelsTask.pDeltaChannels env req);
   EvAddVDeltaChannels Streaming cid (watchDeltaChannelsTask.vDeltaChannels req);
   EvAddPDeltaChannels Streaming cid (watchDeltaChannelsTask.pDeltaChannels env req)]
  ++ (EvAddTSafe <$> watchDeltaChannelsTask.vDeltaChannels req).

(** Both replicas hold collection [cid]. *)
Definition holdsCollection (cid : UniqueID) (n : QueryNode) : Prop :=
  is_Some (collections (streaming n) !! cid) /\ is_Some (collections (historical n) !! cid).

(** Scenario 2 of the specification: scenario 1 on a bus whose seek fails. *)
Definition rollbackRun : Res unit * QueryNode * list Event :=
  watchDmChannelsTask.Execute seekFailsEnv (watchDm100 (Some base1) [dmlInfo [] []]) emptyNode.

(** ** More classes of events *)


(** [ev] is a consumeFlowGraphFromLatest or FromDmlCPLoadDelete call that
    failed. *)
Definition deltaAttachFailed (ev : Event) : Prop :=
  match ev with
  | EvConsumeFlowGraphFromLatest _ _ _ (Some _) => True
  | EvFromDmlCPLoadDelete _ _ (Some _) => True
  | _ => False
  end.

(** [ev] is a loadSegment call that failed. *)
Definition loadFailed (ev : Event) : Prop :=
  match ev with EvLoadSegment _ _ (Some _) => True | _ => False end.

(** [ev] is an addFlowGraphsFor...Channels call that failed. *)
Definition addFlowGraphsFailed (ev : Event) : Prop :=
  match ev with EvAddFlowGraphs _ _ _ (Some _) => True | _ => False end.

(** [ev] is an addPartition call that failed. *)
Definition addPartitionFailed (ev : Event) : Prop :=
  match ev with EvAddPartition _ _ _ (Some _) => True | _ => False end.

(** [ev] is none of the calls of a rollback: Close, removeFlowGraphs...,
    removeSegment. *)
Definition notRollback (ev : Event) : Prop :=
  match ev with
  | EvFlowGraphClose _ _ => False
  | EvRemoveFlowGraphs _ _ => False
  | EvRemoveSegment _ _ => False
  | _ => True
  end.

(** [ev] is none of the calls of a release. *)
Definition notRelease (ev : Event) : Prop :=
  match ev with
  | EvSleep _ => False
  | EvQueryLock _ => False
  | EvQueryUnlock _ => False
  | EvSetReleaseTime _ _ _ => False
  | EvRemoveExcludedSegments _ _ => False
  | EvRemovePartition _ _ _ => False
  | EvRemoveCollection _ _ _ => False
  | EvRemoveTSafe _ => False
  | EvFreeOSMemory => False
  | EvReleaseCollection _ => False
  | _ => True
  end.

(** [ev] is none of the calls by which WatchDmChannels sets a collection
    up: WatchDeltaChannels makes none of them. *)
Definition notDmlSetup (ev : Event) : Prop :=
  match ev with
  | EvAddCollection _ _ => False
  | EvAddShardCluster _ _ _ => False
  | EvAddPartition _ _ _ _ => False
  | EvLoadSegment _ _ _ => False
  | EvAddExcludedSegments _ _ _ => False
  | EvConsumeFlowGraph _ _ _ _ => False
  | EvSeekQueryNodeFlowGraph _ _ _ => False
  | EvAddVChannels _ _ _ => False
  | EvAddPChannels _ _ _ => False
  | EvSetLoadType _ _ _ => False
  | EvWatchDMLTSafe _ _ => False
  | _ => True
  end.

(** ** Query locks

    [locksAfter held evs]: the replicas whose query lock is held after
    the calls [evs], starting with those of [held] locked; [None] when a
    lock is taken twice or released without being held. *)
#[export] Instance ReplicaKind_eq_dec : EqDecision ReplicaKind.
Proof. solve_decision. Defined.

Fixpoint locksAfter (held : list ReplicaKind) (evs : list Event) : option (list ReplicaKind) :=
  match evs with
  | [] => Some held
  | EvQueryLock k :: evs' =>
      if bool_decide (k ∈ held) then None else locksAfter (k :: held) evs'
  | EvQueryUnlock k :: evs' =>
      if bool_decide (k ∈ held)
      then locksAfter (filter (fun k' => k' <> k) held) evs'
      else None
  | _ :: evs' => locksAfter held evs'
  end.

(** ** More concrete runs *)

(** An environment whose segment loader fails. *)
Definition loadFailsEnv : Env :=
  {| ToPhysicalChannel := toPhysicalChannel;
     GenChannelSubName := fun prefix collectionID nodeID => prefix;
     ConvertChannelName := fun ch _ _ => inr ch;
     QueryNodeSubName := "by-dev-queryNode";
     GetNodeID := 1;
     RootCoordDelta := "by-dev-rootcoord-delta";
     RootCoordDml := "by-dev-rootcoord-dml";
     addPartition_err := fun _ _ _ => None;
     removePartition_err := fun _ _ => None;
     removeCollection_err := fun _ _ => None;
     loadSegment_err := fun _ _ => Some (ErrCollaborator "load failed");
     addFlowGraphs_err := fun _ _ _ => None;
     consumeFlowGraph_err := fun _ _ _ => None;
     consumeFlowGraphFromLatest_err := fun _ _ _ => None;
     seekQueryNodeFlowGraph_err := fun _ _ => None;
     FromDmlCPLoadDelete_err := fun _ _ => None;
     addQueryShard_err := fun _ _ _ => None;
     watchDMLTSafe_err := fun _ => None;
     watchDeltaTSafe_err := fun _ => None;
     rangeOrder := fun _ l => l;
     rangeOrder_perm := fun _ l => Permutation_refl l |}.

(** An environment whose flow-graph service fails to add flow-graphs. *)
Definition addFlowGraphsFailsEnv : Env :=
  {| ToPhysicalChannel := toPhysicalChannel;
     GenChannelSubName := fun prefix collectionID nodeID => prefix;
     ConvertChannelName := fun ch _ _ => inr ch;
     QueryNodeSubName := "by-dev-queryNode";
     GetNodeID := 1;
     RootCoordDelta := "by-dev-rootcoord-delta";
     RootCoordDml := "by-dev-rootcoord-dml";
     addPartition_err := fun _ _ _ => None;
     removePartition_err := fun _ _ => None;
     removeCollection_err := fun _ _ => None;
     loadSegment_err := fun _ _ => None;
     addFlowGraphs_err := fun _ _ _ => Some (ErrCollaborator "no flow graph");
     consumeFlowGraph_err := fun _ _ _ => None;
     consumeFlowGraphFromLatest_err := fun _ _ _ => None;
     seekQueryNodeFlowGraph_err := fun _ _ => None;
     FromDmlCPLoadDelete_err := fun _ _ => None;
     addQueryShard_err := fun _ _ _ => None;
     watchDMLTSafe_err := fun _ => None;
     watchDeltaTSafe_err := fun _ => None;
     rangeOrder := fun _ l => l;
     rangeOrder_perm := fun _ l => Permutation_refl l |}.

(** An environment in which replaying the deletes fails. *)
Definition loadDeleteFailsEnv : Env :=
  {| ToPhysicalChannel := toPhysicalChannel;
     GenChannelSubName := fun prefix collectionID nodeID => prefix;
     ConvertChannelName := fun ch _ _ => inr ch;
     QueryNodeSubName := "by-dev-queryNode";
     GetNodeID := 1;
     RootCoordDelta := "by-dev-rootcoord-delta";
     RootCoordDml := "by-dev-rootcoord-dml";
     addPartition_err := fun _ _ _ => None;
     removePartition_err := fun _ _ => None;
     removeCollection_err := fun _ _ => None;
     loadSegment_err := fun _ _ => None;
     addFlowGraphs_err := fun _ _ _ => None;
     consumeFlowGraph_err := fun _ _ _ => None;
     consumeFlowGraphFromLatest_err := fun _ _ _ => None;
     seekQueryNodeFlowGraph_err := fun _ _ => None;
     FromDmlCPLoadDelete_err := fun _ _ => Some (ErrCollaborator "load delete failed");
     addQueryShard_err := fun _ _ _ => None;
     watchDMLTSafe_err := fun _ => None;
     watchDeltaTSafe_err := fun _ => None;
     rangeOrder := fun _ l => l;
     rangeOrder_perm := fun _ l => Permutation_refl l |}.


(** WatchDeltaChannels on collection 100, which [loadedNode] holds. *)
Definition watchDelta100 : WatchDeltaChannelsRequest.t :=
  {| WatchDeltaChannelsRequest.Base := Some base1;
     WatchDeltaChannelsRequest.CollectionID := 100;
     WatchDeltaChannelsRequest.Infos := [deltaInfo "by-dev-rootcoord-delta_0"];
     WatchDeltaChannelsRequest.ReplicaId := 1 |}.

(** The scenario-1 request and its runs. *)
Definition watchDmScenario : WatchDmChannelsRequest.t :=
  watchDm100 (Some base1) [dmlInfo [] []].

(** ** Events of the runs that succeed

    [emitsOk P m]: in every run of [m] that returns a value, every event
    satisfies [P]. *)
Definition emitsOk {A} (P : Event -> Prop) (m : M A) : Prop :=
  forall n, (exists a, result (m n) = Ok a) -> Forall P (trace (m n)).

(** [ev] is one of the calls that register a collection, a shard cluster
    or a partition. *)
Definition isSetup (ev : Event) : Prop :=
  match ev with
  | EvAddCollection _ _ => True
  | EvAddShardCluster _ _ _ => True
  | EvAddPartition _ _ _ _ => True
  | _ => False
  end.

(** [sameButPartitions n n']: the nodes [n] and [n'] differ at most in the
    partitions their replicas hold. *)
Definition sameButPartitions (n n' : QueryNode) : Prop :=
  collections (streaming n') = collections (streaming n)
  /\ segments (streaming n') = segments (streaming n)
  /\ excludedSegments (streaming n') = excludedSegments (streaming n)
  /\ collections (historical n') = collections (historical n)
  /\ segments (historical n') = segments (historical n)
  /\ excludedSegments (historical n') = excludedSegments (historical n)
  /\ dmlChannel2FlowGraph n' = dmlChannel2FlowGraph n
  /\ deltaChannel2FlowGraph n' = deltaChannel2FlowGraph n
  /\ tSafes n' = tSafes n
  /\ queryShards n' = queryShards n
  /\ shardClusters n' = shardClusters n.

(** [setUp cid n n']: from [n] to [n'] collections, partitions and shard
    clusters were registered and nothing else has changed; both replicas
    of [n'] hold collection [cid], and a collection of [n] is still as it
    was. *)
Definition setUp (cid : UniqueID) (n n' : QueryNode) : Prop :=
  holdsCollection cid n'
  /\ (forall k id c, collections (replica k n) !! id = Some c ->
        collections (replica k n') !! id = Some c)
  /\ segments (streaming n') = segments (streaming n)
  /\ excludedSegments (streaming n') = excludedSegments (streaming n)
  /\ segments (historical n') = segments (historical n)
  /\ excludedSegments (historical n') = excludedSegments (historical n)
  /\ dmlChannel2FlowGraph n' = dmlChannel2FlowGraph n
  /\ deltaChannel2FlowGraph n' = deltaChannel2FlowGraph n
  /\ tSafes n' = tSafes n
  /\ queryShards n' = queryShards n.

(** The node after the metadata updates of lines 418-424. *)
Definition watchDmMetadata (env : Env) (req : WatchDmChannelsRequest.t) (n : QueryNode)
  : QueryNode :=
  let collectionID := WatchDmChannelsRequest.CollectionID req in
  final ((addVChannels Streaming collectionID (watchDmChannelsTask.vChannels req) ;;
          addPChannels Streaming collectionID (watchDmChannelsTask.pChannels env req) ;;
          setLoadType Streaming collectionID (watchDmChannelsTask.lType req) ;;
          addVChannels Historical collectionID (watchDmChannelsTask.vChannels req) ;;
          addPChannels Historical collectionID (watchDmChannelsTask.pChannels env req) ;;
          setLoadType Historical collectionID (watchDmChannelsTask.lType req)) n).

(** The excluded segments of collection [cid] after [infos] were added. *)
Definition excludedAfter (cid : UniqueID) (infos : list datapb.SegmentPtr)
  (ex : gmap Z (list datapb.SegmentPtr)) : gmap Z (list datapb.SegmentPtr) :=
  <[cid := default [] (ex !! cid) ++ infos]> ex.

(** [ev] is an addExcludedSegments call. *)
Definition isExclude (ev : Event) : Prop :=
  match ev with EvAddExcludedSegments _ _ _ => True | _ => False end.

(** The calls of one iteration of the loop of lines 381-401 in which
    nothing fails. *)
Definition attachCalls (env : Env) (req : WatchDmChannelsRequest.t)
  (seek : gmap string internalpb.MsgPosition)
  (consume : gmap string (option internalpb.MsgPosition))
  (entry : string * queryNodeFlowGraph) : list Event :=
  let '(channel, fg) := entry in
  (if bool_decide (is_Some (consume !! channel))
   then [EvConsumeFlowGraph (fgChannel fg)
           (default "" (watchDmChannelsTask.VPChannels env req !! channel))
           (watchDmChannelsTask.consumeSubName env req) None]
   else [])
  ++ match seek !! channel with
     | Some pos =>
         [EvSeekQueryNodeFlowGraph (fgChannel fg)
            (watchDmChannelsTask.withChannelName
               (default "" (watchDmChannelsTask.VPChannels env req !! channel))
               (watchDmChannelsTask.withMsgGroup
                  (watchDmChannelsTask.consumeSubName env req) pos)) None]
     | None => []
     end.

(** The trace of lines 316-455 when nothing fails: the three
    addExcludedSegments calls, the creation of the flow-graphs, the
    attaching, the metadata updates and tSafes, the query-shard calls
    [shardCalls], and the Start of every flow-graph. *)
Definition watchTrace (env : Env) (req : WatchDmChannelsRequest.t)
  (flushed dropped : list datapb.SegmentPtr) (shardCalls : list Event) : list Event :=
  let collectionID := WatchDmChannelsRequest.CollectionID req in
  let groups := watchDmChannelsTask.groupChannels (watchDmChannelsTask.consumeSubName env req)
                  (WatchDmChannelsRequest.Infos req) in
  let channel2FlowGraph :=
    newFlowGraphs DML collectionID (watchDmChannelsTask.vChannels req) in
  [EvAddExcludedSegments Streaming collectionID (watchDmChannelsTask.unFlushedCheckPointInfos req);
   EvAddExcludedSegments Streaming collectionID flushed;
   EvAddExcludedSegments Streaming collectionID dropped;
   EvAddFlowGraphs DML collectionID (watchDmChannelsTask.vChannels req) None]
  ++ (rangeMap env [3%nat] channel2FlowGraph ≫= attachCalls env req groups.1 groups.2)
  ++ watchDmUpdates env req
  ++ shardCalls
  ++ (EvFlowGraphStart DML <$> rangeKeys env [6%nat] channel2FlowGraph).

(** The node after lines 316-455 when nothing fails, the query shards
    apart. *)
Definition watched (env : Env) (req : WatchDmChannelsRequest.t)
  (flushed dropped : list datapb.SegmentPtr) (n : QueryNode) : QueryNode :=
  let collectionID := WatchDmChannelsRequest.CollectionID req in
  withTSafes (fun s => list_to_set (watchDmChannelsTask.vChannels req) ∪ s)
    (watchDmMetadata env req
       (withFlowGraphs DML
          (fun m => newFlowGraphs DML collectionID (watchDmChannelsTask.vChannels req) ∪ m)
          (withReplica Streaming
             (withExcluded (excludedAfter collectionID
                              (watchDmChannelsTask.unFlushedCheckPointInfos req
                               ++ flushed ++ dropped))) n))).

(** * Reasoning about executions *)

Section Executions.
Context {A B : Type}.

Lemma result_bind (m : M A) (f : A -> M B) n :
  result (bind m f n) =
  match result (m n) with
  | Ok a => result (f a (final (m n)))
  | Fail e => Fail e
  | Panic => Panic
  end.
Proof.
  unfold bind, result, final. destruct (m n) as [[[a|e|] n1] e1]; simpl; try done.
  by destruct (f a n1) as [[r n2] e2].
Qed.

Lemma final_bind (m : M A) (f : A -> M B) n :
  final (bind m f n) =
  match result (m n) with
  | Ok a => final (f a (final (m n)))
  | _ => final (m n)
  end.
Proof.
  unfold bind, result, final. destruct (m n) as [[[a|e|] n1] e1]; simpl; try done.
  by destruct (f a n1) as [[r n2] e2].
Qed.

Lemma trace_bind (m : M A) (f : A -> M B) n :
  trace (bind m f n) =
  match result (m n) with
  | Ok a => trace (m n) ++ trace (f a (final (m n)))
  | _ => trace (m n)
  end.
Proof.
  unfold bind, result, final, trace. destruct (m n) as [[[a|e|] n1] e1]; simpl; try done.
  by destruct (f a n1) as [[r n2] e2].
Qed.

Lemma run_eta (x : Res A * QueryNode * list Event) : x = (result x, final x, trace x).
Proof. by destruct x as [[r n] e]. Qed.

End Executions.

Section Emits.
Context (P : Event -> Prop).

Lemma emits_ret {A} (a : A) : emits P (ret a).
Proof. intros n. constructor. Qed.

Lemma emits_throw {A} e : emits P (@throw A e).
Proof. intros n. constructor. Qed.

Lemma emits_panic {A} : emits P (@panic A).
Proof. intros n. constructor. Qed.

Lemma emits_deref {A} (o : option A) : emits P (deref o).
Proof. destruct o; [apply emits_ret | apply emits_panic]. Qed.

Lemma emits_check err : emits P (check err).
Proof. destruct err; [apply emits_throw | apply emits_ret]. Qed.

Lemma emits_gets {A} (f : QueryNode -> A) : emits P (gets f).
Proof. intros n. constructor. Qed.

Lemma emits_call ev f : P ev -> emits P (call ev f).
Proof. intros H n. by repeat constructor. Qed.

Lemma emits_callE err ev f : P (ev err) -> emits P (callE err ev f).
Proof. intros H n. by repeat constructor. Qed.

Lemma emits_bind {A B} (m : M A) (f : A -> M B) :
  emits P m -> (forall a, emits P (f a)) -> emits P (bind m f).
Proof.
  intros Hm Hf n. rewrite trace_bind. specialize (Hm n).
  destruct (result (m n)); try done. apply Forall_app. split; [done | apply Hf].
Qed.

Lemma emits_forM_ {A} (l : list A) (f : A -> M unit) :
  (forall x, x ∈ l -> emits P (f x)) -> emits P (forM_ l f).
Proof.
  induction l as [|x l IH]; intros H; simpl; [apply emits_ret |].
  apply emits_bind; [apply H; left | intros _; apply IH].
  intros y Hy. apply H. by right.
Qed.

Lemma emits_defer {A} (d : Res A -> M unit) (m : M A) :
  emits P m -> (forall r, emits P (d r)) -> emits P (defer d m).
Proof.
  intros Hm Hd n. unfold defer. specialize (Hm n).
  destruct (m n) as [[r n1] e1] eqn:E. specialize (Hd r n1).
  destruct (d r n1) as [[r2 n2] e2]. unfold trace in *; simpl in *.
  apply Forall_app. by split.
Qed.

End Emits.

Section Preserves.
Context (I : QueryNode -> Prop).

Lemma preserves_ret {A} (a : A) : preserves I (ret a).
Proof. by intros n. Qed.

Lemma preserves_throw {A} e : preserves I (@throw A e).
Proof. by intros n. Qed.

Lemma preserves_panic {A} : preserves I (@panic A).
Proof. by intros n. Qed.

Lemma preserves_deref {A} (o : option A) : preserves I (deref o).
Proof. destruct o; [apply preserves_ret | apply preserves_panic]. Qed.

Lemma preserves_check err : preserves I (check err).
Proof. destruct err; [apply preserves_throw | apply preserves_ret]. Qed.

Lemma preserves_gets {A} (f : QueryNode -> A) : preserves I (gets f).
Proof. by intros n. Qed.

Lemma preserves_call ev f : (forall n, I n -> I (f n)) -> preserves I (call ev f).
Proof. intros H n Hn. by apply H. Qed.

Lemma preserves_callE err ev f : (forall n, I n -> I (f n)) -> preserves I (callE err ev f).
Proof. intros H n Hn. unfold callE, final; simpl. destruct err; [done | by apply H]. Qed.

Lemma preserves_bind {A B} (m : M A) (f : A -> M B) :
  preserves I m -> (forall a, preserves I (f a)) -> preserves I (bind m f).
Proof.
  intros Hm Hf n Hn. rewrite final_bind. specialize (Hm n Hn).
  destruct (result (m n)); try done. by apply Hf.
Qed.

Lemma preserves_forM_ {A} (l : list A) (f : A -> M unit) :
  (forall x, preserves I (f x)) -> preserves I (forM_ l f).
Proof.
  intros H. induction l as [|x l IH]; simpl; [apply preserves_ret |].
  apply preserves_bind; [apply H | intros _; apply IH].
Qed.

Lemma preserves_defer {A} (d : Res A -> M unit) (m : M A) :
  preserves I m -> (forall r, preserves I (d r)) -> preserves I (defer d m).
Proof.
  intros Hm Hd n Hn. unfold defer. specialize (Hm n Hn).
  destruct (m n) as [[r n1] e1] eqn:E. specialize (Hd r n1 Hm).
  by destruct (d r n1) as [[r2 n2] e2].
Qed.

End Preserves.

Section Succeeds.

Lemma succeeds_ret {A} (a : A) : succeeds (ret a).
Proof. intros n. by exists a. Qed.

Lemma succeeds_gets {A} (f : QueryNode -> A) : succeeds (gets f).
Proof. intros n. by exists (f n). Qed.

Lemma succeeds_call ev f : succeeds (call ev f).
Proof. intros n. by exists tt. Qed.

Lemma succeeds_callE err ev f : succeeds (callE err ev f).
Proof. intros n. by exists err. Qed.

Lemma succeeds_bind {A B} (m : M A) (f : A -> M B) :
  succeeds m -> (forall a, succeeds (f a)) -> succeeds (bind m f).
Proof.
  intros Hm Hf n. rewrite result_bind. destruct (Hm n) as [a ->]. apply Hf.
Qed.

Lemma succeeds_forM_ {A} (l : list A) (f : A -> M unit) :
  (forall x, succeeds (f x)) -> succeeds (forM_ l f).
Proof.
  intros H. induction l as [|x l IH]; simpl; [apply succeeds_ret |].
  apply succeeds_bind; [apply H | intros _; apply IH].
Qed.

Lemma succeeds_unit (m : M unit) n : succeeds m -> result (m n) = Ok tt.
Proof. intros H. destruct (H n) as [[] ->]. done. Qed.

End Succeeds.

Create HintDb emits discriminated.
#[export] Hint Resolve emits_ret emits_throw emits_panic emits_deref emits_check emits_gets : emits.

Create HintDb preserves discriminated.
#[export] Hint Resolve preserves_ret preserves_throw preserves_panic preserves_deref
  preserves_check preserves_gets : preserves.

Create HintDb succeeds discriminated.
#[export] Hint Resolve succeeds_ret succeeds_gets succeeds_call succeeds_callE : succeeds.

(** * ID assignment and timestamps *)

Section TaskIdentity.
Context {R : Type} `{Request R}.

(** C7 (as amended): for each of the six variants, OnEnqueue sets the ID
    to Base.MsgID when the request and its Base are present; otherwise it
    sets the ID to the draw of rand.Int63n(100000000000), a value in
    [0, 100000000000) that fits in 63 bits and may be zero. OnEnqueue
    always returns nil. *)
Theorem OnEnqueue_id (rand : Rand) (r : task.t R) :
  (task.OnEnqueue rand r).2 = None
  /\ task.req (task.OnEnqueue rand r).1 = task.req r
  /\ (forall q base, task.req r = Some q -> Base q = Some base ->
        task.ID (task.OnEnqueue rand r).1 = commonpb.MsgID base)
  /\ ((task.req r = None \/ exists q, task.req r = Some q /\ Base q = None) ->
        task.ID (task.OnEnqueue rand r).1 = Int63n rand 100000000000
        /\ 0 <= task.ID (task.OnEnqueue rand r).1 < 100000000000
        /\ task.ID (task.OnEnqueue rand r).1 < 2 ^ 63).
Proof.
  unfold task.OnEnqueue.
  pose proof (Int63n_range rand 100000000000 ltac:(lia)) as Hr.
  destruct (task.req r) as [q|] eqn:Er.
  - destruct (Base q) as [base|] eqn:Eb; simpl; rewrite ?Er.
    + split; [done |]. split; [done |]. split.
      * intros q' base' [= <-] Hb. congruence.
      * intros [? | (q' & [= <-] & Hb)]; congruence.
    + split; [done |]. split; [done |]. split.
      * intros q' base' [= <-] Hb. congruence.
      * intros _. split; [done | lia].
  - simpl. rewrite Er. split; [done |]. split; [done |]. split; [done |].
    intros _. split; [done | lia].
Qed.

(** C8 (as amended): for each of the six variants and every request,
    Timestamp returns Base.Timestamp when Base is non-nil and 0 when Base
    is nil; so it returns 0 exactly when Base is nil or Base.Timestamp is
    itself 0. *)
Theorem Timestamp_fallback (r : task.t R) (q : R) :
  task.req r = Some q ->
  (Base q = None -> task.Timestamp r = Ok 0)
  /\ (forall base, Base q = Some base -> task.Timestamp r = Ok (commonpb.Timestamp base))
  /\ (task.Timestamp r = Ok 0 <->
      Base q = None \/ exists base, Base q = Some base /\ commonpb.Timestamp base = 0).
Proof.
  intros Er. unfold task.Timestamp. rewrite Er.
  destruct (Base q) as [base|] eqn:Eb.
  - split; [done |]. split; [by intros ? [= <-] |]. split.
    + intros [= Ht]. right. by exists base.
    + intros [? | (b & [= <-] & Ht)]; [done | by rewrite Ht].
  - split; [done |]. split; [done |]. split; [by left | done].
Qed.

End TaskIdentity.

Lemma OnEnqueue_id_witness :
  task.ID (task.OnEnqueue zeroRand (releaseTask None)).1 = Int63n zeroRand 100000000000
  /\ task.ID (task.OnEnqueue zeroRand (releaseTask (Some base1))).1 = 42.
Proof.
  split.
  - apply (OnEnqueue_id zeroRand (releaseTask None)).
    right. exists (releaseCollection100 None). split; reflexivity.
  - apply (proj1 (proj2 (proj2 (OnEnqueue_id zeroRand (releaseTask (Some base1)))))
             (releaseCollection100 (Some base1)) base1); reflexivity.
Defined.

(** C7, as first stated, fails: with no Base and a draw of 0 the ID is 0. *)
Lemma OnEnqueue_id_may_be_zero :
  Base (releaseCollection100 None) = None
  /\ task.ID (task.OnEnqueue zeroRand (releaseTask None)).1 = 0.
Proof. split; reflexivity. Qed.

Lemma Timestamp_fallback_witness :
  task.Timestamp (releaseTask (Some base1)) = Ok 1000.
Proof.
  apply (proj1 (proj2 (Timestamp_fallback (releaseTask (Some base1))
                         (releaseCollection100 (Some base1)) eq_refl)) base1).
  reflexivity.
Defined.

(** C8, as first stated, fails: a non-nil Base whose timestamp is 0 also
    makes Timestamp return 0. *)
Lemma Timestamp_zero_with_base :
  Base (releaseCollection100 (Some baseAtZero)) <> None
  /\ task.Timestamp (releaseTask (Some baseAtZero)) = Ok 0.
Proof. split; [discriminate | reflexivity]. Qed.

(** Running a bind whose first computation is a single call. *)
Section Runs.
Context {A B : Type}.

Lemma bind_ret (a : A) (f : A -> M B) n : bind (ret a) f n = f a n.
Proof. unfold bind, ret. by destruct (f a n) as [[r n2] e2]. Qed.

Lemma bind_gets (g : QueryNode -> A) (f : A -> M B) n : bind (gets g) f n = f (g n) n.
Proof. unfold bind, gets. by destruct (f (g n) n) as [[r n2] e2]. Qed.

Lemma bind_throw e (f : A -> M B) n : bind (throw e) f n = (Fail e, n, []).
Proof. done. Qed.

Lemma bind_panic (f : A -> M B) n : bind panic f n = (Panic, n, []).
Proof. done. Qed.

Lemma bind_call ev g (f : unit -> M B) n :
  bind (call ev g) f n = emit [ev] (f tt (g n)).
Proof. unfold bind, call, emit. by destruct (f tt (g n)) as [[r n2] e2]. Qed.

Lemma bind_callE err ev g (f : option Error -> M B) n :
  bind (callE err ev g) f n
  = emit [ev err] (f err (match err with None => g n | Some _ => n end)).
Proof. unfold bind, callE, emit. simpl. by destruct (f err _) as [[r n2] e2]. Qed.

Lemma result_emit evs (x : Res A * QueryNode * list Event) : result (emit evs x) = result x.
Proof. done. Qed.

Lemma final_emit evs (x : Res A * QueryNode * list Event) : final (emit evs x) = final x.
Proof. done. Qed.

Lemma trace_emit evs (x : Res A * QueryNode * list Event) :
  trace (emit evs x) = evs ++ trace x.
Proof. done. Qed.

Lemma bind_assoc {C} (m : M A) (f : A -> M B) (g : B -> M C) n :
  bind (bind m f) g n = bind m (fun a => bind (f a) g) n.
Proof.
  unfold bind. destruct (m n) as [[[a|e|] n1] e1]; try done.
  destruct (f a n1) as [[[b|e|] n2] e2]; try done.
  destruct (g b n2) as [[r n3] e3]. by rewrite app_assoc.
Qed.

End Runs.

Create HintDb collab discriminated.
#[export] Hint Unfold addCollection onCollection addVChannels addPChannels addVDeltaChannels
  addPDeltaChannels setLoadType setReleaseTime addPartition removePartition removeCollection
  addExcludedSegments removeExcludedSegments removeSegment queryLock queryUnlock loadSegment
  FromDmlCPLoadDelete addShardCluster removeFlowGraphs consumeFlowGraph
  consumeFlowGraphFromLatest seekQueryNodeFlowGraph flowGraphClose flowGraphStart addTSafe
  removeTSafe hasQueryShard addQueryShard getQueryShard watchDMLTSafe watchDeltaTSafe
  queryShardService_releaseCollection sleep FreeOSMemory hasCollection getCollectionByID
  hasPartition addFlowGraphs : collab.

(** Descent through a task body down to its collaborator calls, whose
    events are then checked by computation. *)
Ltac emits_steps :=
  repeat first
    [ progress intros
    | solve [auto with emits]
    | apply emits_bind
    | apply emits_forM_
    | apply emits_defer
    | progress autounfold with collab
    | solve [apply emits_call; simpl; done]
    | solve [apply emits_callE; simpl; done]
    | match goal with
      | |- emits _ (match ?x with _ => _ end) => destruct x
      | |- emits _ (let '(_, _) := ?x in _) => destruct x
      end ].

(** * WatchDmChannels: the load type *)

Lemma asConsumer_emits (P : Event -> Prop) env req seek consume l :
  (forall ch p s e, P (EvConsumeFlowGraph ch p s e)) ->
  (forall ch pos e, P (EvSeekQueryNodeFlowGraph ch pos e)) ->
  emits P (watchDmChannelsTask.asConsumer env req seek consume l).
Proof.
  intros Hc Hs. induction l as [|[channel fg] l IH]; simpl; [apply emits_ret |].
  emits_steps; solve [apply emits_callE; auto].
Qed.

(** C5: with an unknown load type in LoadMeta, the load type Execute
    works with is LoadPartition exactly when the request's partition-id
    list is non-empty and LoadCollection exactly when it is empty; a known
    load type is kept. That value is the one every setLoadType call of
    Execute passes on. *)
Theorem lType_effective (req : WatchDmChannelsRequest.t) :
  (querypb.GetLoadType (WatchDmChannelsRequest.LoadMeta req) = querypb.LoadType_UnKnownType ->
     (watchDmChannelsTask.lType req = querypb.LoadType_LoadPartition
        <-> WatchDmChannelsRequest.PartitionIDs req <> [])
     /\ (watchDmChannelsTask.lType req = querypb.LoadType_LoadCollection
        <-> WatchDmChannelsRequest.PartitionIDs req = []))
  /\ (querypb.GetLoadType (WatchDmChannelsRequest.LoadMeta req) <> querypb.LoadType_UnKnownType ->
     watchDmChannelsTask.lType req = querypb.GetLoadType (WatchDmChannelsRequest.LoadMeta req))
  /\ (forall env, emits (setsLoadType (watchDmChannelsTask.lType req))
                    (watchDmChannelsTask.Execute env req)).
Proof.
  split; [| split].
  - unfold watchDmChannelsTask.lType. intros ->.
    destruct (WatchDmChannelsRequest.PartitionIDs req); simpl; split; split; done.
  - unfold watchDmChannelsTask.lType.
    by destruct (querypb.GetLoadType (WatchDmChannelsRequest.LoadMeta req)).
  - intros env. unfold watchDmChannelsTask.Execute, watchDmChannelsTask.prepare,
      watchDmChannelsTask.watch, watchDmChannelsTask.addPartitions,
      watchDmChannelsTask.removeGrowing, watchDmChannelsTask.addCheckPoints,
      watchDmChannelsTask.rollback, watchDmChannelsTask.finish,
      watchDmChannelsTask.watchShard.
    emits_steps; try (apply asConsumer_emits; done).
Qed.

Lemma lType_effective_witness :
  watchDmChannelsTask.lType (watchDmUnknown [3]) = querypb.LoadType_LoadPartition
  /\ watchDmChannelsTask.lType (watchDmUnknown []) = querypb.LoadType_LoadCollection
  /\ watchDmChannelsTask.lType (watchDm100 None []) = querypb.LoadType_LoadCollection.
Proof.
  split; [| split].
  - apply (proj1 (lType_effective (watchDmUnknown [3]))); [reflexivity | discriminate].
  - apply (proj1 (lType_effective (watchDmUnknown []))); reflexivity.
  - apply (proj1 (proj2 (lType_effective (watchDm100 None [])))). discriminate.
Defined.

(** * Channel names: the length check *)

Lemma size_list_to_set_le (l : list string) : (size (list_to_set l : gset string) <= length l)%nat.
Proof.
  induction l as [|x l IH]; [done |].
  cbn [list_to_set length].
  destruct (decide (x ∈ (list_to_set l : gset string))) as [Hx|Hx].
  - replace ({[x]} ∪ list_to_set l : gset string) with (list_to_set l : gset string)
      by set_solver. lia.
  - rewrite size_union by set_solver. rewrite size_singleton. lia.
Qed.

Lemma size_list_to_set_NoDup (l : list string) :
  size (list_to_set l : gset string) = length l <-> NoDup l.
Proof.
  split; [| apply size_list_to_set].
  induction l as [|x l IH]; [constructor |]. cbn [list_to_set length].
  intros Hs. destruct (decide (x ∈ (list_to_set l : gset string))) as [Hx|Hx].
  - replace ({[x]} ∪ list_to_set l : gset string) with (list_to_set l : gset string) in Hs
      by set_solver.
    pose proof (size_list_to_set_le l). lia.
  - rewrite size_union, size_singleton in Hs by set_solver.
    constructor; [set_solver | apply IH; lia].
Qed.

Lemma dom_foldl_insert {X V} (key : X -> string) (val : X -> V) (l : list X) (m : gmap string V) :
  dom (foldl (fun m x => <[key x := val x]> m) m l) = list_to_set (key <$> l) ∪ dom m.
Proof.
  revert m. induction l as [|x l IH]; intros m; simpl; [set_solver |].
  rewrite IH, dom_insert_L. set_solver.
Qed.

Lemma size_foldl_insert {X V} (key : X -> string) (val : X -> V) (l : list X) :
  size (foldl (fun m x => <[key x := val x]> m) (∅ : gmap string V) l) = length (key <$> l)
  <-> NoDup (key <$> l).
Proof.
  rewrite <- size_dom, dom_foldl_insert, dom_empty_L, (right_id_L ∅ (∪)).
  apply size_list_to_set_NoDup.
Qed.

Lemma watchDm_length_check env req :
  negb (size (watchDmChannelsTask.VPChannels env req)
          =? length (watchDmChannelsTask.vChannels req))%nat = false
  <-> NoDup (watchDmChannelsTask.vChannels req).
Proof.
  rewrite negb_false_iff, Nat.eqb_eq. apply size_foldl_insert.
Qed.

Lemma watchDelta_length_check env req :
  negb (size (watchDeltaChannelsTask.VPDeltaChannels env req)
          =? length (watchDeltaChannelsTask.vDeltaChannels req))%nat = false
  <-> NoDup (watchDeltaChannelsTask.vDeltaChannels req).
Proof.
  rewrite negb_false_iff, Nat.eqb_eq. apply size_foldl_insert.
Qed.

(** * WatchDeltaChannels on an unknown collection *)

(** C4 (as amended): when the collection is absent from the historical
    or from the streaming replica, Execute fails and changes nothing in
    the node and calls no collaborator; the error is "cannot find
    collection" when the request's channel names are pairwise distinct,
    and the "illegal channel length" error of the earlier check when two
    of them are equal. *)
Theorem WatchDelta_unknown_collection env (req : WatchDeltaChannelsRequest.t) n :
  collections (historical n) !! WatchDeltaChannelsRequest.CollectionID req = None
  \/ collections (streaming n) !! WatchDeltaChannelsRequest.CollectionID req = None ->
  (NoDup (watchDeltaChannelsTask.vDeltaChannels req) ->
     watchDeltaChannelsTask.Execute env req n =
       (Fail (ErrCannotFindCollection (WatchDeltaChannelsRequest.CollectionID req)), n, []))
  /\ (~ NoDup (watchDeltaChannelsTask.vDeltaChannels req) ->
     watchDeltaChannelsTask.Execute env req n =
       (Fail (ErrIllegalChannelLength (WatchDeltaChannelsRequest.CollectionID req)), n, [])).
Proof.
  intros Habsent. unfold watchDeltaChannelsTask.Execute. split; intros Hd.
  - apply (proj2 (watchDelta_length_check env req)) in Hd. rewrite Hd.
    unfold hasCollection, getCollectionByID. rewrite bind_gets. simpl.
    destruct (collections (historical n) !! WatchDeltaChannelsRequest.CollectionID req)
      as [hCol|] eqn:Eh; simpl; [| done].
    destruct Habsent as [? | Es]; [done |].
    rewrite bind_gets, Eh. simpl. rewrite bind_ret, bind_gets. simpl. by rewrite Es.
  - destruct (negb _) eqn:E; [done |]. by apply (proj1 (watchDelta_length_check env req)) in E.
Qed.

Lemma WatchDelta_unknown_collection_witness :
  watchDeltaChannelsTask.Execute quietEnv (watchDelta200 [deltaInfo "by-dev-rootcoord-delta_0"])
    emptyNode = (Fail (ErrCannotFindCollection 200), emptyNode, []).
Proof.
  apply (proj1 (WatchDelta_unknown_collection quietEnv
                  (watchDelta200 [deltaInfo "by-dev-rootcoord-delta_0"]) emptyNode
                  (or_introl eq_refl))).
  apply (bool_decide_unpack _). vm_compute. exact I.
Defined.

(** C4, as first stated, fails: a request that names a channel twice is
    turned down by the length check, before the collection is looked up. *)
Lemma WatchDelta_duplicate_channel_error :
  collections (historical emptyNode) !! 200 = None
  /\ watchDeltaChannelsTask.Execute quietEnv
       (watchDelta200 [deltaInfo "by-dev-rootcoord-delta_0"; deltaInfo "by-dev-rootcoord-delta_0"])
       emptyNode
     = (Fail (ErrIllegalChannelLength 200), emptyNode, []).
Proof. split; [reflexivity | vm_compute; reflexivity]. Qed.

(** * WatchDmChannels: dropped segments without a position *)

(** C3: the flushed-segment loop guards the position
    ([flushedSegment.DmlPosition != nil]); the dropped-segment loop guards
    the segment instead and then reads through its DmlPosition. A dropped
    segment without DmlPosition therefore makes Execute panic as soon as
    one channel seeks, where the same segment listed as flushed is
    skipped and Execute succeeds. *)
Theorem dropped_without_position_panics :
  (forall s position, datapb.DmlPosition s = None ->
     watchDmChannelsTask.droppedCond (Some s) position = None
     /\ watchDmChannelsTask.flushedCond (Some s) position = Some false)
  /\ (forall s dml position, datapb.DmlPosition s = Some dml ->
     watchDmChannelsTask.droppedCond (Some s) position
     = watchDmChannelsTask.flushedCond (Some s) position)
  /\ result (watchDmChannelsTask.Execute quietEnv
               (watchDm100 (Some base1) [dmlInfo [] [Some segment8]]) emptyNode) = Panic
  /\ result (watchDmChannelsTask.Execute quietEnv
               (watchDm100 (Some base1) [dmlInfo [Some segment8] []]) emptyNode) = Ok tt.
Proof.
  split; [| split; [| split]].
  - intros s position Hs. unfold watchDmChannelsTask.droppedCond,
      watchDmChannelsTask.flushedCond. by rewrite Hs.
  - intros s dml position Hs. unfold watchDmChannelsTask.droppedCond,
      watchDmChannelsTask.flushedCond. by rewrite Hs.
  - vm_compute. reflexivity.
  - vm_compute. reflexivity.
Qed.

Lemma dropped_without_position_panics_witness :
  watchDmChannelsTask.droppedCond (Some segment8) seek500 = None
  /\ watchDmChannelsTask.flushedCond (Some segment8) seek500 = Some false.
Proof.
  apply (proj1 dropped_without_position_panics segment8 seek500). reflexivity.
Defined.

(** * Execute with a nil Base *)

Lemma addShardClusters_succeeds cid rid l : succeeds (forM_ l (addShardCluster cid rid)).
Proof. apply succeeds_forM_. intros x. apply succeeds_call. Qed.

Lemma watchDm_nil_Base_panics env (req : WatchDmChannelsRequest.t) n :
  WatchDmChannelsRequest.Base req = None ->
  NoDup (watchDmChannelsTask.vChannels req) ->
  result (watchDmChannelsTask.Execute env req n) = Panic.
Proof.
  intros Hb Hd. unfold watchDmChannelsTask.Execute. rewrite result_bind.
  assert (result (watchDmChannelsTask.prepare env req n) = Panic) as ->; [| done].
  unfold watchDmChannelsTask.prepare.
  rewrite (proj2 (watchDm_length_check env req) Hd).
  destruct (WatchDmChannelsRequest.Schema req) as [sch|]; [| done].
  simpl deref. rewrite bind_ret. unfold addCollection. rewrite !bind_call, !result_emit.
  rewrite result_bind, (succeeds_unit _ _ (addShardClusters_succeeds _ _ _)).
  rewrite result_bind.
  destruct (watchDmChannelsTask.unFlushedSegments req) as [segs|]; [| done].
  simpl. by rewrite Hb.
Qed.

Lemma watchDm_duplicate_channels env (req : WatchDmChannelsRequest.t) n :
  ~ NoDup (watchDmChannelsTask.vChannels req) ->
  watchDmChannelsTask.Execute env req n
  = (Fail (ErrIllegalChannelLength (WatchDmChannelsRequest.CollectionID req)), n, []).
Proof.
  intros Hd. unfold watchDmChannelsTask.Execute, watchDmChannelsTask.prepare.
  destruct (negb _) eqn:E; [done |]. by apply (proj1 (watchDm_length_check env req)) in E.
Qed.

Lemma releaseReplica_nil_Base_panics env (req : ReleaseCollectionRequest.t) k ty n :
  ReleaseCollectionRequest.Base req = None ->
  is_Some (collections (replica k n) !! ReleaseCollectionRequest.CollectionID req) ->
  releaseCollectionTask.releaseReplica env req k ty n = (Panic, n, [EvQueryLock k]).
Proof.
  intros Hb [c Hc]. unfold releaseCollectionTask.releaseReplica, queryLock, getCollectionByID.
  rewrite bind_call, bind_gets, Hc, Hb. done.
Qed.

Lemma releaseReplica_not_found env (req : ReleaseCollectionRequest.t) k ty n :
  collections (replica k n) !! ReleaseCollectionRequest.CollectionID req = None ->
  releaseCollectionTask.releaseReplica env req k ty n
  = (Ok (Some (ErrCollectionNotExist (ReleaseCollectionRequest.CollectionID req))), n,
     [EvQueryLock k; EvQueryUnlock k]).
Proof.
  intros Hc. unfold releaseCollectionTask.releaseReplica, queryLock, getCollectionByID.
  rewrite bind_call, bind_gets, Hc. done.
Qed.

(** C10 (as amended): none of the three Execute paths guards its read of
    req.Base, so with a nil Base each one panics once it reaches that
    read: loadSegmentsTask.Execute at its first statement, for every
    request; watchDmChannelsTask.Execute whenever the channel names are
    pairwise distinct (with a repeated name it returns the length-check
    error first); releaseReplica whenever the collection is in the
    replica (when it is not, it unlocks and returns the lookup error).
    Timestamp and OnEnqueue of the same tasks accept a nil Base. *)
Theorem Execute_nil_Base env n :
  (forall req : LoadSegmentsRequest.t, LoadSegmentsRequest.Base req = None ->
     loadSegmentsTask.Execute env req n = (Panic, n, []))
  /\ (forall req : WatchDmChannelsRequest.t, WatchDmChannelsRequest.Base req = None ->
     (NoDup (watchDmChannelsTask.vChannels req) ->
        result (watchDmChannelsTask.Execute env req n) = Panic)
     /\ (~ NoDup (watchDmChannelsTask.vChannels req) ->
        watchDmChannelsTask.Execute env req n
        = (Fail (ErrIllegalChannelLength (WatchDmChannelsRequest.CollectionID req)), n, [])))
  /\ (forall (req : ReleaseCollectionRequest.t) k ty, ReleaseCollectionRequest.Base req = None ->
     (is_Some (collections (replica k n) !! ReleaseCollectionRequest.CollectionID req) ->
        releaseCollectionTask.releaseReplica env req k ty n = (Panic, n, [EvQueryLock k]))
     /\ (collections (replica k n) !! ReleaseCollectionRequest.CollectionID req = None ->
        releaseCollectionTask.releaseReplica env req k ty n
        = (Ok (Some (ErrCollectionNotExist (ReleaseCollectionRequest.CollectionID req))), n,
           [EvQueryLock k; EvQueryUnlock k])))
  /\ (forall R `(Request R) rand (r : task.t R) q, task.req r = Some q -> Base q = None ->
     task.Timestamp r = Ok 0 /\ (task.OnEnqueue rand r).2 = None).
Proof.
  split; [| split; [| split]].
  - intros req Hb. unfold loadSegmentsTask.Execute. by rewrite Hb.
  - intros req Hb. split.
    + by apply watchDm_nil_Base_panics.
    + apply watchDm_duplicate_channels.
  - intros req k ty Hb. split.
    + by apply releaseReplica_nil_Base_panics.
    + apply releaseReplica_not_found.
  - intros R HR rand r q Hq Hb. split.
    + unfold task.Timestamp. by rewrite Hq, Hb.
    + unfold task.OnEnqueue. by rewrite Hq, Hb.
Qed.

Lemma Execute_nil_Base_witness :
  loadSegmentsTask.Execute quietEnv (loadSegments300 None) emptyNode = (Panic, emptyNode, [])
  /\ result (watchDmChannelsTask.Execute quietEnv (watchDm100 None [dmlInfo [] []]) emptyNode)
     = Panic.
Proof.
  split.
  - apply (proj1 (Execute_nil_Base quietEnv emptyNode) (loadSegments300 None)). reflexivity.
  - apply (proj1 (proj2 (Execute_nil_Base quietEnv emptyNode))
             (watchDm100 None [dmlInfo [] []]) eq_refl).
    apply (bool_decide_unpack _). vm_compute. exact I.
Defined.

(** C10, as first stated, fails: with a nil Base, WatchDmChannels on a
    request that names a channel twice, and ReleaseCollection on a
    collection the node does not hold, return an ordinary error. *)
Lemma nil_Base_returns_error :
  WatchDmChannelsRequest.Base (watchDm100 None [dmlInfo [] []; dmlInfo [] []]) = None
  /\ watchDmChannelsTask.Execute quietEnv (watchDm100 None [dmlInfo [] []; dmlInfo [] []])
       emptyNode
     = (Fail (ErrIllegalChannelLength 100), emptyNode, [])
  /\ ReleaseCollectionRequest.Base (releaseCollection100 None) = None
  /\ result (releaseCollectionTask.Execute quietEnv (releaseCollection100 None) emptyNode)
     = Fail (ErrReleaseCollectionFailed 100 (ErrCollectionNotExist 100)).
Proof. repeat split; vm_compute; reflexivity. Qed.

(** * ReleasePartitions *)

Lemma releasePartition_succeeds env id : succeeds (releasePartitionsTask.releasePartition env id).
Proof.
  unfold releasePartitionsTask.releasePartition, hasPartition, removePartition.
  repeat first
    [ progress intros | solve [auto with succeeds] | apply succeeds_bind
    | match goal with |- succeeds (if ?b then _ else _) => destruct b end ].
Qed.

(** One iteration, run: the partition is removed from a replica when it
    is registered there and the removal does not fail. *)
Lemma releasePartition_run env id n :
  let b1 := bool_decide (is_Some (partitions (historical n) !! id)) in
  let n1 := if b1 then
              match removePartition_err env Historical id with
              | None => withReplica Historical (withPartitions (delete id)) n
              | Some _ => n
              end
            else n in
  let b2 := bool_decide (is_Some (partitions (streaming n1) !! id)) in
  let n2 := if b2 then
              match removePartition_err env Streaming id with
              | None => withReplica Streaming (withPartitions (delete id)) n1
              | Some _ => n1
              end
            else n1 in
  releasePartitionsTask.releasePartition env id n
  = (Ok tt, n2,
     (if b1 then [EvRemovePartition Historical id (removePartition_err env Historical id)]
      else [])
     ++ (if b2 then [EvRemovePartition Streaming id (removePartition_err env Streaming id)]
         else [])).
Proof.
  intros b1 n1 b2 n2.
  unfold releasePartitionsTask.releasePartition, hasPartition, removePartition.
  rewrite bind_gets. simpl replica. fold b1.
  assert (forall k (f : unit -> M unit) (b : bool) n0,
    bind (if b then bind (callE (removePartition_err env k id) (EvRemovePartition k id)
                            (withReplica k (withPartitions (delete id))))
                         (fun _ => ret tt)
          else ret tt) f n0
    = let x := f tt (if b then match removePartition_err env k id with
                               | None => withReplica k (withPartitions (delete id)) n0
                               | Some _ => n0 end else n0) in
      (result x, final x,
       (if b then [EvRemovePartition k id (removePartition_err env k id)] else [])
       ++ trace x)) as Hwhen.
  { intros k f b n0. destruct b.
    - rewrite bind_assoc, bind_callE. simpl. by rewrite bind_ret.
    - rewrite bind_ret. simpl. apply run_eta. }
  rewrite Hwhen. fold n1. rewrite bind_gets. simpl replica. fold b2.
  unfold bind, callE, ret. destruct b2; simpl; by rewrite ?app_nil_r.
Qed.

Lemma releasePartition_absent env id k pid n :
  partitions (replica k n) !! pid = None ->
  partitions (replica k (final (releasePartitionsTask.releasePartition env id n))) !! pid = None.
Proof.
  intros Hn. rewrite releasePartition_run. unfold final. simpl.
  repeat match goal with
         | |- context [if ?b then _ else _] => destruct b
         | |- context [match ?e with Some _ => _ | None => _ end] => destruct e
         end;
  destruct k; simpl; try done;
  (destruct (decide (id = pid)) as [->|]; [apply lookup_delete_eq | by rewrite lookup_delete_ne]).
Qed.

Lemma releasePartition_skips env id k pid n :
  partitions (replica k n) !! pid = None ->
  Forall (notRemovePartition k pid) (trace (releasePartitionsTask.releasePartition env id n)).
Proof.
  intros Hn. rewrite releasePartition_run. unfold trace. simpl.
  destruct (decide (id = pid)) as [->|Hne].
  - apply Forall_app. split.
    + destruct (bool_decide _) eqn:E1; [| constructor].
      constructor; [| constructor]. simpl. intros [? _]; subst k.
      apply bool_decide_eq_true in E1. simpl in Hn. rewrite Hn in E1. by destruct E1.
    + destruct (bool_decide (is_Some (partitions (streaming _) !! pid))) eqn:E2; [| constructor].
      constructor; [| constructor]. simpl. intros [? _]; subst k.
      apply bool_decide_eq_true in E2. simpl in Hn.
      destruct (bool_decide _) in E2; [destruct (removePartition_err env Historical pid) in E2 |];
        simpl in E2; rewrite Hn in E2; by destruct E2.
  - apply Forall_app. split; destruct (bool_decide _); repeat constructor; simpl; naive_solver.
Qed.

Lemma releasePartitions_skip env k pid l n :
  partitions (replica k n) !! pid = None ->
  Forall (notRemovePartition k pid)
    (trace (forM_ l (releasePartitionsTask.releasePartition env) n)).
Proof.
  revert n. induction l as [|id l IH]; intros n Hn; simpl; [constructor |].
  rewrite trace_bind.
  rewrite (succeeds_unit _ n (releasePartition_succeeds env id)).
  apply Forall_app. split; [by apply releasePartition_skips |].
  apply IH. by apply releasePartition_absent.
Qed.

Lemma releasePartitions_succeeds env l :
  succeeds (forM_ l (releasePartitionsTask.releasePartition env)).
Proof. apply succeeds_forM_, releasePartition_succeeds. Qed.

Lemma releasePartitions_absent env k pid l n :
  partitions (replica k n) !! pid = None ->
  partitions (replica k (final (forM_ l (releasePartitionsTask.releasePartition env) n))) !! pid
  = None.
Proof.
  revert n. induction l as [|id l IH]; intros n Hn; simpl; [done |].
  rewrite final_bind, (succeeds_unit _ n (releasePartition_succeeds env id)).
  apply IH. by apply releasePartition_absent.
Qed.

Lemma releasePartition_removes env k id n :
  removePartition_err env k id = None ->
  partitions (replica k (final (releasePartitionsTask.releasePartition env id n))) !! id = None.
Proof.
  intros Herr. rewrite releasePartition_run. unfold final. simpl.
  destruct k; simpl; rewrite ?Herr;
  repeat match goal with
         | |- context [if ?b then _ else _] => destruct b eqn:?
         | |- context [match ?e with Some _ => _ | None => _ end] => destruct e eqn:?
         end;
  simpl; try apply lookup_delete_eq;
  repeat match goal with
         | H : bool_decide _ = false |- _ =>
             apply bool_decide_eq_false in H; apply eq_None_not_Some in H
         end;
  simpl in *; done.
Qed.

Lemma releasePartitions_remove env k pid l n :
  pid ∈ l -> removePartition_err env k pid = None ->
  partitions (replica k (final (forM_ l (releasePartitionsTask.releasePartition env) n))) !! pid
  = None.
Proof.
  intros Hin Herr. revert n. induction l as [|id l IH]; intros n; [by apply elem_of_nil in Hin |].
  simpl. rewrite final_bind, (succeeds_unit _ n (releasePartition_succeeds env id)).
  apply elem_of_cons in Hin as [<- | Hin].
  - apply releasePartitions_absent. by apply releasePartition_removes.
  - by apply IH.
Qed.

(** C6: Execute fails, having changed nothing, when the collection is
    absent from the historical or from the streaming replica. Otherwise
    it succeeds for every list of partition ids and whatever the replicas
    answer to the removals: a partition id that a replica does not hold
    is not removed from it, and every listed partition whose removal did
    not fail is gone at the end, also when an earlier removal failed. *)
Theorem ReleasePartitions_best_effort env (req : ReleasePartitionsRequest.t) n :
  (collections (historical n) !! ReleasePartitionsRequest.CollectionID req = None
   \/ collections (streaming n) !! ReleasePartitionsRequest.CollectionID req = None ->
     releasePartitionsTask.Execute env req n
     = (Fail (ErrReleasePartitionsFailed (ReleasePartitionsRequest.CollectionID req)
                (ErrCollectionNotExist (ReleasePartitionsRequest.CollectionID req))),
        n, [EvSleep 1]))
  /\ (is_Some (collections (historical n) !! ReleasePartitionsRequest.CollectionID req)
      /\ is_Some (collections (streaming n) !! ReleasePartitionsRequest.CollectionID req) ->
     result (releasePartitionsTask.Execute env req n) = Ok tt
     /\ (forall k pid, partitions (replica k n) !! pid = None ->
           Forall (notRemovePartition k pid) (trace (releasePartitionsTask.Execute env req n)))
     /\ (forall k pid, pid ∈ ReleasePartitionsRequest.PartitionIDs req ->
           removePartition_err env k pid = None ->
           partitions (replica k (final (releasePartitionsTask.Execute env req n))) !! pid = None)).
Proof.
  unfold releasePartitionsTask.Execute, sleep, getCollectionByID. split.
  - intros Habsent. rewrite bind_call, bind_gets. simpl.
    destruct (collections (historical n) !! ReleasePartitionsRequest.CollectionID req)
      as [hCol|] eqn:Eh; simpl; [| done].
    destruct Habsent as [? | Es]; [done |]. rewrite bind_gets. simpl. by rewrite Es.
  - intros [[hCol Eh] [sCol Es]]. rewrite bind_call, bind_gets. simpl. rewrite Eh. simpl.
    rewrite bind_gets. simpl. rewrite Es. simpl. split; [| split].
    + apply succeeds_unit, releasePartitions_succeeds.
    + intros k pid Hn. constructor; [done |]. by apply releasePartitions_skip.
    + intros k pid Hin Herr. by apply releasePartitions_remove.
Qed.

Lemma ReleasePartitions_best_effort_witness :
  result (releasePartitionsTask.Execute keepsPartition1Env (releasePartitions100 [1; 2; 9])
            loadedNode) = Ok tt
  /\ releasePartitionsTask.Execute quietEnv (releasePartitions100 [1]) emptyNode
     = (Fail (ErrReleasePartitionsFailed 100 (ErrCollectionNotExist 100)), emptyNode,
        [EvSleep 1]).
Proof.
  split.
  - apply (proj2 (ReleasePartitions_best_effort keepsPartition1Env
                    (releasePartitions100 [1; 2; 9]) loadedNode)).
    split; apply (bool_decide_unpack _); vm_compute; exact I.
  - apply (proj1 (ReleasePartitions_best_effort quietEnv (releasePartitions100 [1]) emptyNode)).
    left. reflexivity.
Defined.

(** * ReleaseCollection *)

Lemma removeTSafes_run l n :
  forM_ l removeTSafe n
  = (Ok tt, withTSafes (fun s => s ∖ list_to_set l) n, EvRemoveTSafe <$> l).
Proof.
  revert n. induction l as [|ch l IH]; intros n; simpl.
  - unfold ret. do 2 f_equal. destruct n; unfold withTSafes; simpl. f_equal. set_solver.
  - unfold removeTSafe. rewrite bind_call, IH. unfold emit, result, final, trace; simpl.
    do 2 f_equal. unfold withTSafes; simpl. f_equal. set_solver.
Qed.

Lemma releaseReplica_run env (req : ReleaseCollectionRequest.t) k ty n c base :
  collections (replica k n) !! ReleaseCollectionRequest.CollectionID req = Some c ->
  ReleaseCollectionRequest.Base req = Some base ->
  let cid := ReleaseCollectionRequest.CollectionID req in
  let err := removeCollection_err env k cid in
  releaseCollectionTask.releaseReplica env req k ty n
  = (Ok err, released k ty cid (commonpb.Timestamp base) c err n,
     releaseTrace k ty cid (commonpb.Timestamp base) c err).
Proof.
  intros Hc Hb cid err.
  unfold releaseCollectionTask.releaseReplica, queryLock, getCollectionByID, setReleaseTime,
    onCollection, queryUnlock, removeExcludedSegments, removeCollection, removeFlowGraphs.
  rewrite bind_call, bind_gets, Hc, Hb. simpl deref. rewrite !bind_ret, !bind_call.
  assert (forall (f : list Channel -> M (option Error)) n0,
    bind match ty with
         | replicaStreaming =>
             bind (call (EvRemoveFlowGraphs DML (Collection.vChannels c))
                     (withFlowGraphs DML (fun m => foldr delete m (Collection.vChannels c))))
                  (fun _ => ret (Collection.vChannels c))
         | _ =>
             bind (call (EvRemoveFlowGraphs Delta (Collection.vDeltaChannels c))
                     (withFlowGraphs Delta (fun m => foldr delete m (Collection.vDeltaChannels c))))
                  (fun _ => ret (Collection.vDeltaChannels c))
         end f n0
    = bind (call (EvRemoveFlowGraphs (releasedKind ty) (releasedChannels ty c))
              (withFlowGraphs (releasedKind ty)
                 (fun m => foldr delete m (releasedChannels ty c))))
           (fun _ => f (releasedChannels ty c)) n0) as ->.
  { intros f n0. destruct ty; simpl; rewrite bind_assoc, !bind_call, bind_ret; done. }
  rewrite bind_call. unfold bind at 1. rewrite removeTSafes_run.
  unfold call, callE, bind, result, final, trace, released, releaseTrace. simpl.
  fold cid. fold err. by destruct err.
Qed.

Lemma foldr_delete_lookup {V} (l : list string) (m : gmap string V) ch :
  foldr delete m l !! ch = if bool_decide (ch ∈ l) then None else m !! ch.
Proof.
  induction l as [|x l IH]; simpl; [done |].
  destruct (decide (x = ch)) as [->|Hne].
  - rewrite lookup_delete_eq. rewrite bool_decide_eq_true_2; [done | left].
  - rewrite lookup_delete_ne by done. rewrite IH.
    destruct (decide (ch ∈ l)) as [Hin|Hin].
    + rewrite !bool_decide_eq_true_2; [done | by right | done].
    + rewrite !bool_decide_eq_false_2; [done | | done].
      intros [?|?]%elem_of_cons; congruence.
Qed.

Lemma bind_run {A B} (m : M A) (f : A -> M B) n a n1 e1 :
  m n = (Ok a, n1, e1) -> bind m f n = emit e1 (f a n1).
Proof. intros Hm. unfold bind, emit. rewrite Hm. by destruct (f a n1) as [[r n2] e2]. Qed.

Lemma bind_run_panic {A B} (m : M A) (f : A -> M B) n n1 e1 :
  m n = (Panic, n1, e1) -> bind m f n = (Panic, n1, e1).
Proof. intros Hm. unfold bind. by rewrite Hm. Qed.

Lemma emit_pair {A} evs (r : Res A) n e : emit evs (r, n, e) = (r, n, evs ++ e).
Proof. done. Qed.

(** The run of a release that goes through: what Execute returns when
    the collection is in both replicas and Base is present. *)
Lemma ReleaseCollection_run env (req : ReleaseCollectionRequest.t) n sCol hCol base :
  collections (streaming n) !! ReleaseCollectionRequest.CollectionID req = Some sCol ->
  collections (historical n) !! ReleaseCollectionRequest.CollectionID req = Some hCol ->
  ReleaseCollectionRequest.Base req = Some base ->
  let cid := ReleaseCollectionRequest.CollectionID req in
  let ts := commonpb.Timestamp base in
  let errS := removeCollection_err env Streaming cid in
  let errH := removeCollection_err env Historical cid in
  let n1 := released Streaming replicaStreaming cid ts sCol errS n in
  let n2 := released Historical replicaHistorical cid ts hCol errH n1 in
  releaseCollectionTask.Execute env req n
  = match errS, errH with
    | Some e, _ =>
        (Fail (ErrReleaseCollectionFailed cid e), n1,
         [EvSleep 1] ++ releaseTrace Streaming replicaStreaming cid ts sCol errS)
    | None, Some e =>
        (Fail (ErrReleaseCollectionFailed cid e), n2,
         [EvSleep 1] ++ releaseTrace Streaming replicaStreaming cid ts sCol errS
         ++ releaseTrace Historical replicaHistorical cid ts hCol errH)
    | None, None =>
        (Ok tt, withQueryShards (filter (fun kv => qsCollectionID kv.2 <> cid)) n2,
         [EvSleep 1] ++ releaseTrace Streaming replicaStreaming cid ts sCol None
         ++ releaseTrace Historical replicaHistorical cid ts hCol None
         ++ [EvFreeOSMemory; EvReleaseCollection cid])
    end.
Proof.
  intros Hs Hh Hb. cbv zeta.
  unfold releaseCollectionTask.Execute, sleep. rewrite bind_call.
  rewrite (bind_run _ _ _ _ _ _ (releaseReplica_run env req Streaming replicaStreaming
                                   n sCol base Hs Hb)).
  cbv zeta.
  destruct (removeCollection_err env Streaming (ReleaseCollectionRequest.CollectionID req))
    as [e|] eqn:ES.
  { unfold throw. rewrite !emit_pair. by rewrite app_nil_r. }
  assert (collections (replica Historical
            (released Streaming replicaStreaming (ReleaseCollectionRequest.CollectionID req)
               (commonpb.Timestamp base) sCol None n))
          !! ReleaseCollectionRequest.CollectionID req = Some hCol) as Hh1 by exact Hh.
  rewrite (bind_run _ _ _ _ _ _ (releaseReplica_run env req Historical replicaHistorical
                                   _ hCol base Hh1 Hb)).
  cbv zeta.
  destruct (removeCollection_err env Historical (ReleaseCollectionRequest.CollectionID req))
    as [e|] eqn:EH.
  - unfold throw. rewrite !emit_pair. by rewrite app_nil_r.
  - unfold FreeOSMemory, queryShardService_releaseCollection, call, bind. by rewrite !emit_pair.
Qed.

(** C2: after a successful ReleaseCollection on a collection present in
    both replicas, the collection and its excluded-segment set are gone
    from both replicas, no DML flow-graph is left for a vChannel of the
    streaming collection and no delta flow-graph for a vDeltaChannel of
    the historical one, no tSafe is left for any of those channels, and
    the query-shard service holds no shard of the collection. The trace
    is, for the streaming and then for the historical replica: lock,
    set the release time to Base.Timestamp, unlock, remove flow-graphs,
    remove tSafes, remove excluded segments, remove the collection. *)
Theorem ReleaseCollection_complete env (req : ReleaseCollectionRequest.t) n n' evs sCol hCol :
  collections (streaming n) !! ReleaseCollectionRequest.CollectionID req = Some sCol ->
  collections (historical n) !! ReleaseCollectionRequest.CollectionID req = Some hCol ->
  releaseCollectionTask.Execute env req n = (Ok tt, n', evs) ->
  collections (streaming n') !! ReleaseCollectionRequest.CollectionID req = None
  /\ collections (historical n') !! ReleaseCollectionRequest.CollectionID req = None
  /\ (forall ch, ch ∈ Collection.vChannels sCol -> dmlChannel2FlowGraph n' !! ch = None)
  /\ (forall ch, ch ∈ Collection.vDeltaChannels hCol -> deltaChannel2FlowGraph n' !! ch = None)
  /\ (forall ch, ch ∈ Collection.vChannels sCol \/ ch ∈ Collection.vDeltaChannels hCol ->
        ch ∉ tSafes n')
  /\ excludedSegments (streaming n') !! ReleaseCollectionRequest.CollectionID req = None
  /\ excludedSegments (historical n') !! ReleaseCollectionRequest.CollectionID req = None
  /\ (forall ch qs, queryShards n' !! ch = Some qs ->
        qsCollectionID qs <> ReleaseCollectionRequest.CollectionID req)
  /\ exists base, ReleaseCollectionRequest.Base req = Some base
     /\ evs
        = [EvSleep 1]
          ++ [EvQueryLock Streaming;
              EvSetReleaseTime Streaming (ReleaseCollectionRequest.CollectionID req)
                (commonpb.Timestamp base);
              EvQueryUnlock Streaming;
              EvRemoveFlowGraphs DML (Collection.vChannels sCol)]
          ++ (EvRemoveTSafe <$> Collection.vChannels sCol)
          ++ [EvRemoveExcludedSegments Streaming (ReleaseCollectionRequest.CollectionID req);
              EvRemoveCollection Streaming (ReleaseCollectionRequest.CollectionID req) None]
          ++ [EvQueryLock Historical;
              EvSetReleaseTime Historical (ReleaseCollectionRequest.CollectionID req)
                (commonpb.Timestamp base);
              EvQueryUnlock Historical;
              EvRemoveFlowGraphs Delta (Collection.vDeltaChannels hCol)]
          ++ (EvRemoveTSafe <$> Collection.vDeltaChannels hCol)
          ++ [EvRemoveExcludedSegments Historical (ReleaseCollectionRequest.CollectionID req);
              EvRemoveCollection Historical (ReleaseCollectionRequest.CollectionID req) None]
          ++ [EvFreeOSMemory; EvReleaseCollection (ReleaseCollectionRequest.CollectionID req)].
Proof.
  intros Hs Hh Hrun. set (cid := ReleaseCollectionRequest.CollectionID req) in *.
  destruct (ReleaseCollectionRequest.Base req) as [base|] eqn:Hb.
  2: { exfalso. revert Hrun. unfold releaseCollectionTask.Execute, sleep. rewrite bind_call.
       rewrite (bind_run_panic _ _ _ _ _
                  (releaseReplica_nil_Base_panics env req Streaming replicaStreaming n Hb
                     (mk_is_Some _ _ Hs))).
       by rewrite emit_pair. }
  rewrite (ReleaseCollection_run env req n sCol hCol base Hs Hh Hb) in Hrun.
  fold cid in Hrun.
  destruct (removeCollection_err env Streaming cid); [done |].
  destruct (removeCollection_err env Historical cid); [done |].
  injection Hrun as <- <-.
  repeat split.
  - apply lookup_delete_eq.
  - apply lookup_delete_eq.
  - intros ch Hin. simpl. rewrite foldr_delete_lookup. by rewrite bool_decide_eq_true_2.
  - intros ch Hin. simpl. rewrite foldr_delete_lookup. by rewrite bool_decide_eq_true_2.
  - simpl. intros ch Hin. set_solver.
  - apply lookup_delete_eq.
  - apply lookup_delete_eq.
  - intros ch qs Hq. simpl in Hq. apply map_lookup_filter_Some in Hq as [_ Hq]. exact Hq.
  - exists base. split; [done |]. unfold releaseTrace. simpl. by rewrite <- !app_assoc.
Qed.

Lemma ReleaseCollection_complete_witness :
  collections (streaming (final releaseRun)) !! 100 = None
  /\ collections (historical (final releaseRun)) !! 100 = None.
Proof.
  pose proof (ReleaseCollection_complete quietEnv (releaseCollection100At 2000) loadedNode
                (final releaseRun) (trace releaseRun) collection100 collection100) as H.
  simpl in H. split; apply H; vm_compute; reflexivity.
Defined.

(** * Go map iteration visits every key once *)

Lemma rangeKeys_elem {V} env tag (m : gmap string V) ch :
  ch ∈ rangeKeys env tag m <-> is_Some (m !! ch).
Proof.
  unfold rangeKeys. rewrite (rangeOrder_perm env tag), list_elem_of_fmap. split.
  - intros ([k v] & -> & Hin). apply elem_of_map_to_list in Hin. by exists v.
  - intros [v Hv]. exists (ch, v). split; [done |]. by apply elem_of_map_to_list.
Qed.

Lemma rangeKeys_NoDup {V} env tag (m : gmap string V) : NoDup (rangeKeys env tag m).
Proof. unfold rangeKeys. rewrite (rangeOrder_perm env tag). apply NoDup_fst_map_to_list. Qed.

Lemma newFlowGraphs_lookup k cid chans ch :
  newFlowGraphs k cid chans !! ch
  = if bool_decide (ch ∈ chans)
    then Some {| fgKind := k; fgCollectionID := cid; fgChannel := ch |}
    else None.
Proof.
  unfold newFlowGraphs. induction chans as [|x l IH]; [done |].
  rewrite fmap_cons, list_to_map_cons.
  destruct (decide (x = ch)) as [->|Hne].
  - rewrite lookup_insert_eq. rewrite bool_decide_eq_true_2; [done | left].
  - rewrite lookup_insert_ne by done. rewrite IH.
    destruct (decide (ch ∈ l)) as [Hin|Hin].
    + rewrite !bool_decide_eq_true_2; [done | by right | done].
    + rewrite !bool_decide_eq_false_2; [done | | done].
      intros [?|?]%elem_of_cons; congruence.
Qed.

Lemma rangeKeys_newFlowGraphs env tag k cid chans ch :
  ch ∈ rangeKeys env tag (newFlowGraphs k cid chans) <-> ch ∈ chans.
Proof.
  rewrite rangeKeys_elem, newFlowGraphs_lookup.
  destruct (decide (ch ∈ chans)) as [Hin|Hin].
  - rewrite bool_decide_eq_true_2 by done. split; [done | by eexists].
  - rewrite bool_decide_eq_false_2 by done. split; [by intros [? ?] | done].
Qed.

(** A loop over the entries of the new flow-graphs that makes one call
    per graph: the run. *)
Lemma rangeMap_newFlowGraphs_run env tag k cid chans (ev : FlowGraphKind -> Channel -> Event) n :
  forM_ (rangeMap env tag (newFlowGraphs k cid chans))
    (fun '(_, fg) => call (ev (fgKind fg) (fgChannel fg)) (fun n => n)) n
  = (Ok tt, n, ev k <$> rangeKeys env tag (newFlowGraphs k cid chans)).
Proof.
  unfold rangeMap.
  assert (forall ch, ch ∈ rangeKeys env tag (newFlowGraphs k cid chans) -> ch ∈ chans) as Hall.
  { intros ch. apply rangeKeys_newFlowGraphs. }
  induction (rangeKeys env tag (newFlowGraphs k cid chans)) as [|ch l IH]; [done |].
  csimpl. rewrite newFlowGraphs_lookup, bool_decide_eq_true_2 by (apply Hall; left).
  csimpl. rewrite bind_call, IH; [done |]. intros ch' Hin. apply Hall. by right.
Qed.

(** * Start comes last *)

Section StartsLast.
Context (k : FlowGraphKind) (chans : list Channel).

Lemma startsLast_emit {A} required evs (x : Res A * QueryNode * list Event) :
  Forall notStart evs -> startsLast k chans required x ->
  startsLast k chans (evs ++ required) (emit evs x).
Proof.
  unfold startsLast. rewrite result_emit, trace_emit. intros He. destruct (result x).
  - intros (pre & order & Ht & Hpre & Hnd & Hin & Hreq). exists (evs ++ pre), order.
    rewrite Ht, app_assoc. split; [done |]. split; [by apply Forall_app |].
    split; [done |]. split; [done |].
    intros ev [?|?]%elem_of_app; apply elem_of_app; [by left | right; by apply Hreq].
  - intros Hx. by apply Forall_app.
  - intros Hx. by apply Forall_app.
Qed.

Lemma startsLast_weaken {A} required required' (x : Res A * QueryNode * list Event) :
  (forall ev, ev ∈ required' -> ev ∈ required) ->
  startsLast k chans required x -> startsLast k chans required' x.
Proof.
  unfold startsLast. intros Hsub. destruct (result x); [| done | done].
  intros (pre & order & Ht & Hpre & Hnd & Hin & Hreq). exists pre, order.
  repeat split; try done; try apply Hin. intros ev Hev. by apply Hreq, Hsub.
Qed.

Lemma startsLast_emit_keep {A} required evs (x : Res A * QueryNode * list Event) :
  Forall notStart evs -> startsLast k chans required x ->
  startsLast k chans required (emit evs x).
Proof.
  intros He Hx. eapply startsLast_weaken; [| by apply startsLast_emit].
  intros ev Hev. apply elem_of_app. by right.
Qed.

Lemma startsLast_bind {A B} required (Q : A -> Prop) (m : M A) (f : A -> M B) n :
  emits notStart m ->
  (forall a, result (m n) = Ok a -> Q a) ->
  (forall a n1, Q a -> startsLast k chans required (f a n1)) ->
  startsLast k chans required (bind m f n).
Proof.
  intros Hm HQ Hf. specialize (Hm n).
  destruct (m n) as [[[a|e|] n1] e1] eqn:E.
  - rewrite (bind_run _ _ _ _ _ _ E). apply startsLast_emit_keep; [done |].
    apply Hf, HQ. done.
  - unfold bind. rewrite E. done.
  - unfold bind. rewrite E. done.
Qed.

Lemma startsLast_defer {A} required (d : Res A -> M unit) (m : M A) n :
  (forall a n1, trace (d (Ok a) n1) = []) ->
  (forall r, emits notStart (d r)) ->
  startsLast k chans required (m n) -> startsLast k chans required (defer d m n).
Proof.
  intros Hok Hd. unfold defer, startsLast.
  destruct (m n) as [[r n1] e1]. specialize (Hd r n1).
  destruct (d r n1) as [[r2 n2] e2] eqn:E. unfold result, trace in *; simpl in *.
  destruct r as [a| |].
  - specialize (Hok a n1). rewrite E in Hok. simpl in Hok. subst e2. by rewrite app_nil_r.
  - intros. by apply Forall_app.
  - intros. by apply Forall_app.
Qed.

Lemma startsLast_starts env tag cid n :
  startsLast k chans []
    (forM_ (rangeMap env tag (newFlowGraphs k cid chans)) (fun '(_, fg) => flowGraphStart fg) n).
Proof.
  unfold flowGraphStart. rewrite rangeMap_newFlowGraphs_run. unfold startsLast. simpl.
  exists [], (rangeKeys env tag (newFlowGraphs k cid chans)).
  split; [done |]. split; [constructor |]. split; [apply rangeKeys_NoDup |].
  split; [apply rangeKeys_newFlowGraphs |]. intros ev Hev. by apply elem_of_nil in Hev.
Qed.

End StartsLast.

Lemma addTSafes_run l n :
  forM_ l addTSafe n = (Ok tt, withTSafes (fun s => list_to_set l ∪ s) n, EvAddTSafe <$> l).
Proof.
  revert n. induction l as [|ch l IH]; intros n; simpl.
  - unfold ret. do 2 f_equal. destruct n; unfold withTSafes; simpl. f_equal. set_solver.
  - unfold addTSafe. rewrite bind_call, IH. unfold emit, result, final, trace; simpl.
    do 2 f_equal. unfold withTSafes; simpl. f_equal. set_solver.
Qed.

Lemma addFlowGraphs_value env k cid chans n a :
  result (addFlowGraphs env k cid chans n) = Ok a ->
  a = (newFlowGraphs k cid chans, None) \/ exists e, a = (∅, Some e).
Proof.
  unfold addFlowGraphs. rewrite bind_callE, result_emit.
  destruct (addFlowGraphs_err env k cid chans) as [e|]; simpl; intros [= <-]; eauto.
Qed.

Lemma emit_emit {A} e1 e2 (x : Res A * QueryNode * list Event) :
  emit e1 (emit e2 x) = emit (e1 ++ e2) x.
Proof. unfold emit. simpl. by rewrite app_assoc. Qed.

(** ** WatchDmChannels *)

Lemma watchDm_watchShard_emits (P : Event -> Prop) env req ch :
  (forall c ch' r e, P (EvAddQueryShard c ch' r e)) ->
  (forall ch' e, P (EvWatchDMLTSafe ch' e)) ->
  emits P (watchDmChannelsTask.watchShard env req ch).
Proof.
  intros H1 H2. unfold watchDmChannelsTask.watchShard.
  emits_steps; solve [apply emits_callE; auto].
Qed.

Lemma watchDm_finish_startsLast env req n :
  startsLast DML (watchDmChannelsTask.vChannels req) (watchDmUpdates env req)
    (watchDmChannelsTask.finish env req
       (newFlowGraphs DML (WatchDmChannelsRequest.CollectionID req)
          (watchDmChannelsTask.vChannels req)) n).
Proof.
  unfold watchDmChannelsTask.finish, addVChannels, addPChannels, setLoadType, onCollection.
  rewrite !bind_call, (bind_run _ _ _ _ _ _ (addTSafes_run _ _)), !emit_emit.
  eapply startsLast_weaken; [| apply startsLast_emit].
  - intros ev Hev. apply elem_of_app. left. exact Hev.
  - apply Forall_app. split; [by repeat constructor |].
    apply Forall_fmap, Forall_forall. by intros ch _.
  - apply (startsLast_bind _ _ _ (fun _ => True)); [| done |].
    + apply emits_forM_. intros ch _. by apply watchDm_watchShard_emits.
    + intros _ n1 _. apply startsLast_starts.
Qed.

Lemma watchDm_rollback_run env cid chans e n :
  watchDmChannelsTask.rollback env (newFlowGraphs DML cid chans) e n
  = (Fail e,
     withFlowGraphs DML
       (fun m => foldr delete m (rangeKeys env [5%nat] (newFlowGraphs DML cid chans))) n,
     (EvFlowGraphClose DML <$> rangeKeys env [4%nat] (newFlowGraphs DML cid chans))
     ++ [EvRemoveFlowGraphs DML (rangeKeys env [5%nat] (newFlowGraphs DML cid chans))]).
Proof.
  unfold watchDmChannelsTask.rollback, flowGraphClose, removeFlowGraphs.
  rewrite (bind_run _ _ _ _ _ _ (rangeMap_newFlowGraphs_run env _ DML cid chans _ n)).
  rewrite bind_call. unfold throw. by rewrite !emit_pair.
Qed.

Lemma watchDm_watch_startsLast env req n :
  startsLast DML (watchDmChannelsTask.vChannels req) (watchDmUpdates env req)
    (watchDmChannelsTask.watch env req n).
Proof.
  unfold watchDmChannelsTask.watch.
  destruct (watchDmChannelsTask.groupChannels _ _) as [seek consume].
  apply (startsLast_bind _ _ _ (fun _ => True)); [| done |].
  { unfold watchDmChannelsTask.addCheckPoints. emits_steps. }
  intros _ n1 _.
  apply (startsLast_bind _ _ _ (fun a =>
           a = (newFlowGraphs DML (WatchDmChannelsRequest.CollectionID req)
                  (watchDmChannelsTask.vChannels req), None)
           \/ exists e, a = (∅, Some e))).
  { emits_steps. }
  { intros a. apply addFlowGraphs_value. }
  intros a n2 [-> | [e ->]].
  - simpl check. rewrite bind_ret.
    apply (startsLast_bind _ _ _ (fun _ => True)); [| done |].
    { by apply asConsumer_emits. }
    intros [e|] n3 _.
    + rewrite watchDm_rollback_run. unfold startsLast. simpl.
      apply Forall_app. split; [| by repeat constructor].
      apply Forall_fmap, Forall_forall. by intros ch _.
    + apply watchDm_finish_startsLast.
  - simpl check. rewrite bind_throw. unfold startsLast. simpl. constructor.
Qed.

Lemma watchDm_prepare_emits (P : Event -> Prop) env req :
  (forall k c, P (EvAddCollection k c)) ->
  (forall c r ch, P (EvAddShardCluster c r ch)) ->
  (forall k c p e, P (EvAddPartition k c p e)) ->
  (forall r t e, P (EvLoadSegment r t e)) ->
  emits P (watchDmChannelsTask.prepare env req).
Proof.
  intros H1 H2 H3 H4.
  unfold watchDmChannelsTask.prepare, watchDmChannelsTask.addPartitions.
  emits_steps; first [apply emits_call | apply emits_callE]; auto.
Qed.

Lemma watchDm_Execute_startsLast env req n :
  startsLast DML (watchDmChannelsTask.vChannels req) (watchDmUpdates env req)
    (watchDmChannelsTask.Execute env req n).
Proof.
  unfold watchDmChannelsTask.Execute.
  apply (startsLast_bind _ _ _ (fun _ => True)); [| done |].
  { by apply watchDm_prepare_emits. }
  intros ids n1 _. apply startsLast_defer.
  - done.
  - intros r. unfold watchDmChannelsTask.removeGrowing. emits_steps.
  - apply watchDm_watch_startsLast.
Qed.

(** ** WatchDeltaChannels *)

Lemma watchDelta_asConsumer_emits (P : Event -> Prop) env req l :
  (forall ch p s e, P (EvConsumeFlowGraphFromLatest ch p s e)) ->
  (forall c pos e, P (EvFromDmlCPLoadDelete c pos e)) ->
  emits P (watchDeltaChannelsTask.asConsumer env req l).
Proof.
  intros Hc Hs. induction l as [|[channel fg] l IH]; simpl; [apply emits_ret |].
  emits_steps; solve [apply emits_callE; auto].
Qed.

Lemma watchDelta_watchShard_emits (P : Event -> Prop) env req ch :
  (forall c ch' r e, P (EvAddQueryShard c ch' r e)) ->
  (forall ch' e, P (EvWatchDeltaTSafe ch' e)) ->
  emits P (watchDeltaChannelsTask.watchShard env req ch).
Proof.
  intros H1 H2. unfold watchDeltaChannelsTask.watchShard.
  emits_steps; solve [apply emits_callE; auto].
Qed.

Lemma watchDelta_finish_startsLast env req n :
  startsLast Delta (watchDeltaChannelsTask.vDeltaChannels req) (watchDeltaUpdates env req)
    (watchDeltaChannelsTask.finish env req
       (newFlowGraphs Delta (WatchDeltaChannelsRequest.CollectionID req)
          (watchDeltaChannelsTask.vDeltaChannels req)) n).
Proof.
  unfold watchDeltaChannelsTask.finish, addVDeltaChannels, addPDeltaChannels, onCollection.
  rewrite !bind_call, (bind_run _ _ _ _ _ _ (addTSafes_run _ _)), !emit_emit.
  eapply startsLast_weaken; [| apply startsLast_emit].
  - intros ev Hev. apply elem_of_app. left. exact Hev.
  - apply Forall_app. split; [by repeat constructor |].
    apply Forall_fmap, Forall_forall. by intros ch _.
  - apply (startsLast_bind _ _ _ (fun _ => True)); [| done |].
    + apply emits_forM_. intros ch _. by apply watchDelta_watchShard_emits.
    + intros _ n1 _. apply startsLast_starts.
Qed.

Lemma watchDelta_rollback_run env cid chans e n :
  watchDeltaChannelsTask.rollback env (newFlowGraphs Delta cid chans) e n
  = (Fail e,
     withFlowGraphs Delta
       (fun m => foldr delete m (rangeKeys env [5%nat] (newFlowGraphs Delta cid chans))) n,
     (EvFlowGraphClose Delta <$> rangeKeys env [4%nat] (newFlowGraphs Delta cid chans))
     ++ [EvRemoveFlowGraphs Delta (rangeKeys env [5%nat] (newFlowGraphs Delta cid chans))]).
Proof.
  unfold watchDeltaChannelsTask.rollback, flowGraphClose, removeFlowGraphs.
  rewrite (bind_run _ _ _ _ _ _ (rangeMap_newFlowGraphs_run env _ Delta cid chans _ n)).
  rewrite bind_call. unfold throw. by rewrite !emit_pair.
Qed.

Lemma watchDelta_Execute_startsLast env req n :
  startsLast Delta (watchDeltaChannelsTask.vDeltaChannels req) (watchDeltaUpdates env req)
    (watchDeltaChannelsTask.Execute env req n).
Proof.
  unfold watchDeltaChannelsTask.Execute.
  destruct (negb _); [by constructor |].
  unfold hasCollection, getCollectionByID. rewrite bind_gets.
  destruct (negb _); [by constructor |].
  rewrite bind_gets.
  apply (startsLast_bind _ _ _ (fun _ => True)); [auto with emits | done |].
  intros _ n1 _. rewrite bind_gets.
  destruct (negb _); [by constructor |].
  rewrite bind_gets.
  apply (startsLast_bind _ _ _ (fun _ => True)); [auto with emits | done |].
  intros _ n2 _.
  apply (startsLast_bind _ _ _ (fun a =>
           a = (newFlowGraphs Delta (WatchDeltaChannelsRequest.CollectionID req)
                  (watchDeltaChannelsTask.vDeltaChannels req), None)
           \/ exists e, a = (∅, Some e))).
  { emits_steps. }
  { intros a. apply addFlowGraphs_value. }
  intros a n3 [-> | [e ->]].
  - simpl check. rewrite bind_ret.
    apply (startsLast_bind _ _ _ (fun _ => True)); [| done |].
    { by apply watchDelta_asConsumer_emits. }
    intros [e|] n4 _.
    + rewrite watchDelta_rollback_run. unfold startsLast. simpl.
      apply Forall_app. split; [| by repeat constructor].
      apply Forall_fmap, Forall_forall. by intros ch _.
    + apply watchDelta_finish_startsLast.
  - simpl check. rewrite bind_throw. unfold startsLast. simpl. constructor.
Qed.

(** C9: in every WatchDmChannels and every WatchDeltaChannels execution
    that succeeds, the trace is a sequence of calls none of which is a
    Start -- among them the updates of the collection metadata in both
    replicas and the creation of the tSafe of every channel -- followed by
    exactly one Start per created flow-graph and nothing after: every
    consume, seek, metadata update, tSafe creation and query-shard call
    precedes every Start. In every execution that fails or panics no
    flow-graph is started. *)
Theorem Start_is_final_stage env n :
  (forall req : WatchDmChannelsRequest.t,
     match result (watchDmChannelsTask.Execute env req n) with
     | Ok _ =>
         exists pre order,
           trace (watchDmChannelsTask.Execute env req n)
           = pre ++ (EvFlowGraphStart DML <$> order)
           /\ Forall notStart pre
           /\ NoDup order
           /\ (forall ch, ch ∈ order <-> ch ∈ watchDmChannelsTask.vChannels req)
           /\ (forall ev, ev ∈ watchDmUpdates env req -> ev ∈ pre)
     | _ => Forall notStart (trace (watchDmChannelsTask.Execute env req n))
     end)
  /\ (forall req : WatchDeltaChannelsRequest.t,
     match result (watchDeltaChannelsTask.Execute env req n) with
     | Ok _ =>
         exists pre order,
           trace (watchDeltaChannelsTask.Execute env req n)
           = pre ++ (EvFlowGraphStart Delta <$> order)
           /\ Forall notStart pre
           /\ NoDup order
           /\ (forall ch, ch ∈ order <-> ch ∈ watchDeltaChannelsTask.vDeltaChannels req)
           /\ (forall ev, ev ∈ watchDeltaUpdates env req -> ev ∈ pre)
     | _ => Forall notStart (trace (watchDeltaChannelsTask.Execute env req n))
     end).
Proof.
  split; intros req.
  - apply watchDm_Execute_startsLast.
  - apply watchDelta_Execute_startsLast.
Qed.

Lemma Start_is_final_stage_witness :
  exists pre order,
    trace (watchDmChannelsTask.Execute quietEnv (watchDm100 (Some base1) [dmlInfo [] []]) emptyNode)
    = pre ++ (EvFlowGraphStart DML <$> order)
    /\ Forall notStart pre /\ NoDup order
    /\ (forall ch, ch ∈ order <-> ch ∈ ["by-dev-rootcoord-dml_0"])
    /\ (forall ev, ev ∈ watchDmUpdates quietEnv (watchDm100 (Some base1) [dmlInfo [] []]) ->
          ev ∈ pre).
Proof.
  pose proof (proj1 (Start_is_final_stage quietEnv emptyNode)
                (watchDm100 (Some base1) [dmlInfo [] []])) as H.
  assert (result (watchDmChannelsTask.Execute quietEnv
                    (watchDm100 (Some base1) [dmlInfo [] []]) emptyNode) = Ok tt) as E
    by (vm_compute; reflexivity).
  rewrite E in H. exact H.
Defined.

(** * WatchDmChannels: rollback after a failed consume or seek *)

Section Peel.
Context {A B : Type} (P : Event -> Prop).

(** If the events of [m] are not in [P] and a run of [m ;; f] has an
    event in [P], then [m] returned and the event is one of [f]. *)
Lemma peel (m : M A) (f : A -> M B) n :
  emits (fun ev => ~ P ev) m ->
  Exists P (trace (bind m f n)) ->
  exists a, result (m n) = Ok a
    /\ bind m f n = emit (trace (m n)) (f a (final (m n)))
    /\ Exists P (trace (f a (final (m n)))).
Proof.
  intros Hm Hex. specialize (Hm n). destruct (m n) as [[[a|e|] n1] e1] eqn:E.
  - exists a. split; [done |]. rewrite (bind_run _ _ _ _ _ _ E) in *. split; [done |].
    rewrite trace_emit in Hex. apply Exists_app in Hex as [Hex | Hex]; [| done].
    exfalso. apply Exists_exists in Hex as (ev & Hin & Hev).
    unfold trace in Hm. simpl in Hm. rewrite Forall_forall in Hm. by apply (Hm ev).
  - exfalso. unfold bind in Hex. rewrite E in Hex. apply Exists_exists in Hex as (ev & Hin & Hev).
    unfold trace in Hm, Hin. simpl in Hm, Hin. rewrite Forall_forall in Hm. by apply (Hm ev).
  - exfalso. unfold bind in Hex. rewrite E in Hex. apply Exists_exists in Hex as (ev & Hin & Hev).
    unfold trace in Hm, Hin. simpl in Hm, Hin. rewrite Forall_forall in Hm. by apply (Hm ev).
Qed.

Lemma not_Exists_emits (m : M A) n :
  emits (fun ev => ~ P ev) m -> ~ Exists P (trace (m n)).
Proof.
  intros Hm Hex. specialize (Hm n). apply Exists_exists in Hex as (ev & Hin & Hev).
  rewrite Forall_forall in Hm. by apply (Hm ev).
Qed.

End Peel.

Lemma defer_run {A} (d : Res A -> M unit) (m : M A) n :
  defer d m n
  = (result (m n), final (d (result (m n)) (final (m n))),
     trace (m n) ++ trace (d (result (m n)) (final (m n)))).
Proof.
  unfold defer. destruct (m n) as [[r n1] e1]. unfold result, final, trace. simpl.
  by destruct (d r n1) as [[r2 n2] e2].
Qed.

Lemma removeSegments_run ids n :
  forM_ ids (removeSegment Streaming) n
  = (Ok tt, withReplica Streaming (withSegments (fun s => s ∖ list_to_set ids)) n,
     EvRemoveSegment Streaming <$> ids).
Proof.
  revert n. induction ids as [|id ids IH]; intros n; simpl.
  - unfold ret. do 2 f_equal. destruct n as [[] ?]; unfold withReplica, withSegments; simpl.
    do 2 f_equal. set_solver.
  - unfold removeSegment. rewrite bind_call, IH. unfold emit, result, final, trace; simpl.
    do 2 f_equal. unfold withReplica, withSegments; simpl. do 2 f_equal. set_solver.
Qed.

Lemma watchDm_asConsumer_run env req seek consume l n :
  exists err evs,
    watchDmChannelsTask.asConsumer env req seek consume l n = (Ok err, n, evs)
    /\ (err = None -> Forall (fun ev => ~ attachFailed ev) evs).
Proof.
  revert n. induction l as [|[channel fg] l IH]; intros n; simpl.
  - exists None, []. split; [done | constructor].
  - unfold consumeFlowGraph, seekQueryNodeFlowGraph.
    assert (forall (f : option Error -> M (option Error)),
      (forall err1, exists err evs, f err1 n = (Ok err, n, evs)
          /\ (err = None -> err1 = None /\ Forall (fun ev => ~ attachFailed ev) evs)) ->
      exists err evs,
        bind (if bool_decide (is_Some (consume !! channel))
              then callE (consumeFlowGraph_err env (fgChannel fg)
                            (default "" (watchDmChannelsTask.VPChannels env req !! channel))
                            (watchDmChannelsTask.consumeSubName env req))
                     (EvConsumeFlowGraph (fgChannel fg)
                        (default "" (watchDmChannelsTask.VPChannels env req !! channel))
                        (watchDmChannelsTask.consumeSubName env req)) (fun n => n)
              else ret None) f n = (Ok err, n, evs)
        /\ (err = None -> Forall (fun ev => ~ attachFailed ev) evs)) as Hfirst.
    { intros f Hf. destruct (bool_decide _).
      - rewrite bind_callE.
        destruct (Hf (consumeFlowGraph_err env (fgChannel fg)
                        (default "" (watchDmChannelsTask.VPChannels env req !! channel))
                        (watchDmChannelsTask.consumeSubName env req)))
          as (err & evs & Hrun & Hnone).
        replace (match consumeFlowGraph_err env (fgChannel fg)
                         (default "" (watchDmChannelsTask.VPChannels env req !! channel))
                         (watchDmChannelsTask.consumeSubName env req)
                 with Some _ => n | None => n end) with n by (by destruct (consumeFlowGraph_err _ _ _ _)).
        rewrite Hrun, emit_pair. eexists _, _. split; [done |].
        intros ->. destruct (Hnone eq_refl) as [Herr Hall]. rewrite Herr.
        constructor; [simpl; tauto | done].
      - rewrite bind_ret. destruct (Hf None) as (err & evs & Hrun & Hnone).
        exists err, evs. split; [done |]. intros ->. by apply Hnone. }
    apply Hfirst. intros [e|].
    + exists (Some e), []. split; [done | done].
    + destruct (seek !! channel) as [pos|].
      * rewrite bind_callE.
        replace (match seekQueryNodeFlowGraph_err env (fgChannel fg)
                   (watchDmChannelsTask.withChannelName
                      (default "" (watchDmChannelsTask.VPChannels env req !! channel))
                      (watchDmChannelsTask.withMsgGroup
                         (watchDmChannelsTask.consumeSubName env req) pos))
                 with Some _ => n | None => n end) with n
          by (by destruct (seekQueryNodeFlowGraph_err _ _ _)).
        destruct (seekQueryNodeFlowGraph_err _ _ _) as [e|] eqn:Eseek.
        -- eexists _, _. unfold ret. rewrite emit_pair. split; [done | done].
        -- destruct (IH n) as (err & evs & Hrun & Hnone). rewrite Hrun, emit_pair.
           eexists _, _. split; [done |]. intros ->. split; [done |].
           constructor; [simpl; tauto | by apply Hnone].
      * rewrite bind_ret. destruct (IH n) as (err & evs & Hrun & Hnone).
        exists err, evs. split; [done |]. intros ->. split; [done | by apply Hnone].
Qed.

Lemma alter_is_Some {V} (f : V -> V) (i j : Z) (m : gmap Z V) :
  is_Some (m !! j) -> is_Some (alter f i m !! j).
Proof.
  intros Hj. rewrite lookup_alter. case_decide; [subst; by apply fmap_is_Some | done].
Qed.

(** A collaborator call leaves the collection where it is. *)
Ltac holds_call :=
  first [apply preserves_call | apply preserves_callE];
  let n0 := fresh "n0" in
  let Hs := fresh "Hs" in
  let Hh := fresh "Hh" in
  intros n0 [Hs Hh]; split; simpl; try assumption; apply alter_is_Some; assumption.

Ltac preserves_steps :=
  repeat first
    [ progress intros
    | solve [auto with preserves]
    | apply preserves_bind
    | apply preserves_forM_
    | apply preserves_defer
    | progress autounfold with collab
    | solve [holds_call]
    | match goal with
      | |- preserves _ (match ?x with _ => _ end) => destruct x
      | |- preserves _ (let '(_, _) := ?x in _) => destruct x
      end ].

Lemma watchDm_asConsumer_preserves (I : QueryNode -> Prop) env req seek consume l :
  preserves I (watchDmChannelsTask.asConsumer env req seek consume l).
Proof.
  intros n Hn. destruct (watchDm_asConsumer_run env req seek consume l n) as (err & evs & -> & _).
  exact Hn.
Qed.

Lemma watchDm_watch_holds env req cid :
  preserves (holdsCollection cid) (watchDmChannelsTask.watch env req).
Proof.
  unfold watchDmChannelsTask.watch, watchDmChannelsTask.addCheckPoints,
    watchDmChannelsTask.rollback, watchDmChannelsTask.finish, watchDmChannelsTask.watchShard.
  preserves_steps; apply watchDm_asConsumer_preserves.
Qed.

(** What prepare returns, and where it leaves the node. *)
Lemma watchDm_prepare_returns env req n ids :
  result (watchDmChannelsTask.prepare env req n) = Ok ids ->
  (exists segs, watchDmChannelsTask.unFlushedSegments req = Some segs
     /\ ids = querypb.SegmentID <$> segs)
  /\ holdsCollection (WatchDmChannelsRequest.CollectionID req)
       (final (watchDmChannelsTask.prepare env req n)).
Proof.
  unfold watchDmChannelsTask.prepare. destruct (negb _); [done |].
  destruct (WatchDmChannelsRequest.Schema req) as [sch|]; [| done].
  simpl deref. rewrite bind_ret. unfold addCollection. rewrite !bind_call, !result_emit, !final_emit.
  set (n2 := withReplica Historical _ (withReplica Streaming _ n)).
  assert (holdsCollection (WatchDmChannelsRequest.CollectionID req) n2) as Hn2.
  { subst n2. split; simpl; destruct (collections _ !! _) eqn:E; rewrite ?E; try done;
      rewrite lookup_insert_eq; done. }
  intros Hres. split.
  - revert Hres. rewrite result_bind.
    destruct (result (forM_ _ _ n2)); [| done | done]. rewrite result_bind.
    destruct (watchDmChannelsTask.unFlushedSegments req) as [segs|]; [| done].
    simpl. rewrite result_bind.
    destruct (WatchDmChannelsRequest.Base req) as [base|]; [| done].
    simpl. rewrite result_bind. destruct (result (watchDmChannelsTask.addPartitions _ _ _ _));
      [| done | done].
    rewrite result_bind. destruct (result (loadSegment _ _ _ _)) as [err| |]; [| done | done].
    rewrite result_bind. destruct err; [done |]. simpl. intros [= <-]. by exists segs.
  - revert Hn2. generalize n2. clear.
    change (preserves (holdsCollection (WatchDmChannelsRequest.CollectionID req))
      (bind (forM_ (watchDmChannelsTask.vChannels req)
               (addShardCluster (WatchDmChannelsRequest.CollectionID req)
                  (WatchDmChannelsRequest.ReplicaID req)))
         (fun _ =>
            bind (deref (watchDmChannelsTask.unFlushedSegments req)) (fun segs =>
            bind (deref (WatchDmChannelsRequest.Base req)) (fun base =>
            bind (watchDmChannelsTask.addPartitions env
                    (watchDmChannelsTask.loadRequest req base segs)
                    (WatchDmChannelsRequest.CollectionID req)) (fun _ =>
            bind (loadSegment env (watchDmChannelsTask.loadRequest req base segs)
                    segmentTypeGrowing) (fun err =>
            bind (check err) (fun _ => ret (querypb.SegmentID <$> segs))))))))).
    unfold watchDmChannelsTask.addPartitions. preserves_steps.
Qed.

(** The growing segments to load are the unflushed segments with binlogs. *)
Lemma gatherSegments_elem segs acc out :
  watchDmChannelsTask.gatherSegments segs acc = Some out ->
  (forall s, s ∈ acc -> s ∈ out)
  /\ (forall uf, Some uf ∈ segs -> datapb.Binlogs uf <> [] ->
        watchDmChannelsTask.toSegmentLoadInfo uf ∈ out).
Proof.
  revert acc. induction segs as [|[uf|] segs IH]; intros acc; simpl.
  - intros [= <-]. split; [done |]. intros uf Hin. by apply elem_of_nil in Hin.
  - intros Hg. destruct (IH _ Hg) as [Hacc Hsegs]. split.
    + intros s Hs. apply Hacc. destruct (_ <? _)%nat; [apply elem_of_app; by left | done].
    + intros uf' [Heq | Hin]%elem_of_cons Hb; [| by apply Hsegs].
      injection Heq as ->. apply Hacc.
      destruct (datapb.Binlogs uf) eqn:E; [done |]. simpl. apply elem_of_app. right. by left.
  - done.
Qed.

Lemma gatherInfos_elem infos acc out :
  watchDmChannelsTask.gatherInfos infos acc = Some out ->
  (forall s, s ∈ acc -> s ∈ out)
  /\ (forall info uf, info ∈ infos -> Some uf ∈ datapb.UnflushedSegments info ->
        datapb.Binlogs uf <> [] -> watchDmChannelsTask.toSegmentLoadInfo uf ∈ out).
Proof.
  revert acc. induction infos as [|info infos IH]; intros acc; simpl.
  - intros [= <-]. split; [done |]. intros info uf Hin. by apply elem_of_nil in Hin.
  - destruct (watchDmChannelsTask.gatherSegments _ acc) as [acc'|] eqn:E; [| done].
    intros Hg. destruct (IH _ Hg) as [Hacc Hinfos].
    destruct (gatherSegments_elem _ _ _ E) as [Hacc' Hsegs]. split.
    + intros s Hs. by apply Hacc, Hacc'.
    + intros info' uf [-> | Hin]%elem_of_cons Huf Hb.
      * by apply Hacc, Hsegs.
      * by apply (Hinfos info' uf).
Qed.

Lemma watchDm_watch_rolls_back env req n :
  Exists attachFailed (trace (watchDmChannelsTask.watch env req n)) ->
  exists e gc, result (watchDmChannelsTask.watch env req n) = Fail e
    /\ EvRemoveFlowGraphs DML gc ∈ trace (watchDmChannelsTask.watch env req n)
    /\ forall ch, ch ∈ watchDmChannelsTask.vChannels req ->
         ch ∈ gc
         /\ EvFlowGraphClose DML ch ∈ trace (watchDmChannelsTask.watch env req n)
         /\ dmlChannel2FlowGraph (final (watchDmChannelsTask.watch env req n)) !! ch = None.
Proof.
  unfold watchDmChannelsTask.watch.
  destruct (watchDmChannelsTask.groupChannels _ _) as [seek consume].
  intros Hex.
  apply peel in Hex as ([] & _ & -> & Hex).
  2: { unfold watchDmChannelsTask.addCheckPoints. emits_steps;
       apply emits_call; simpl; tauto. }
  set (n1 := final (watchDmChannelsTask.addCheckPoints env req seek n)) in *.
  apply peel in Hex as (a & Ha & -> & Hex).
  2: { emits_steps; first [apply emits_call | apply emits_callE]; simpl; tauto. }
  set (n2 := final (addFlowGraphs env DML (WatchDmChannelsRequest.CollectionID req)
                      (watchDmChannelsTask.vChannels req) n1)) in *.
  apply addFlowGraphs_value in Ha as [-> | [e ->]].
  2: { exfalso. revert Hex. simpl check. rewrite bind_throw. unfold trace. simpl.
       apply Exists_nil. }
  revert Hex. simpl check. rewrite bind_ret.
  destruct (watchDm_asConsumer_run env req seek consume
              (rangeMap env [3%nat]
                 (newFlowGraphs DML (WatchDmChannelsRequest.CollectionID req)
                    (watchDmChannelsTask.vChannels req))) n2)
    as (err & evs & Hrun & Hnone).
  rewrite (bind_run _ _ _ _ _ _ Hrun). destruct err as [e|].
  - intros _. rewrite watchDm_rollback_run, !emit_pair.
    exists e, (rangeKeys env [5%nat]
                 (newFlowGraphs DML (WatchDmChannelsRequest.CollectionID req)
                    (watchDmChannelsTask.vChannels req))).
    split; [done |]. split.
    { unfold trace. simpl. rewrite !elem_of_app. do 4 right. left. }
    intros ch Hch. split; [by apply rangeKeys_newFlowGraphs |]. split.
    + unfold trace. simpl. rewrite !elem_of_app. do 3 right. left.
      apply list_elem_of_fmap. exists ch. split; [done |]. by apply rangeKeys_newFlowGraphs.
    + unfold final. simpl. rewrite foldr_delete_lookup.
      rewrite bool_decide_eq_true_2; [done |]. by apply rangeKeys_newFlowGraphs.
  - intros Hex. exfalso. rewrite trace_emit in Hex.
    apply Exists_app in Hex as [Hex | Hex].
    + apply Exists_exists in Hex as (ev & Hin & Hev).
      specialize (Hnone eq_refl). rewrite Forall_forall in Hnone. by apply (Hnone ev).
    + revert Hex. apply not_Exists_emits.
      unfold watchDmChannelsTask.finish, watchDmChannelsTask.watchShard.
      emits_steps; first [apply emits_call | apply emits_callE]; simpl; tauto.
Qed.

Lemma watchDm_Execute_keeps_collection env req :
  emits notRemoveCollection (watchDmChannelsTask.Execute env req).
Proof.
  unfold watchDmChannelsTask.Execute, watchDmChannelsTask.prepare,
    watchDmChannelsTask.watch, watchDmChannelsTask.addPartitions,
    watchDmChannelsTask.removeGrowing, watchDmChannelsTask.addCheckPoints,
    watchDmChannelsTask.rollback, watchDmChannelsTask.finish, watchDmChannelsTask.watchShard.
  emits_steps; try (apply asConsumer_emits; done).
Qed.

(** C1: in every WatchDmChannels execution in which a consumeFlowGraph or
    seekQueryNodeFlowGraph call fails, Execute returns an error; every
    flow-graph it created -- one per channel of the request -- has been
    closed, was named in the removeFlowGraphsByDMLChannels call and is no
    longer registered in the flow-graph service; every growing segment it
    loaded -- the unflushed segments with binlogs -- was passed to
    removeSegment and is gone from the streaming replica; and the
    collection is still present in both replicas, no removeCollection
    having been called. *)
Theorem WatchDm_rollback env (req : WatchDmChannelsRequest.t) n :
  Exists attachFailed (trace (watchDmChannelsTask.Execute env req n)) ->
  (exists e, result (watchDmChannelsTask.Execute env req n) = Fail e)
  /\ (exists gc,
        EvRemoveFlowGraphs DML gc ∈ trace (watchDmChannelsTask.Execute env req n)
        /\ forall ch, ch ∈ watchDmChannelsTask.vChannels req ->
             ch ∈ gc
             /\ EvFlowGraphClose DML ch ∈ trace (watchDmChannelsTask.Execute env req n)
             /\ dmlChannel2FlowGraph (final (watchDmChannelsTask.Execute env req n)) !! ch
                = None)
  /\ (forall info uf, info ∈ WatchDmChannelsRequest.Infos req ->
        Some uf ∈ datapb.UnflushedSegments info -> datapb.Binlogs uf <> [] ->
        EvRemoveSegment Streaming (datapb.ID uf)
          ∈ trace (watchDmChannelsTask.Execute env req n)
        /\ datapb.ID uf ∉ segments (streaming (final (watchDmChannelsTask.Execute env req n))))
  /\ Forall notRemoveCollection (trace (watchDmChannelsTask.Execute env req n))
  /\ is_Some (collections (streaming (final (watchDmChannelsTask.Execute env req n)))
               !! WatchDmChannelsRequest.CollectionID req)
  /\ is_Some (collections (historical (final (watchDmChannelsTask.Execute env req n)))
               !! WatchDmChannelsRequest.CollectionID req).
Proof.
  intros Hex. pose proof (watchDm_Execute_keeps_collection env req n) as Hkeep.
  revert Hex Hkeep. unfold watchDmChannelsTask.Execute. intros Hex.
  apply peel in Hex as (ids & Hids & -> & Hex).
  2: { apply watchDm_prepare_emits; intros; simpl; tauto. }
  apply watchDm_prepare_returns in Hids as [(segs & Hsegs & ->) Hholds].
  set (n1 := final (watchDmChannelsTask.prepare env req n)) in *.
  rewrite defer_run in Hex |- *. unfold trace at 1 in Hex. simpl in Hex.
  apply Exists_app in Hex as [Hex | Hex].
  2: { exfalso. revert Hex. apply not_Exists_emits.
       unfold watchDmChannelsTask.removeGrowing.
       emits_steps; apply emits_call; simpl; tauto. }
  pose proof (watchDm_watch_holds env req _ n1 Hholds) as Hholds'.
  destruct (watchDm_watch_rolls_back env req n1 Hex) as (e & gc & Hres & Hgc & Hfg).
  rewrite Hres in *. simpl watchDmChannelsTask.removeGrowing. rewrite removeSegments_run.
  rewrite emit_pair. unfold result, final, trace. simpl. intros Hkeep.
  split; [by exists e |]. split; [| split; [| split; [exact Hkeep | exact Hholds']]].
  - exists gc. split; [rewrite !elem_of_app; right; by left |].
    intros ch Hch. destruct (Hfg ch Hch) as (Hin & Hclose & Hgone).
    split; [done |]. split; [| exact Hgone]. rewrite !elem_of_app. right. by left.
  - intros info uf Hinfo Huf Hb.
    destruct (gatherInfos_elem _ _ _ Hsegs) as [_ Hin].
    specialize (Hin info uf Hinfo Huf Hb).
    assert (datapb.ID uf ∈ querypb.SegmentID <$> segs) as Hid.
    { apply list_elem_of_fmap. by exists (watchDmChannelsTask.toSegmentLoadInfo uf). }
    split.
    + rewrite !elem_of_app. do 2 right. apply list_elem_of_fmap. by exists (datapb.ID uf).
    + apply not_elem_of_difference. right. by apply elem_of_list_to_set.
Qed.

Lemma WatchDm_rollback_witness :
  (exists e, result rollbackRun = Fail e)
  /\ dmlChannel2FlowGraph (final rollbackRun) !! "by-dev-rootcoord-dml_0" = None
  /\ (7 ∉ segments (streaming (final rollbackRun)))
  /\ is_Some (collections (streaming (final rollbackRun)) !! 100)
  /\ is_Some (collections (historical (final rollbackRun)) !! 100).
Proof.
  assert (Exists attachFailed (trace rollbackRun)) as Hex.
  { vm_compute. repeat first [apply Exists_cons_hd; exact I | apply Exists_cons_tl]. }
  destruct (WatchDm_rollback seekFailsEnv (watchDm100 (Some base1) [dmlInfo [] []]) emptyNode Hex)
    as (Hres & (gc & _ & Hfg) & Hseg & _ & Hs & Hh).
  split; [exact Hres |]. split; [| split; [| split; [exact Hs | exact Hh]]].
  - apply (Hfg "by-dev-rootcoord-dml_0"). left.
  - apply (Hseg (dmlInfo [] []) segment7); [left | left | discriminate].
Defined.

(** * Further properties of the request processing of WatchDmChannels *)

Lemma foldl_insert_lookup {X V} (key : X -> string) (g : string -> V) (l : list X)
  (m : gmap string V) ch :
  foldl (fun m x => <[key x := g (key x)]> m) m l !! ch
  = if bool_decide (ch ∈ key <$> l) then Some (g ch) else m !! ch.
Proof.
  revert m. induction l as [|x l IH]; intros m; [done |].
  cbn [foldl]. rewrite IH, fmap_cons.
  destruct (decide (ch ∈ key <$> l)) as [Hin|Hin].
  - rewrite !bool_decide_eq_true_2; [done | by right | done].
  - rewrite (bool_decide_eq_false_2 _ Hin).
    destruct (decide (key x = ch)) as [<-|Hne].
    + rewrite lookup_insert_eq. rewrite bool_decide_eq_true_2; [done | left].
    + rewrite lookup_insert_ne by done. rewrite bool_decide_eq_false_2; [done |].
      intros [?|?]%elem_of_cons; congruence.
Qed.

(** X1, lines 204-213: the channel slices go in step, and the map sends each
    virtual channel of the request, and nothing else, to its physical
    channel. *)
Theorem watchDm_channel_maps env (req : WatchDmChannelsRequest.t) :
  length (watchDmChannelsTask.pChannels env req) = length (watchDmChannelsTask.vChannels req)
  /\ (forall i v, watchDmChannelsTask.vChannels req !! i = Some v ->
        watchDmChannelsTask.pChannels env req !! i = Some (ToPhysicalChannel env v))
  /\ (forall ch, ch ∈ watchDmChannelsTask.vChannels req ->
        watchDmChannelsTask.VPChannels env req !! ch = Some (ToPhysicalChannel env ch))
  /\ (forall ch, ch ∉ watchDmChannelsTask.vChannels req ->
        watchDmChannelsTask.VPChannels env req !! ch = None).
Proof.
  unfold watchDmChannelsTask.pChannels, watchDmChannelsTask.vChannels,
    watchDmChannelsTask.VPChannels.
  split; [by rewrite !length_fmap |]. split; [| split].
  - intros i v Hv. rewrite list_lookup_fmap in Hv |- *.
    destruct (WatchDmChannelsRequest.Infos req !! i) as [info|]; [| done].
    simpl in *. by injection Hv as <-.
  - intros ch Hch.
    rewrite (foldl_insert_lookup datapb.ChannelName (ToPhysicalChannel env)).
    rewrite lookup_empty. by rewrite bool_decide_eq_true_2.
  - intros ch Hch.
    rewrite (foldl_insert_lookup datapb.ChannelName (ToPhysicalChannel env)).
    rewrite lookup_empty. by rewrite bool_decide_eq_false_2.
Qed.

Lemma watchDm_channel_maps_witness :
  watchDmChannelsTask.VPChannels quietEnv (watchDm100 (Some base1) [dmlInfo [] []])
    !! "by-dev-rootcoord-dml_0" = Some "by-dev-rootcoord-dml".
Proof.
  change (Some "by-dev-rootcoord-dml")
    with (Some (ToPhysicalChannel quietEnv "by-dev-rootcoord-dml_0")).
  apply (proj1 (proj2 (proj2 (watchDm_channel_maps quietEnv
                                (watchDm100 (Some base1) [dmlInfo [] []]))))).
  left.
Defined.

(** The two maps of lines 304-313, entry by entry. *)
Lemma groupChannels_lookup subName (infos : list datapb.VchannelInfo) :
  NoDup (datapb.ChannelName <$> infos) ->
  (forall info, info ∈ infos ->
     match datapb.SeekPosition info with
     | Some pos =>
         if (length (internalpb.MsgID pos) =? 0)%nat
         then (watchDmChannelsTask.groupChannels subName infos).1
                !! datapb.ChannelName info = None
              /\ (watchDmChannelsTask.groupChannels subName infos).2
                   !! datapb.ChannelName info = Some (Some pos)
         else (watchDmChannelsTask.groupChannels subName infos).1
                !! datapb.ChannelName info
              = Some (watchDmChannelsTask.withMsgGroup subName pos)
              /\ (watchDmChannelsTask.groupChannels subName infos).2
                   !! datapb.ChannelName info = None
     | None =>
         (watchDmChannelsTask.groupChannels subName infos).1
           !! datapb.ChannelName info = None
         /\ (watchDmChannelsTask.groupChannels subName infos).2
              !! datapb.ChannelName info = Some None
     end)
  /\ (forall ch, ch ∉ datapb.ChannelName <$> infos ->
        (watchDmChannelsTask.groupChannels subName infos).1 !! ch = None
        /\ (watchDmChannelsTask.groupChannels subName infos).2 !! ch = None).
Proof.
  unfold watchDmChannelsTask.groupChannels.
  induction infos as [|x infos IH] using rev_ind; intros Hnd.
  - split; [intros info Hin; by apply elem_of_nil in Hin | done].
  - rewrite fmap_app in Hnd. apply NoDup_app in Hnd as (Hnd & Hx & _).
    destruct (IH Hnd) as [IH1 IH2]. clear IH.
    assert (datapb.ChannelName x ∉ datapb.ChannelName <$> infos) as Hfresh.
    { intros Hin. apply (Hx _ Hin). left. }
    rewrite foldl_app. cbn [foldl].
    destruct (foldl _ _ infos) as [seek consume]. simpl in IH1, IH2.
    destruct (IH2 _ Hfresh) as [Hs Hc].
    assert (forall info, info ∈ infos -> datapb.ChannelName info <> datapb.ChannelName x)
      as Hother.
    { intros info Hin Heq. apply Hfresh. rewrite <- Heq. by apply list_elem_of_fmap_2. }
    split.
    + intros info [Hin | ->%list_elem_of_singleton]%elem_of_app.
      * specialize (IH1 info Hin). specialize (Hother info Hin).
        destruct (datapb.SeekPosition x) as [px|]; [destruct (_ =? _)%nat |];
          simpl; rewrite ?lookup_insert_ne by done; exact IH1.
      * destruct (datapb.SeekPosition x) as [px|]; [destruct (_ =? _)%nat |];
          simpl; rewrite ?lookup_insert_eq; done.
    + intros ch Hch. rewrite fmap_app in Hch.
      assert (ch ∉ datapb.ChannelName <$> infos) as Hch1.
      { intros ?. apply Hch, elem_of_app. by left. }
      assert (datapb.ChannelName x <> ch) as Hne.
      { intros <-. apply Hch, elem_of_app. right. left. }
      destruct (IH2 ch Hch1).
      destruct (datapb.SeekPosition x) as [px|]; [destruct (_ =? _)%nat |];
        simpl; rewrite ?lookup_insert_ne by done; done.
Qed.

(** X2, lines 304-313: with pairwise distinct channel names, every channel of
    the request is in exactly one of the two maps: in
    channel2AsConsumerPosition, with its position as it is, when the seek
    position is nil or has an empty MsgID, and otherwise in
    channel2SeekPosition, with the position stamped with the subscription
    name. A channel the request does not name is in neither, and no
    channel is in both. *)
Theorem groupChannels_classifies subName (infos : list datapb.VchannelInfo) :
  NoDup (datapb.ChannelName <$> infos) ->
  (forall info, info ∈ infos ->
     match datapb.SeekPosition info with
     | Some pos =>
         if (length (internalpb.MsgID pos) =? 0)%nat
         then (watchDmChannelsTask.groupChannels subName infos).1
                !! datapb.ChannelName info = None
              /\ (watchDmChannelsTask.groupChannels subName infos).2
                   !! datapb.ChannelName info = Some (Some pos)
         else (watchDmChannelsTask.groupChannels subName infos).1
                !! datapb.ChannelName info
              = Some (watchDmChannelsTask.withMsgGroup subName pos)
              /\ (watchDmChannelsTask.groupChannels subName infos).2
                   !! datapb.ChannelName info = None
     | None =>
         (watchDmChannelsTask.groupChannels subName infos).1
           !! datapb.ChannelName info = None
         /\ (watchDmChannelsTask.groupChannels subName infos).2
              !! datapb.ChannelName info = Some None
     end)
  /\ (forall ch, ch ∉ datapb.ChannelName <$> infos ->
        (watchDmChannelsTask.groupChannels subName infos).1 !! ch = None
        /\ (watchDmChannelsTask.groupChannels subName infos).2 !! ch = None)
  /\ (forall ch,
        (watchDmChannelsTask.groupChannels subName infos).1 !! ch = None
        \/ (watchDmChannelsTask.groupChannels subName infos).2 !! ch = None).
Proof.
  intros Hnd. destruct (groupChannels_lookup subName infos Hnd) as [Hin Hout].
  split; [exact Hin |]. split; [exact Hout |].
  intros ch. destruct (decide (ch ∈ datapb.ChannelName <$> infos)) as [Hch|Hch].
  - apply list_elem_of_fmap in Hch as (info & -> & Hinfo). specialize (Hin info Hinfo).
    destruct (datapb.SeekPosition info) as [pos|];
      [destruct (length (internalpb.MsgID pos) =? 0)%nat |];
      destruct Hin as [Hs Hc]; auto.
  - left. by apply Hout.
Qed.

Lemma groupChannels_classifies_witness :
  (watchDmChannelsTask.groupChannels "sub" [dmlInfo [] []]).1 !! "by-dev-rootcoord-dml_0"
  = Some (watchDmChannelsTask.withMsgGroup "sub" seek500)
  /\ (watchDmChannelsTask.groupChannels "sub" [dmlInfo [] []]).2 !! "by-dev-rootcoord-dml_0"
     = None.
Proof.
  assert (NoDup (datapb.ChannelName <$> [dmlInfo [] []])) as Hnd.
  { apply (bool_decide_unpack _). vm_compute. exact I. }
  apply (proj1 (groupChannels_classifies "sub" [dmlInfo [] []] Hnd) (dmlInfo [] [])).
  left.
Defined.

(** ** The check-point loops *)

Lemma rangeMap_elem {V} env tag (m : gmap string V) k v :
  (k, v) ∈ rangeMap env tag m <-> m !! k = Some v.
Proof.
  unfold rangeMap. rewrite list_elem_of_omap. split.
  - intros (k' & _ & Hk). destruct (m !! k') as [v'|] eqn:E; [| done].
    simpl in Hk. by injection Hk as <- <-.
  - intros Hv. exists k. split; [apply rangeKeys_elem; by eexists |]. by rewrite Hv.
Qed.

Lemma rangeMap_values {V} env tag (m : gmap string V) v :
  v ∈ (rangeMap env tag m).*2 <-> exists k, m !! k = Some v.
Proof.
  rewrite list_elem_of_fmap. split.
  - intros ([k v'] & -> & Hin). exists k. by apply rangeMap_elem in Hin.
  - intros [k Hk]. exists (k, v). split; [done |]. by apply rangeMap_elem.
Qed.

Section CheckPointLoops.
Context (env : Env) (cond : datapb.SegmentPtr -> internalpb.MsgPosition -> option bool).
Context (seek : gmap string internalpb.MsgPosition).

Lemma rangePositions_spec seg positions acc :
  match watchDmChannelsTask.rangePositions (cond seg) seg positions acc with
  | None => exists p, p ∈ positions /\ cond seg p = None
  | Some out =>
      (forall p, p ∈ positions -> cond seg p <> None)
      /\ (forall s, s ∈ out <->
            s ∈ acc \/ (s = seg /\ exists p, p ∈ positions /\ cond seg p = Some true))
  end.
Proof.
  revert acc. induction positions as [|p ps IH]; intros acc; simpl.
  - split; [intros p Hp; by apply elem_of_nil in Hp |].
    intros s. split; [by left |]. intros [? | (_ & p & Hp & _)]; [done |].
    by apply elem_of_nil in Hp.
  - destruct (cond seg p) as [b|] eqn:Ep.
    + specialize (IH (if b then acc ++ [seg] else acc)).
      destruct (watchDmChannelsTask.rangePositions _ _ ps _) as [out|].
      * destruct IH as [IHn IHs]. split.
        -- intros p' [-> | Hin]%elem_of_cons; [congruence | by apply IHn].
        -- intros s. rewrite IHs. split.
           ++ intros [Hacc | (-> & p' & Hin & Hc)].
              ** destruct b; [| by left].
                 apply elem_of_app in Hacc as [? | ->%list_elem_of_singleton]; [by left |].
                 right. split; [done |]. exists p. split; [left | done].
              ** right. split; [done |]. exists p'. split; [by right | done].
           ++ intros [Hacc | (-> & p' & [-> | Hin]%elem_of_cons & Hc)].
              ** left. destruct b; [apply elem_of_app; by left | done].
              ** left. rewrite Ep in Hc. injection Hc as ->. apply elem_of_app. right. left.
              ** right. split; [done |]. by exists p'.
      * destruct IH as (p' & Hin & Hc). exists p'. split; [by right | done].
    + exists p. split; [left | done].
Qed.

Lemma rangeSegments_spec tag j segs acc :
  match watchDmChannelsTask.rangeSegments env cond seek tag j segs acc with
  | None => exists seg k p, seg ∈ segs /\ seek !! k = Some p /\ cond seg p = None
  | Some out =>
      (forall seg k p, seg ∈ segs -> seek !! k = Some p -> cond seg p <> None)
      /\ (forall s, s ∈ out <->
            s ∈ acc \/ (s ∈ segs /\ exists k p, seek !! k = Some p /\ cond s p = Some true))
  end.
Proof.
  revert j acc. induction segs as [|seg segs IH]; intros j acc; simpl.
  - split; [intros seg k p Hin; by apply elem_of_nil in Hin |].
    intros s. split; [by left |]. intros [? | (Hin & _)]; [done |].
    by apply elem_of_nil in Hin.
  - pose proof (rangePositions_spec seg (rangeMap env (tag ++ [j]) seek).*2 acc) as Hp.
    destruct (watchDmChannelsTask.rangePositions _ _ _ acc) as [acc'|].
    + destruct Hp as [Hpn Hps]. specialize (IH (S j) acc').
      destruct (watchDmChannelsTask.rangeSegments _ _ _ _ _ segs acc') as [out|].
      * destruct IH as [IHn IHs]. split.
        -- intros seg' k p [-> | Hin]%elem_of_cons Hk.
           ++ apply Hpn, rangeMap_values. by exists k.
           ++ by apply (IHn seg' k p).
        -- intros s. rewrite IHs, Hps. split.
           ++ intros [[Hacc | (-> & p & Hin & Hc)] | (Hin & k & p & Hk & Hc)].
              ** by left.
              ** right. split; [left |]. apply rangeMap_values in Hin as [k Hk]. by exists k, p.
              ** right. split; [by right |]. by exists k, p.
           ++ intros [Hacc | ([-> | Hin]%elem_of_cons & k & p & Hk & Hc)].
              ** left. by left.
              ** left. right. split; [done |]. exists p.
                 split; [apply rangeMap_values; by exists k | done].
              ** right. split; [done |]. by exists k, p.
      * destruct IH as (seg' & k & p & Hin & Hk & Hc). exists seg', k, p.
        split; [by right | done].
    + destruct Hp as (p & Hin & Hc). apply rangeMap_values in Hin as [k Hk].
      exists seg, k, p. split; [left | done].
Qed.

Lemma rangeInfos_spec sel site i infos acc :
  match watchDmChannelsTask.rangeInfos env sel cond seek site i infos acc with
  | None =>
      exists info seg k p,
        info ∈ infos /\ seg ∈ sel info /\ seek !! k = Some p /\ cond seg p = None
  | Some out =>
      (forall info seg k p, info ∈ infos -> seg ∈ sel info -> seek !! k = Some p ->
         cond seg p <> None)
      /\ (forall s, s ∈ out <->
            s ∈ acc
            \/ exists info k p,
                 info ∈ infos /\ s ∈ sel info /\ seek !! k = Some p /\ cond s p = Some true)
  end.
Proof.
  revert i acc. induction infos as [|info infos IH]; intros i acc; simpl.
  - split; [intros info seg k p Hin; by apply elem_of_nil in Hin |].
    intros s. split; [by left |]. intros [? | (info & k & p & Hin & _)]; [done |].
    by apply elem_of_nil in Hin.
  - pose proof (rangeSegments_spec [site; i] 0 (sel info) acc) as Hs.
    destruct (watchDmChannelsTask.rangeSegments _ _ _ _ _ (sel info) acc) as [acc'|].
    + destruct Hs as [Hsn Hss]. specialize (IH (S i) acc').
      destruct (watchDmChannelsTask.rangeInfos _ _ _ _ _ _ infos acc') as [out|].
      * destruct IH as [IHn IHs]. split.
        -- intros info' seg k p [-> | Hin]%elem_of_cons Hseg Hk.
           ++ by apply (Hsn seg k p).
           ++ by apply (IHn info' seg k p).
        -- intros s. rewrite IHs, Hss. split.
           ++ intros [[Hacc | (Hin & k & p & Hk & Hc)] | (info' & k & p & Hin & Hseg & Hk & Hc)].
              ** by left.
              ** right. exists info, k, p. split; [left | done].
              ** right. exists info', k, p. split; [by right | done].
           ++ intros [Hacc | (info' & k & p & [-> | Hin]%elem_of_cons & Hseg & Hk & Hc)].
              ** left. by left.
              ** left. right. split; [done |]. by exists k, p.
              ** right. by exists info', k, p.
      * destruct IH as (info' & seg & k & p & Hin & Hseg & Hk & Hc).
        exists info', seg, k, p. split; [by right | done].
    + destruct Hs as (seg & k & p & Hseg & Hk & Hc). exists info, seg, k, p.
      split; [left | done].
Qed.

End CheckPointLoops.

Lemma laterThan_true dml position :
  watchDmChannelsTask.laterThan dml position = true
  <-> internalpb.ChannelName dml = internalpb.ChannelName position
      /\ internalpb.Timestamp position < internalpb.Timestamp dml.
Proof.
  unfold watchDmChannelsTask.laterThan.
  rewrite andb_true_iff, !bool_decide_eq_true. done.
Qed.

(** X3, lines 334-346: the flushed-segment loop panics exactly when some
    channel seeks and a FlushedSegments list holds a nil element.
    Otherwise the list it passes to addExcludedSegments holds exactly the
    flushed segments that have a DmlPosition on the channel of some seek
    position and with a timestamp strictly after it; no nil element and
    no segment without DmlPosition is in it. *)
Theorem flushed_checkpoint_rule env (req : WatchDmChannelsRequest.t)
  (seek : gmap string internalpb.MsgPosition) :
  (watchDmChannelsTask.flushedCheckPointInfos env req seek = None
   <-> (exists k p, seek !! k = Some p)
       /\ exists info, info ∈ WatchDmChannelsRequest.Infos req
                       /\ None ∈ datapb.FlushedSegments info)
  /\ (forall out, watchDmChannelsTask.flushedCheckPointInfos env req seek = Some out ->
        (None ∉ out)
        /\ forall s, Some s ∈ out <->
             exists info dml k p,
               info ∈ WatchDmChannelsRequest.Infos req
               /\ Some s ∈ datapb.FlushedSegments info
               /\ datapb.DmlPosition s = Some dml
               /\ seek !! k = Some p
               /\ internalpb.ChannelName dml = internalpb.ChannelName p
               /\ internalpb.Timestamp p < internalpb.Timestamp dml).
Proof.
  unfold watchDmChannelsTask.flushedCheckPointInfos.
  pose proof (rangeInfos_spec env watchDmChannelsTask.flushedCond seek
                datapb.FlushedSegments 1 0 (WatchDmChannelsRequest.Infos req) []) as Hspec.
  destruct (watchDmChannelsTask.rangeInfos _ _ _ _ _ _ _ _) as [out|].
  - destruct Hspec as [Hn Hs]. split.
    + split; [done |]. intros [(k & p & Hk) (info & Hin & Hnil)]. exfalso.
      by apply (Hn info None k p).
    + intros out' [= <-]. split.
      * intros Hin. apply Hs in Hin as [Hin | (info & k & p & _ & _ & _ & Hc)];
          [by apply elem_of_nil in Hin | done].
      * intros s. rewrite Hs. split.
        -- intros [Hin | (info & k & p & Hin & Hseg & Hk & Hc)];
             [by apply elem_of_nil in Hin |].
           simpl in Hc. destruct (datapb.DmlPosition s) as [dml|] eqn:Ed; [| done].
           injection Hc as Hc. apply laterThan_true in Hc as [Hch Hts].
           by exists info, dml, k, p.
        -- intros (info & dml & k & p & Hin & Hseg & Hd & Hk & Hch & Hts). right.
           exists info, k, p. repeat (split; [done |]). simpl. rewrite Hd. f_equal.
           by apply laterThan_true.
  - destruct Hspec as (info & seg & k & p & Hin & Hseg & Hk & Hc). split.
    + split; [| done]. intros _. split; [by exists k, p |]. exists info. split; [done |].
      destruct seg as [s|]; [| done]. simpl in Hc. by destruct (datapb.DmlPosition s).
    + done.
Qed.

(** X4, lines 352-366: the dropped-segment loop panics exactly when some
    channel seeks and a DroppedSegments list holds a segment without
    DmlPosition. Otherwise it follows the rule of the flushed segments,
    and nil elements are skipped. *)
Theorem dropped_checkpoint_rule env (req : WatchDmChannelsRequest.t)
  (seek : gmap string internalpb.MsgPosition) :
  (watchDmChannelsTask.droppedCheckPointInfos env req seek = None
   <-> (exists k p, seek !! k = Some p)
       /\ exists info s, info ∈ WatchDmChannelsRequest.Infos req
                         /\ Some s ∈ datapb.DroppedSegments info
                         /\ datapb.DmlPosition s = None)
  /\ (forall out, watchDmChannelsTask.droppedCheckPointInfos env req seek = Some out ->
        (None ∉ out)
        /\ forall s, Some s ∈ out <->
             exists info dml k p,
               info ∈ WatchDmChannelsRequest.Infos req
               /\ Some s ∈ datapb.DroppedSegments info
               /\ datapb.DmlPosition s = Some dml
               /\ seek !! k = Some p
               /\ internalpb.ChannelName dml = internalpb.ChannelName p
               /\ internalpb.Timestamp p < internalpb.Timestamp dml).
Proof.
  unfold watchDmChannelsTask.droppedCheckPointInfos.
  pose proof (rangeInfos_spec env watchDmChannelsTask.droppedCond seek
                datapb.DroppedSegments 2 0 (WatchDmChannelsRequest.Infos req) []) as Hspec.
  destruct (watchDmChannelsTask.rangeInfos _ _ _ _ _ _ _ _) as [out|].
  - destruct Hspec as [Hn Hs]. split.
    + split; [done |]. intros [(k & p & Hk) (info & s & Hin & Hseg & Hd)]. exfalso.
      apply (Hn info (Some s) k p Hin Hseg Hk). simpl. by rewrite Hd.
    + intros out' [= <-]. split.
      * intros Hin. apply Hs in Hin as [Hin | (info & k & p & _ & _ & _ & Hc)];
          [by apply elem_of_nil in Hin | done].
      * intros s. rewrite Hs. split.
        -- intros [Hin | (info & k & p & Hin & Hseg & Hk & Hc)];
             [by apply elem_of_nil in Hin |].
           simpl in Hc. destruct (datapb.DmlPosition s) as [dml|] eqn:Ed; [| done].
           injection Hc as Hc. apply laterThan_true in Hc as [Hch Hts].
           by exists info, dml, k, p.
        -- intros (info & dml & k & p & Hin & Hseg & Hd & Hk & Hch & Hts). right.
           exists info, k, p. repeat (split; [done |]). simpl. rewrite Hd. f_equal.
           by apply laterThan_true.
  - destruct Hspec as (info & seg & k & p & Hin & Hseg & Hk & Hc). split.
    + split; [| done]. intros _. split; [by exists k, p |].
      destruct seg as [s|]; [| done]. exists info, s. split; [done |]. split; [done |].
      simpl in Hc. by destruct (datapb.DmlPosition s).
    + done.
Qed.

(** ** The growing segments *)

Lemma gatherSegments_run ufs acc :
  watchDmChannelsTask.gatherSegments (Some <$> ufs) acc
  = Some (acc ++ (watchDmChannelsTask.toSegmentLoadInfo
                    <$> filter (fun uf => (0 < length (datapb.Binlogs uf))%nat) ufs)).
Proof.
  revert acc. induction ufs as [|uf ufs IH]; intros acc.
  - simpl. by rewrite app_nil_r.
  - rewrite fmap_cons. cbn [watchDmChannelsTask.gatherSegments].
    rewrite IH, filter_cons. destruct (decide _) as [Hb|Hb].
    + apply Nat.ltb_lt in Hb. rewrite Hb, fmap_cons, <- app_assoc. done.
    + rewrite (proj2 (Nat.ltb_ge _ _)) by lia. done.
Qed.

Lemma gatherSegments_nil segs acc :
  watchDmChannelsTask.gatherSegments segs acc = None <-> None ∈ segs.
Proof.
  revert acc. induction segs as [|[uf|] segs IH]; intros acc; simpl.
  - split; [done |]. intros H. by apply elem_of_nil in H.
  - rewrite IH. split; [by right |]. by intros [? | ?]%elem_of_cons.
  - split; [left | done].
Qed.

Lemma gatherInfos_concat infos acc :
  watchDmChannelsTask.gatherInfos infos acc
  = watchDmChannelsTask.gatherSegments (concat (datapb.UnflushedSegments <$> infos)) acc.
Proof.
  revert acc. induction infos as [|info infos IH]; intros acc; simpl; [done |].
  assert (forall l1 l2 a,
    watchDmChannelsTask.gatherSegments (l1 ++ l2) a
    = match watchDmChannelsTask.gatherSegments l1 a with
      | Some a' => watchDmChannelsTask.gatherSegments l2 a'
      | None => None
      end) as Happ.
  { induction l1 as [|[uf|] l1 IHl]; intros l2 a; simpl; [done | apply IHl | done]. }
  rewrite Happ. destruct (watchDmChannelsTask.gatherSegments _ acc); [apply IH | done].
Qed.

(** X5, lines 238-256 and 318-322: building the list of growing segments
    panics exactly when an UnflushedSegments list holds a nil element.
    Otherwise the growing segments that are loaded are, in order, the
    unflushed segments that have at least one binlog, while every
    unflushed segment, with binlogs or not, goes to the excluded
    segments. *)
Theorem growing_segments_loaded (req : WatchDmChannelsRequest.t) :
  (watchDmChannelsTask.unFlushedSegments req = None
   <-> None ∈ watchDmChannelsTask.unFlushedCheckPointInfos req)
  /\ (forall ufs, watchDmChannelsTask.unFlushedCheckPointInfos req = Some <$> ufs ->
        watchDmChannelsTask.unFlushedSegments req
        = Some (watchDmChannelsTask.toSegmentLoadInfo
                  <$> filter (fun uf => (0 < length (datapb.Binlogs uf))%nat) ufs)).
Proof.
  unfold watchDmChannelsTask.unFlushedSegments, watchDmChannelsTask.unFlushedCheckPointInfos.
  rewrite gatherInfos_concat. split.
  - apply gatherSegments_nil.
  - intros ufs ->. by rewrite gatherSegments_run.
Qed.

Lemma growing_segments_loaded_witness :
  watchDmChannelsTask.unFlushedSegments (watchDm100 (Some base1) [dmlInfo [] []])
  = Some [watchDmChannelsTask.toSegmentLoadInfo segment7].
Proof.
  apply (proj2 (growing_segments_loaded (watchDm100 (Some base1) [dmlInfo [] []])) [segment7]).
  reflexivity.
Defined.

(** * WatchDeltaChannels: rollback after a failed consume or replay *)

(** The loop of lines 535-547 leaves the node as it is; when it ends
    without error it has attached every flow-graph and replayed the
    deletes of every channel, and when it breaks, the failed call is its
    last. *)
Lemma watchDelta_asConsumer_run env req l n :
  exists err evs,
    watchDeltaChannelsTask.asConsumer env req l n = (Ok err, n, evs)
    /\ match err with
       | None =>
           evs = l ≫= (fun '(channel, fg) =>
                    [EvConsumeFlowGraphFromLatest (fgChannel fg)
                       (default "" (watchDeltaChannelsTask.VPDeltaChannels env req !! channel))
                       (watchDeltaChannelsTask.consumeSubName env req) None;
                     EvFromDmlCPLoadDelete (WatchDeltaChannelsRequest.CollectionID req)
                       (default None
                          (watchDeltaChannelsTask.vChannel2SeekPosition req !! channel))
                       None])
       | Some e =>
           exists pre ev, evs = pre ++ [ev]
             /\ Forall (fun ev => ~ deltaAttachFailed ev) pre
             /\ ((exists ch p s, ev = EvConsumeFlowGraphFromLatest ch p s (Some e))
                 \/ (exists c pos, ev = EvFromDmlCPLoadDelete c pos (Some e)))
       end.
Proof.
  revert n. induction l as [|[channel fg] l IH]; intros n.
  - by exists None, [].
  - cbn [watchDeltaChannelsTask.asConsumer].
    unfold consumeFlowGraphFromLatest, FromDmlCPLoadDelete.
    rewrite bind_callE.
    destruct (consumeFlowGraphFromLatest_err env _ _ _) as [e|] eqn:E1.
    + exists (Some e). eexists. unfold ret. rewrite emit_pair. split; [reflexivity |].
      eexists [], _. split; [reflexivity |]. split; [constructor | left; by eexists _, _, _].
    + rewrite bind_callE.
      destruct (FromDmlCPLoadDelete_err env _ _) as [e|] eqn:E2.
      * exists (Some e). eexists. unfold ret. rewrite !emit_pair. split; [reflexivity |].
        eexists [_], _. split; [reflexivity |].
        split; [constructor; [simpl; tauto | constructor] | right; by eexists _, _].
      * destruct (IH n) as (err & evs & Hrun & Hspec). rewrite Hrun, !emit_pair.
        exists err. eexists. split; [reflexivity |]. destruct err as [e|].
        -- destruct Hspec as (pre & ev & -> & Hpre & Hev).
           eexists (_ :: _ :: pre), ev. split; [reflexivity |].
           split; [| exact Hev]. constructor; [simpl; tauto |]. constructor; [simpl; tauto | done].
        -- subst evs. reflexivity.
Qed.

Lemma watchDelta_finish_attached env req fgs :
  emits (fun ev => ~ deltaAttachFailed ev) (watchDeltaChannelsTask.finish env req fgs).
Proof.
  unfold watchDeltaChannelsTask.finish, watchDeltaChannelsTask.watchShard.
  emits_steps; first [apply emits_call | apply emits_callE]; simpl; tauto.
Qed.

(** What Execute does once both replicas were found to hold the
    collection (lines 528-603). *)
Lemma watchDelta_Execute_found env (req : WatchDeltaChannelsRequest.t) n :
  NoDup (watchDeltaChannelsTask.vDeltaChannels req) ->
  holdsCollection (WatchDeltaChannelsRequest.CollectionID req) n ->
  watchDeltaChannelsTask.Execute env req n
  = bind (addFlowGraphs env Delta (WatchDeltaChannelsRequest.CollectionID req)
            (watchDeltaChannelsTask.vDeltaChannels req))
      (fun added =>
         bind (check added.2) (fun _ =>
         bind (watchDeltaChannelsTask.asConsumer env req (rangeMap env [3%nat] added.1))
           (fun err =>
              match err with
              | Some e => watchDeltaChannelsTask.rollback env added.1 e
              | None => watchDeltaChannelsTask.finish env req added.1
              end))) n.
Proof.
  intros Hnd [[sCol Hs] [hCol Hh]]. unfold watchDeltaChannelsTask.Execute.
  rewrite (proj2 (watchDelta_length_check env req) Hnd).
  unfold hasCollection, getCollectionByID. rewrite bind_gets. cbv beta. unfold replica. rewrite Hh.
  rewrite bool_decide_eq_true_2 by done. cbn [negb].
  rewrite bind_gets. cbv beta. unfold replica. rewrite Hh. simpl check. rewrite bind_ret, bind_gets.
  cbv beta. unfold replica. rewrite Hs. rewrite bool_decide_eq_true_2 by done. cbn [negb].
  rewrite bind_gets. cbv beta. unfold replica. rewrite Hs. simpl check. rewrite bind_ret.
  unfold bind. destruct (addFlowGraphs env Delta _ _ n) as [[[[fgs err]|e|] n1] e1]; done.
Qed.

(** When Execute does not reach the flow-graphs it has no event. *)
Lemma watchDelta_Execute_early env (req : WatchDeltaChannelsRequest.t) n :
  ~ (NoDup (watchDeltaChannelsTask.vDeltaChannels req)
     /\ holdsCollection (WatchDeltaChannelsRequest.CollectionID req) n) ->
  exists e, watchDeltaChannelsTask.Execute env req n = (Fail e, n, []).
Proof.
  intros Hnot. unfold watchDeltaChannelsTask.Execute.
  destruct (negb _) eqn:Elen; [by eexists |].
  apply (proj1 (watchDelta_length_check env req)) in Elen.
  unfold hasCollection, getCollectionByID. rewrite bind_gets. cbv beta. unfold replica.
  destruct (collections (historical n) !! _) as [hCol|] eqn:Hh.
  2: { rewrite bool_decide_eq_false_2 by (by intros [? ?]). by eexists. }
  rewrite bool_decide_eq_true_2 by done. cbn [negb].
  rewrite bind_gets. cbv beta. unfold replica. rewrite Hh. simpl check. rewrite bind_ret, bind_gets.
  cbv beta. unfold replica.
  destruct (collections (streaming n) !! _) as [sCol|] eqn:Hs.
  2: { rewrite bool_decide_eq_false_2 by (by intros [? ?]). by eexists. }
  exfalso. apply Hnot. split; [done |]. split; by eexists.
Qed.

(** X6, lines 535-559: in every WatchDeltaChannels execution in which a
    consumeFlowGraphFromLatest or FromDmlCPLoadDelete call fails, that
    call is the only failed one and nothing follows it but the rollback:
    one Close per delta flow-graph of the request, then one
    removeFlowGraphsByDeltaChannels naming them all. Execute returns the
    error of the failed call, no delta flow-graph of the request is
    registered any more, and the replicas, the tSafes, the query shards
    and the DML flow-graphs are as they were. *)
Theorem WatchDelta_rollback env (req : WatchDeltaChannelsRequest.t) n :
  Exists deltaAttachFailed (trace (watchDeltaChannelsTask.Execute env req n)) ->
  exists e pre ev closed removed,
    result (watchDeltaChannelsTask.Execute env req n) = Fail e
    /\ trace (watchDeltaChannelsTask.Execute env req n)
       = pre ++ [ev] ++ (EvFlowGraphClose Delta <$> closed)
         ++ [EvRemoveFlowGraphs Delta removed]
    /\ Forall (fun ev => ~ deltaAttachFailed ev) pre
    /\ ((exists ch p s, ev = EvConsumeFlowGraphFromLatest ch p s (Some e))
        \/ (exists c pos, ev = EvFromDmlCPLoadDelete c pos (Some e)))
    /\ NoDup closed
    /\ (forall ch, ch ∈ closed <-> ch ∈ watchDeltaChannelsTask.vDeltaChannels req)
    /\ (forall ch, ch ∈ removed <-> ch ∈ watchDeltaChannelsTask.vDeltaChannels req)
    /\ (forall ch, ch ∈ watchDeltaChannelsTask.vDeltaChannels req ->
          deltaChannel2FlowGraph (final (watchDeltaChannelsTask.Execute env req n)) !! ch = None)
    /\ streaming (final (watchDeltaChannelsTask.Execute env req n)) = streaming n
    /\ historical (final (watchDeltaChannelsTask.Execute env req n)) = historical n
    /\ tSafes (final (watchDeltaChannelsTask.Execute env req n)) = tSafes n
    /\ queryShards (final (watchDeltaChannelsTask.Execute env req n)) = queryShards n
    /\ dmlChannel2FlowGraph (final (watchDeltaChannelsTask.Execute env req n))
       = dmlChannel2FlowGraph n.
Proof.
  intros Hex.
  destruct (decide (NoDup (watchDeltaChannelsTask.vDeltaChannels req))) as [Hnd|Hnd].
  2: { exfalso. destruct (watchDelta_Execute_early env req n) as [e He]; [tauto |].
       rewrite He in Hex. by apply Exists_nil in Hex. }
  destruct (collections (streaming n) !! WatchDeltaChannelsRequest.CollectionID req)
    as [sCol|] eqn:Hs.
  2: { exfalso. destruct (watchDelta_Execute_early env req n) as [e He].
       { intros [_ [[? Hs'] _]]. congruence. }
       rewrite He in Hex. by apply Exists_nil in Hex. }
  destruct (collections (historical n) !! WatchDeltaChannelsRequest.CollectionID req)
    as [hCol|] eqn:Hh.
  2: { exfalso. destruct (watchDelta_Execute_early env req n) as [e He].
       { intros [_ [_ [? Hh']]]. congruence. }
       rewrite He in Hex. by apply Exists_nil in Hex. }
  revert Hex.
  rewrite (watchDelta_Execute_found env req n Hnd
             (conj (mk_is_Some _ _ Hs) (mk_is_Some _ _ Hh))).
  unfold addFlowGraphs. rewrite bind_assoc, bind_callE.
  destruct (addFlowGraphs_err env Delta _ _) as [e|] eqn:Eadd.
  { rewrite bind_ret. simpl check. rewrite bind_throw, emit_pair. unfold trace. simpl.
    intros Hex. exfalso. apply Exists_cons in Hex as [Hex | Hex]; [done |].
    by apply Exists_nil in Hex. }
  rewrite bind_ret. simpl check. rewrite bind_ret. cbn [fst snd].
  set (n1 := withFlowGraphs Delta _ n).
  destruct (watchDelta_asConsumer_run env req
              (rangeMap env [3%nat]
                 (newFlowGraphs Delta (WatchDeltaChannelsRequest.CollectionID req)
                    (watchDeltaChannelsTask.vDeltaChannels req))) n1)
    as (err & evs & Hrun & Hspec).
  rewrite (bind_run _ _ _ _ _ _ Hrun). destruct err as [e|].
  - intros _. destruct Hspec as (pre & ev & -> & Hpre & Hev).
    rewrite watchDelta_rollback_run, !emit_pair. unfold result, final, trace. simpl.
    exists e, (EvAddFlowGraphs Delta (WatchDeltaChannelsRequest.CollectionID req)
                 (watchDeltaChannelsTask.vDeltaChannels req) None :: pre), ev,
      (rangeKeys env [4%nat]
         (newFlowGraphs Delta (WatchDeltaChannelsRequest.CollectionID req)
            (watchDeltaChannelsTask.vDeltaChannels req))),
      (rangeKeys env [5%nat]
         (newFlowGraphs Delta (WatchDeltaChannelsRequest.CollectionID req)
            (watchDeltaChannelsTask.vDeltaChannels req))).
    split; [done |]. split; [by rewrite <- !app_assoc |].
    split; [constructor; [simpl; tauto | done] |]. split; [done |].
    split; [apply rangeKeys_NoDup |].
    split; [intros ch; apply rangeKeys_newFlowGraphs |].
    split; [intros ch; apply rangeKeys_newFlowGraphs |].
    split; [| done].
    intros ch Hch. rewrite foldr_delete_lookup.
    rewrite bool_decide_eq_true_2; [done |]. by apply rangeKeys_newFlowGraphs.
  - intros Hex. exfalso. rewrite !trace_emit in Hex.
    apply Exists_cons in Hex as [Hex | Hex]; [done |].
    apply Exists_app in Hex as [Hex | Hex].
    + subst evs. apply Exists_exists in Hex as (ev & Hin & Hev).
      apply list_elem_of_bind in Hin as ([ch fg] & Hin & _).
      apply elem_of_cons in Hin as [-> | Hin]; [done |].
      apply elem_of_cons in Hin as [-> | Hin]; [done |].
      by apply elem_of_nil in Hin.
    + revert Hex. apply not_Exists_emits, watchDelta_finish_attached.
Qed.

Lemma WatchDelta_rollback_witness :
  exists e,
    result (watchDeltaChannelsTask.Execute loadDeleteFailsEnv watchDelta100 loadedNode) = Fail e
    /\ deltaChannel2FlowGraph
         (final (watchDeltaChannelsTask.Execute loadDeleteFailsEnv watchDelta100 loadedNode))
       !! "by-dev-rootcoord-delta_0" = None.
Proof.
  assert (Exists deltaAttachFailed
            (trace (watchDeltaChannelsTask.Execute loadDeleteFailsEnv watchDelta100 loadedNode)))
    as Hex.
  { vm_compute. repeat first [apply Exists_cons_hd; exact I | apply Exists_cons_tl]. }
  destruct (WatchDelta_rollback loadDeleteFailsEnv watchDelta100 loadedNode Hex)
    as (e & pre & ev & closed & removed & Hres & _ & _ & _ & _ & _ & _ & Hgone & _).
  exists e. split; [exact Hres |]. apply Hgone. left.
Defined.

(** * WatchDmChannels: what follows a failed consume or seek *)

Lemma stops_prefix (P : Event -> Prop) (Q : Event -> Prop) prefix evs :
  Forall P prefix ->
  (exists pre ev, evs = pre ++ [ev] /\ Forall P pre /\ Q ev) ->
  exists pre ev, prefix ++ evs = pre ++ [ev] /\ Forall P pre /\ Q ev.
Proof.
  intros Hp (pre & ev & -> & Hpre & Hev). exists (prefix ++ pre), ev.
  split; [by rewrite app_assoc |]. split; [by apply Forall_app | done].
Qed.

(** The loop of lines 381-401 leaves the node as it is; when it ends
    without error it has attached every flow-graph, by consuming when the
    channel is in channel2AsConsumerPosition and by seeking when it is in
    channel2SeekPosition, and when it breaks, the failed call is its last
    and its error is the loop's. *)
Lemma watchDm_asConsumer_stops env req seek consume l n :
  exists err evs,
    watchDmChannelsTask.asConsumer env req seek consume l n = (Ok err, n, evs)
    /\ match err with
       | None =>
           evs = l ≫= (fun '(channel, fg) =>
                   (if bool_decide (is_Some (consume !! channel))
                    then [EvConsumeFlowGraph (fgChannel fg)
                            (default "" (watchDmChannelsTask.VPChannels env req !! channel))
                            (watchDmChannelsTask.consumeSubName env req) None]
                    else [])
                   ++ match seek !! channel with
                      | Some pos =>
                          [EvSeekQueryNodeFlowGraph (fgChannel fg)
                             (watchDmChannelsTask.withChannelName
                                (default "" (watchDmChannelsTask.VPChannels env req !! channel))
                                (watchDmChannelsTask.withMsgGroup
                                   (watchDmChannelsTask.consumeSubName env req) pos)) None]
                      | None => []
                      end)
       | Some e =>
           exists pre ev, evs = pre ++ [ev]
             /\ Forall (fun ev => ~ attachFailed ev) pre
             /\ ((exists ch p s, ev = EvConsumeFlowGraph ch p s (Some e))
                 \/ (exists ch pos, ev = EvSeekQueryNodeFlowGraph ch pos (Some e)))
       end.
Proof.
  revert n. induction l as [|[channel fg] l IH]; intros n.
  - by exists None, [].
  - cbn [watchDmChannelsTask.asConsumer]. unfold consumeFlowGraph, seekQueryNodeFlowGraph.
    destruct (IH n) as (err & evs & Hrun & Hspec). rewrite bind_cons. cbv beta iota.
    destruct (bool_decide (is_Some (consume !! channel))) eqn:Ec.
    + rewrite bind_callE.
      destruct (consumeFlowGraph_err env _ _ _) as [e1|] eqn:E1.
      { exists (Some e1). eexists. unfold ret. rewrite emit_pair. split; [reflexivity |].
        eexists [], _. split; [reflexivity |]. split; [constructor | left; by eexists _, _, _]. }
      destruct (seek !! channel) as [pos|] eqn:Es.
      * rewrite bind_callE.
        destruct (seekQueryNodeFlowGraph_err env _ _) as [e2|] eqn:E2.
        { exists (Some e2). eexists. unfold ret. rewrite !emit_pair. split; [reflexivity |].
          eexists [_], _. split; [reflexivity |].
          split; [constructor; [simpl; tauto | constructor] | right; by eexists _, _]. }
        rewrite Hrun, !emit_pair. exists err. eexists. split; [reflexivity |].
        destruct err as [e|]; [| by subst evs].
        apply stops_prefix; [by repeat constructor; simpl; tauto |].
        apply stops_prefix; [by repeat constructor; simpl; tauto |]. exact Hspec.
      * rewrite bind_ret, Hrun, !emit_pair. exists err. eexists. split; [reflexivity |].
        destruct err as [e|]; [| by subst evs].
        apply stops_prefix; [by repeat constructor; simpl; tauto |]. exact Hspec.
    + rewrite bind_ret.
      destruct (seek !! channel) as [pos|] eqn:Es.
      * rewrite bind_callE.
        destruct (seekQueryNodeFlowGraph_err env _ _) as [e2|] eqn:E2.
        { exists (Some e2). eexists. unfold ret. rewrite !emit_pair. split; [reflexivity |].
          eexists [], _. split; [reflexivity |]. split; [constructor | right; by eexists _, _]. }
        rewrite Hrun, !emit_pair. exists err. eexists. split; [reflexivity |].
        destruct err as [e|]; [| by subst evs].
        apply stops_prefix; [by repeat constructor; simpl; tauto |]. exact Hspec.
      * rewrite bind_ret, Hrun. exists err, evs. split; [reflexivity |].
        destruct err as [e|]; [exact Hspec | by subst evs].
Qed.

(** Descent through a task body for a property of the parts of the node
    that its calls do not touch. *)
Ltac frame_steps :=
  repeat first
    [ progress intros
    | solve [auto with preserves]
    | apply preserves_bind
    | apply preserves_forM_
    | apply preserves_defer
    | progress autounfold with collab
    | solve [first [apply preserves_call | apply preserves_callE];
             intros ? ?; simpl in *; tauto]
    | match goal with
      | |- preserves _ (match ?x with _ => _ end) => destruct x
      | |- preserves _ (let '(_, _) := ?x in _) => destruct x
      end ].

Lemma watchDm_prepare_frame env req n :
  preserves (fun n' => tSafes n' = tSafes n /\ queryShards n' = queryShards n
                       /\ dmlChannel2FlowGraph n' = dmlChannel2FlowGraph n
                       /\ deltaChannel2FlowGraph n' = deltaChannel2FlowGraph n)
    (watchDmChannelsTask.prepare env req).
Proof.
  unfold watchDmChannelsTask.prepare, watchDmChannelsTask.addPartitions. frame_steps.
Qed.

Lemma watchDm_addCheckPoints_frame env req seek n :
  preserves (fun n' => tSafes n' = tSafes n /\ queryShards n' = queryShards n
                       /\ dmlChannel2FlowGraph n' = dmlChannel2FlowGraph n
                       /\ deltaChannel2FlowGraph n' = deltaChannel2FlowGraph n
                       /\ historical n' = historical n
                       /\ collections (streaming n') = collections (streaming n)
                       /\ partitions (streaming n') = partitions (streaming n)
                       /\ segments (streaming n') = segments (streaming n))
    (watchDmChannelsTask.addCheckPoints env req seek).
Proof. unfold watchDmChannelsTask.addCheckPoints. frame_steps. Qed.

Lemma watchDm_addCheckPoints_attached env req seek :
  emits (fun ev => ~ attachFailed ev) (watchDmChannelsTask.addCheckPoints env req seek).
Proof.
  unfold watchDmChannelsTask.addCheckPoints. emits_steps; apply emits_call; simpl; tauto.
Qed.

Lemma watchDm_finish_attached env req fgs :
  emits (fun ev => ~ attachFailed ev) (watchDmChannelsTask.finish env req fgs).
Proof.
  unfold watchDmChannelsTask.finish, watchDmChannelsTask.watchShard.
  emits_steps; first [apply emits_call | apply emits_callE]; simpl; tauto.
Qed.

Lemma watchDm_watch_stops env req n :
  Exists attachFailed (trace (watchDmChannelsTask.watch env req n)) ->
  exists e pre ev closed removed,
    result (watchDmChannelsTask.watch env req n) = Fail e
    /\ trace (watchDmChannelsTask.watch env req n)
       = pre ++ [ev] ++ (EvFlowGraphClose DML <$> closed) ++ [EvRemoveFlowGraphs DML removed]
    /\ Forall (fun ev => ~ attachFailed ev) pre
    /\ ((exists ch p s, ev = EvConsumeFlowGraph ch p s (Some e))
        \/ (exists ch pos, ev = EvSeekQueryNodeFlowGraph ch pos (Some e)))
    /\ NoDup closed
    /\ (forall ch, ch ∈ closed <-> ch ∈ watchDmChannelsTask.vChannels req)
    /\ (forall ch, ch ∈ removed <-> ch ∈ watchDmChannelsTask.vChannels req)
    /\ tSafes (final (watchDmChannelsTask.watch env req n)) = tSafes n
    /\ queryShards (final (watchDmChannelsTask.watch env req n)) = queryShards n
    /\ deltaChannel2FlowGraph (final (watchDmChannelsTask.watch env req n))
       = deltaChannel2FlowGraph n.
Proof.
  unfold watchDmChannelsTask.watch.
  destruct (watchDmChannelsTask.groupChannels _ _) as [seek consume].
  intros Hex.
  pose proof (watchDm_addCheckPoints_attached env req seek n) as Hcp.
  pose proof (watchDm_addCheckPoints_frame env req seek n n) as Hfr.
  apply peel in Hex as ([] & _ & -> & Hex).
  2: { apply watchDm_addCheckPoints_attached. }
  destruct Hfr as (Hts & Hqs & _ & Hdl & _); [done |].
  set (n1 := final (watchDmChannelsTask.addCheckPoints env req seek n)) in *.
  set (evs1 := trace (watchDmChannelsTask.addCheckPoints env req seek n)) in *.
  revert Hex. unfold addFlowGraphs. rewrite bind_assoc, bind_callE.
  destruct (addFlowGraphs_err env DML _ _) as [e|] eqn:Eadd.
  { rewrite bind_ret. simpl check. rewrite bind_throw, emit_pair. unfold trace. simpl.
    intros Hex. exfalso. apply Exists_cons in Hex as [Hex | Hex]; [done |].
    by apply Exists_nil in Hex. }
  rewrite bind_ret. simpl check. rewrite bind_ret.
  set (n2 := withFlowGraphs DML _ n1).
  destruct (watchDm_asConsumer_stops env req seek consume
              (rangeMap env [3%nat]
                 (newFlowGraphs DML (WatchDmChannelsRequest.CollectionID req)
                    (watchDmChannelsTask.vChannels req))) n2)
    as (err & evs & Hrun & Hspec).
  rewrite (bind_run _ _ _ _ _ _ Hrun). destruct err as [e|].
  - intros _. destruct Hspec as (pre & ev & -> & Hpre & Hev).
    rewrite watchDm_rollback_run, !emit_pair. unfold result, final, trace. simpl.
    exists e, (evs1 ++ EvAddFlowGraphs DML (WatchDmChannelsRequest.CollectionID req)
                         (watchDmChannelsTask.vChannels req) None :: pre), ev,
      (rangeKeys env [4%nat]
         (newFlowGraphs DML (WatchDmChannelsRequest.CollectionID req)
            (watchDmChannelsTask.vChannels req))),
      (rangeKeys env [5%nat]
         (newFlowGraphs DML (WatchDmChannelsRequest.CollectionID req)
            (watchDmChannelsTask.vChannels req))).
    split; [done |]. split; [by rewrite <- !app_assoc |].
    split; [apply Forall_app; split; [done | constructor; [simpl; tauto | done]] |].
    split; [done |]. split; [apply rangeKeys_NoDup |].
    split; [intros ch; apply rangeKeys_newFlowGraphs |].
    split; [intros ch; apply rangeKeys_newFlowGraphs |]. done.
  - intros Hex. exfalso. rewrite !trace_emit in Hex.
    apply Exists_cons in Hex as [Hex | Hex]; [done |].
    apply Exists_app in Hex as [Hex | Hex].
    + subst evs. apply Exists_exists in Hex as (ev & Hin & Hev).
      apply list_elem_of_bind in Hin as ([ch fg] & Hin & _).
      apply elem_of_app in Hin as [Hin | Hin].
      * destruct (bool_decide _); [| by apply elem_of_nil in Hin].
        apply list_elem_of_singleton in Hin as ->. done.
      * destruct (seek !! ch); [| by apply elem_of_nil in Hin].
        apply list_elem_of_singleton in Hin as ->. done.
    + revert Hex. apply not_Exists_emits, watchDm_finish_attached.
Qed.

(** X7, lines 381-414 and 293-299: in every WatchDmChannels execution in
    which a consumeFlowGraph or seekQueryNodeFlowGraph call fails, that
    call is the only failed one and nothing follows it but the clean-up,
    in this order: one Close per flow-graph of the request, one
    removeFlowGraphsByDMLChannels naming them all, and one removeSegment
    per growing segment that was loaded. Execute returns the error of the
    failed call, and the tSafes, the query shards and the delta
    flow-graphs are as they were. *)
Theorem WatchDm_rollback_order env (req : WatchDmChannelsRequest.t) n :
  Exists attachFailed (trace (watchDmChannelsTask.Execute env req n)) ->
  exists e pre ev closed removed segs,
    result (watchDmChannelsTask.Execute env req n) = Fail e
    /\ trace (watchDmChannelsTask.Execute env req n)
       = pre ++ [ev] ++ (EvFlowGraphClose DML <$> closed)
         ++ [EvRemoveFlowGraphs DML removed]
         ++ (EvRemoveSegment Streaming <$> (querypb.SegmentID <$> segs))
    /\ Forall (fun ev => ~ attachFailed ev) pre
    /\ ((exists ch p s, ev = EvConsumeFlowGraph ch p s (Some e))
        \/ (exists ch pos, ev = EvSeekQueryNodeFlowGraph ch pos (Some e)))
    /\ NoDup closed
    /\ (forall ch, ch ∈ closed <-> ch ∈ watchDmChannelsTask.vChannels req)
    /\ (forall ch, ch ∈ removed <-> ch ∈ watchDmChannelsTask.vChannels req)
    /\ watchDmChannelsTask.unFlushedSegments req = Some segs
    /\ tSafes (final (watchDmChannelsTask.Execute env req n)) = tSafes n
    /\ queryShards (final (watchDmChannelsTask.Execute env req n)) = queryShards n
    /\ deltaChannel2FlowGraph (final (watchDmChannelsTask.Execute env req n))
       = deltaChannel2FlowGraph n.
Proof.
  unfold watchDmChannelsTask.Execute. intros Hex.
  pose proof (watchDm_prepare_emits (fun ev => ~ attachFailed ev) env req
                ltac:(intros; simpl; tauto) ltac:(intros; simpl; tauto)
                ltac:(intros; simpl; tauto) ltac:(intros; simpl; tauto) n) as Hprep.
  pose proof (watchDm_prepare_frame env req n n) as Hfr.
  apply peel in Hex as (ids & Hids & -> & Hex).
  2: { apply watchDm_prepare_emits; intros; simpl; tauto. }
  apply watchDm_prepare_returns in Hids as [(segs & Hsegs & ->) _].
  destruct Hfr as (Hts & Hqs & _ & Hdl); [done |].
  set (n1 := final (watchDmChannelsTask.prepare env req n)) in *.
  set (evs1 := trace (watchDmChannelsTask.prepare env req n)) in *.
  rewrite defer_run in Hex |- *. unfold trace at 1 in Hex. simpl in Hex.
  apply Exists_app in Hex as [Hex | Hex].
  2: { exfalso. revert Hex. apply not_Exists_emits.
       unfold watchDmChannelsTask.removeGrowing.
       emits_steps; apply emits_call; simpl; tauto. }
  destruct (watchDm_watch_stops env req n1 Hex)
    as (e & pre & ev & closed & removed & Hres & Htr & Hpre & Hev & Hnd & Hcl & Hrm
        & Hts' & Hqs' & Hdl').
  rewrite Hres, Htr. simpl watchDmChannelsTask.removeGrowing. rewrite removeSegments_run.
  set (n2 := final (watchDmChannelsTask.watch env req n1)) in *.
  rewrite emit_pair. unfold result, final, trace. simpl.
  exists e, (evs1 ++ pre), ev, closed, removed, segs.
  split; [done |].
  split; [rewrite <- ?app_assoc; simpl; rewrite <- ?app_assoc; reflexivity |].
  split; [by apply Forall_app |]. split; [done |]. split; [done |]. split; [done |].
  split; [done |]. split; [done |].
  split; [by rewrite Hts' |]. split; [by rewrite Hqs' | by rewrite Hdl'].
Qed.

Lemma WatchDm_rollback_order_witness :
  exists e pre ev closed removed segs,
    result rollbackRun = Fail e
    /\ trace rollbackRun
       = pre ++ [ev] ++ (EvFlowGraphClose DML <$> closed)
         ++ [EvRemoveFlowGraphs DML removed]
         ++ (EvRemoveSegment Streaming <$> (querypb.SegmentID <$> segs)).
Proof.
  assert (Exists attachFailed (trace rollbackRun)) as Hex.
  { vm_compute. repeat first [apply Exists_cons_hd; exact I | apply Exists_cons_tl]. }
  destruct (WatchDm_rollback_order seekFailsEnv (watchDm100 (Some base1) [dmlInfo [] []])
              emptyNode Hex)
    as (e & pre & ev & closed & removed & segs & Hres & Htr & _).
  exists e, pre, ev, closed, removed, segs. split; [exact Hres | exact Htr].
Defined.

(** * WatchDmChannels: the stages of Execute *)

Lemma addShardClusters_run cid rid l n :
  forM_ l (addShardCluster cid rid) n
  = (Ok tt, withShardClusters (fun l0 => l0 ++ ((fun ch => (cid, rid, ch)) <$> l)) n,
     EvAddShardCluster cid rid <$> l).
Proof.
  revert n. induction l as [|ch l IH]; intros n; simpl.
  - unfold ret. do 2 f_equal. destruct n; unfold withShardClusters; simpl. f_equal.
    by rewrite app_nil_r.
  - unfold addShardCluster. rewrite bind_call, IH. unfold emit, result, final, trace; simpl.
    do 2 f_equal. unfold withShardClusters; simpl. f_equal. by rewrite <- app_assoc.
Qed.

Lemma sameButPartitions_refl n : sameButPartitions n n.
Proof. by repeat split. Qed.

Lemma watchDm_addPartitions_run env lreq cid n :
  exists n' evs,
    watchDmChannelsTask.addPartitions env lreq cid n = (Ok tt, n', evs)
    /\ Forall isSetup evs /\ sameButPartitions n n'.
Proof.
  exists (final (watchDmChannelsTask.addPartitions env lreq cid n)),
    (trace (watchDmChannelsTask.addPartitions env lreq cid n)).
  split; [| split].
  - rewrite (run_eta (watchDmChannelsTask.addPartitions env lreq cid n)) at 1.
    do 2 f_equal. apply succeeds_unit.
    unfold watchDmChannelsTask.addPartitions, addPartition.
    repeat first [progress intros | solve [auto with succeeds] | apply succeeds_bind
                 | apply succeeds_forM_].
  - revert n. change (emits isSetup (watchDmChannelsTask.addPartitions env lreq cid)).
    unfold watchDmChannelsTask.addPartitions. emits_steps.
  - generalize (sameButPartitions_refl n). generalize n at 1 3. intros n0.
    revert n.
    change (preserves (sameButPartitions n0) (watchDmChannelsTask.addPartitions env lreq cid)).
    unfold watchDmChannelsTask.addPartitions, sameButPartitions. frame_steps.
Qed.

Lemma setUp_addCollections cid sch n :
  setUp cid n
    (withReplica Historical
       (withCollections (fun cs => match cs !! cid with
                                   | Some _ => cs
                                   | None => <[cid := newCollection cid sch]> cs
                                   end))
       (withReplica Streaming
          (withCollections (fun cs => match cs !! cid with
                                      | Some _ => cs
                                      | None => <[cid := newCollection cid sch]> cs
                                      end)) n)).
Proof.
  split; [| split; [| done]].
  - split; simpl; destruct (collections _ !! cid) eqn:E; rewrite ?E; try done;
      rewrite lookup_insert_eq; done.
  - intros k id c Hc. destruct k; simpl in *;
      (destruct (collections _ !! cid) eqn:E; [done |]);
      rewrite lookup_insert_ne; [done | congruence | done | congruence].
Qed.

Lemma setUp_shardClusters cid f n n' :
  setUp cid n n' -> setUp cid n (withShardClusters f n').
Proof. intros H. exact H. Qed.

Lemma setUp_sameButPartitions cid n n0 n1 :
  setUp cid n n0 -> sameButPartitions n0 n1 -> setUp cid n n1.
Proof.
  intros ([[s Hs] [h Hh]] & Hkeep & H1 & H2 & H3 & H4 & H5 & H6 & H7 & H8)
         (P1 & P2 & P3 & P4 & P5 & P6 & P7 & P8 & P9 & P10 & _).
  split; [| split].
  - split; [rewrite P1; by eexists | rewrite P4; by eexists].
  - intros k id c Hc. specialize (Hkeep k id c Hc). destruct k; simpl in *; congruence.
  - repeat split; congruence.
Qed.

Lemma Forall_isSetup_shardClusters cid rid (l : list Channel) :
  Forall isSetup (EvAddShardCluster cid rid <$> l).
Proof. apply Forall_fmap, Forall_forall. by intros ch _. Qed.

(** Lines 190-290: how the first stage of Execute ends. On a repeated
    channel name it returns the length error, having called nothing. It
    panics at a nil Schema, at a nil unflushed segment and at a nil Base,
    having registered at most collections, shard clusters and partitions.
    Otherwise its last call is the loading of the growing segments, whose
    error, if any, it returns. *)
Lemma watchDm_prepare_outcome env (req : WatchDmChannelsRequest.t) n :
  (~ NoDup (watchDmChannelsTask.vChannels req)
   /\ watchDmChannelsTask.prepare env req n
      = (Fail (ErrIllegalChannelLength (WatchDmChannelsRequest.CollectionID req)), n, []))
  \/ (NoDup (watchDmChannelsTask.vChannels req)
      /\ exists pre n1,
           Forall isSetup pre
           /\ ((watchDmChannelsTask.prepare env req n = (Panic, n1, pre)
                /\ (WatchDmChannelsRequest.Schema req = None
                    \/ watchDmChannelsTask.unFlushedSegments req = None
                    \/ WatchDmChannelsRequest.Base req = None))
               \/ exists base segs,
                    WatchDmChannelsRequest.Base req = Some base
                    /\ watchDmChannelsTask.unFlushedSegments req = Some segs
                    /\ setUp (WatchDmChannelsRequest.CollectionID req) n n1
                    /\ watchDmChannelsTask.prepare env req n
                       = (match loadSegment_err env
                                  (watchDmChannelsTask.loadRequest req base segs)
                                  segmentTypeGrowing with
                          | Some e => Fail e
                          | None => Ok (querypb.SegmentID <$> segs)
                          end,
                          match loadSegment_err env
                                  (watchDmChannelsTask.loadRequest req base segs)
                                  segmentTypeGrowing with
                          | Some _ => n1
                          | None =>
                              withReplica Streaming
                                (withSegments (fun s =>
                                   list_to_set (querypb.SegmentID <$> segs) ∪ s)) n1
                          end,
                          pre ++ [EvLoadSegment (watchDmChannelsTask.loadRequest req base segs)
                                    segmentTypeGrowing
                                    (loadSegment_err env
                                       (watchDmChannelsTask.loadRequest req base segs)
                                       segmentTypeGrowing)]))).
Proof.
  destruct (decide (NoDup (watchDmChannelsTask.vChannels req))) as [Hnd|Hnd].
  2: { left. split; [done |]. unfold watchDmChannelsTask.prepare.
       destruct (negb _) eqn:E; [done |]. by apply (proj1 (watchDm_length_check env req)) in E. }
  right. split; [done |]. unfold watchDmChannelsTask.prepare.
  rewrite (proj2 (watchDm_length_check env req) Hnd).
  destruct (WatchDmChannelsRequest.Schema req) as [sch|] eqn:Hsch.
  2: { exists [], n. split; [constructor |]. left. split; [done | by left]. }
  simpl deref. rewrite bind_ret. unfold addCollection. rewrite !bind_call.
  rewrite (bind_run _ _ _ _ _ _ (addShardClusters_run _ _ _ _)).
  pose proof (setUp_addCollections (WatchDmChannelsRequest.CollectionID req) (Some sch) n)
    as Hn0.
  apply (setUp_shardClusters _
           (fun l0 => l0 ++ ((fun ch => (WatchDmChannelsRequest.CollectionID req,
                                         WatchDmChannelsRequest.ReplicaID req, ch))
                             <$> watchDmChannelsTask.vChannels req))) in Hn0.
  set (n0 := withShardClusters _ _) in *.
  pose proof (Forall_isSetup_shardClusters (WatchDmChannelsRequest.CollectionID req)
                (WatchDmChannelsRequest.ReplicaID req) (watchDmChannelsTask.vChannels req))
    as Hshard.
  destruct (watchDmChannelsTask.unFlushedSegments req) as [segs|] eqn:Hsegs.
  2: { simpl deref. rewrite bind_panic, !emit_pair. eexists _, n0. split; cycle 1.
       - left. split; [reflexivity | right; by left].
       - rewrite app_nil_r. repeat constructor. exact Hshard. }
  simpl deref. rewrite bind_ret.
  destruct (WatchDmChannelsRequest.Base req) as [base|] eqn:Hbase.
  2: { simpl deref. rewrite bind_panic, !emit_pair. eexists _, n0. split; cycle 1.
       - left. split; [reflexivity | right; by right].
       - rewrite app_nil_r. repeat constructor. exact Hshard. }
  simpl deref. rewrite bind_ret.
  destruct (watchDm_addPartitions_run env (watchDmChannelsTask.loadRequest req base segs)
              (WatchDmChannelsRequest.CollectionID req) n0)
    as (n1 & evs & Hrun & Hevs & Hsame).
  rewrite (bind_run _ _ _ _ _ _ Hrun). unfold loadSegment. rewrite bind_callE.
  exists ([EvAddCollection Streaming (WatchDmChannelsRequest.CollectionID req)]
          ++ [EvAddCollection Historical (WatchDmChannelsRequest.CollectionID req)]
          ++ (EvAddShardCluster (WatchDmChannelsRequest.CollectionID req)
                (WatchDmChannelsRequest.ReplicaID req) <$> watchDmChannelsTask.vChannels req)
          ++ evs), n1.
  split.
  { repeat constructor. by apply Forall_app. }
  right. exists base, segs. split; [done |]. split; [done |].
  split; [by apply (setUp_sameButPartitions _ n n0 n1) |].
  destruct (loadSegment_err env _ _) as [e|].
  - simpl check. rewrite bind_throw, !emit_pair. by rewrite <- !app_assoc.
  - simpl check. rewrite bind_ret. unfold ret. rewrite !emit_pair.
    by rewrite app_nil_r, <- !app_assoc.
Qed.

Lemma Forall_not_Exists {X} (P Q : X -> Prop) (l : list X) :
  Forall P l -> (forall x, P x -> ~ Q x) -> ~ Exists Q l.
Proof.
  intros Hall Hpq Hex. apply Exists_exists in Hex as (x & Hin & Hq).
  rewrite Forall_forall in Hall. by apply (Hpq x (Hall x Hin)).
Qed.

(** What runs once the growing segments are loaded: the deferred removal
    and the rest of Execute. *)
Lemma watchDm_armed_emits (P : Event -> Prop) env req ids :
  (forall k c l, P (EvAddExcludedSegments k c l)) ->
  (forall k c l e, P (EvAddFlowGraphs k c l e)) ->
  (forall ch p s e, P (EvConsumeFlowGraph ch p s e)) ->
  (forall ch pos e, P (EvSeekQueryNodeFlowGraph ch pos e)) ->
  (forall k ch, P (EvFlowGraphClose k ch)) ->
  (forall k l, P (EvRemoveFlowGraphs k l)) ->
  (forall k c l, P (EvAddVChannels k c l)) ->
  (forall k c l, P (EvAddPChannels k c l)) ->
  (forall k c l, P (EvSetLoadType k c l)) ->
  (forall ch, P (EvAddTSafe ch)) ->
  (forall c ch r e, P (EvAddQueryShard c ch r e)) ->
  (forall ch e, P (EvWatchDMLTSafe ch e)) ->
  (forall k ch, P (EvFlowGraphStart k ch)) ->
  (forall k id, P (EvRemoveSegment k id)) ->
  emits P (defer (watchDmChannelsTask.removeGrowing ids) (watchDmChannelsTask.watch env req)).
Proof.
  intros. unfold watchDmChannelsTask.watch, watchDmChannelsTask.removeGrowing,
    watchDmChannelsTask.addCheckPoints, watchDmChannelsTask.rollback,
    watchDmChannelsTask.finish, watchDmChannelsTask.watchShard.
  emits_steps; try (apply asConsumer_emits; done);
    first [apply emits_call | apply emits_callE]; auto.
Qed.

(** X8, lines 282-299: when the loading of the growing segments fails,
    Execute returns the loader's error at once. The failed call is its
    last; before it only collections, shard clusters and partitions were
    registered, and they stay registered: nothing is excluded, no
    flow-graph is created, and no segment is removed, the deferred
    removal not being armed yet. *)
Theorem WatchDm_load_failure env (req : WatchDmChannelsRequest.t) n :
  Exists loadFailed (trace (watchDmChannelsTask.Execute env req n)) ->
  exists e pre base segs,
    WatchDmChannelsRequest.Base req = Some base
    /\ watchDmChannelsTask.unFlushedSegments req = Some segs
    /\ loadSegment_err env (watchDmChannelsTask.loadRequest req base segs) segmentTypeGrowing
       = Some e
    /\ result (watchDmChannelsTask.Execute env req n) = Fail e
    /\ trace (watchDmChannelsTask.Execute env req n)
       = pre ++ [EvLoadSegment (watchDmChannelsTask.loadRequest req base segs)
                   segmentTypeGrowing (Some e)]
    /\ Forall isSetup pre
    /\ holdsCollection (WatchDmChannelsRequest.CollectionID req)
         (final (watchDmChannelsTask.Execute env req n))
    /\ segments (streaming (final (watchDmChannelsTask.Execute env req n)))
       = segments (streaming n)
    /\ excludedSegments (streaming (final (watchDmChannelsTask.Execute env req n)))
       = excludedSegments (streaming n)
    /\ dmlChannel2FlowGraph (final (watchDmChannelsTask.Execute env req n))
       = dmlChannel2FlowGraph n
    /\ tSafes (final (watchDmChannelsTask.Execute env req n)) = tSafes n
    /\ queryShards (final (watchDmChannelsTask.Execute env req n)) = queryShards n.
Proof.
  unfold watchDmChannelsTask.Execute. intros Hex.
  assert (forall l, Forall isSetup l -> ~ Exists loadFailed l) as Hsetup.
  { intros l Hl. apply (Forall_not_Exists _ _ _ Hl).
    intros x Hp Hq. destruct x; simpl in *; tauto. }
  destruct (watchDm_prepare_outcome env req n)
    as [[Hnd Hrun] | (Hnd & pre & n1 & Hpre & [[Hrun _] | (base & segs & Hb & Hs & Hset & Hrun)])].
  - exfalso. revert Hex. unfold bind. rewrite Hrun. apply Exists_nil.
  - exfalso. revert Hex. unfold bind. rewrite Hrun. by apply Hsetup.
  - destruct (loadSegment_err env _ _) as [e|] eqn:Eload.
    + exists e, pre, base, segs. unfold bind. rewrite Hrun. unfold result, final, trace. simpl.
      destruct Hset as (Hholds & _ & H1 & H2 & _ & _ & H5 & _ & H7 & H8).
      repeat (split; [done |]). done.
    + exfalso. revert Hex. rewrite (bind_run _ _ _ _ _ _ Hrun), trace_emit.
      intros [Hex | Hex]%Exists_app.
      * apply Exists_app in Hex as [Hex | Hex]; [by apply (Hsetup pre) |].
        apply Exists_cons in Hex as [Hex | Hex]; [done | by apply Exists_nil in Hex].
      * revert Hex. apply not_Exists_emits. apply watchDm_armed_emits; intros; simpl; tauto.
Qed.

Lemma WatchDm_load_failure_witness :
  exists e,
    result (watchDmChannelsTask.Execute loadFailsEnv watchDmScenario emptyNode) = Fail e
    /\ segments (streaming (final (watchDmChannelsTask.Execute loadFailsEnv watchDmScenario
                                     emptyNode)))
       = segments (streaming emptyNode).
Proof.
  assert (Exists loadFailed
            (trace (watchDmChannelsTask.Execute loadFailsEnv watchDmScenario emptyNode)))
    as Hex.
  { vm_compute. repeat first [apply Exists_cons_hd; exact I | apply Exists_cons_tl]. }
  destruct (WatchDm_load_failure loadFailsEnv watchDmScenario emptyNode Hex)
    as (e & pre & base & segs & _ & _ & _ & Hres & _ & _ & _ & Hseg & _).
  exists e. split; [exact Hres | exact Hseg].
Defined.

Lemma watchDm_addCheckPoints_run env (req : WatchDmChannelsRequest.t) seek fl dr n :
  watchDmChannelsTask.flushedCheckPointInfos env req seek = Some fl ->
  watchDmChannelsTask.droppedCheckPointInfos env req seek = Some dr ->
  watchDmChannelsTask.addCheckPoints env req seek n
  = (Ok tt,
     withReplica Streaming
       (withExcluded (excludedAfter (WatchDmChannelsRequest.CollectionID req)
                        (watchDmChannelsTask.unFlushedCheckPointInfos req ++ fl ++ dr))) n,
     [EvAddExcludedSegments Streaming (WatchDmChannelsRequest.CollectionID req)
        (watchDmChannelsTask.unFlushedCheckPointInfos req);
      EvAddExcludedSegments Streaming (WatchDmChannelsRequest.CollectionID req) fl;
      EvAddExcludedSegments Streaming (WatchDmChannelsRequest.CollectionID req) dr]).
Proof.
  intros Hfl Hdr. unfold watchDmChannelsTask.addCheckPoints, addExcludedSegments.
  rewrite bind_call, Hfl. simpl deref. rewrite bind_ret, bind_call, Hdr. simpl deref.
  rewrite bind_ret. unfold call. rewrite !emit_pair. do 2 f_equal.
  unfold withReplica, withExcluded, excludedAfter. simpl. do 2 f_equal.
  rewrite !lookup_insert_eq. simpl. rewrite !insert_insert_eq. by rewrite <- !app_assoc.
Qed.

Lemma watchDm_addCheckPoints_panics env (req : WatchDmChannelsRequest.t) seek n :
  watchDmChannelsTask.flushedCheckPointInfos env req seek = None
  \/ watchDmChannelsTask.droppedCheckPointInfos env req seek = None ->
  exists n' evs,
    watchDmChannelsTask.addCheckPoints env req seek n = (Panic, n', evs)
    /\ Forall isExclude evs.
Proof.
  unfold watchDmChannelsTask.addCheckPoints, addExcludedSegments. rewrite bind_call.
  destruct (watchDmChannelsTask.flushedCheckPointInfos env req seek) as [fl|].
  - intros [? | Hdr]; [done |]. simpl deref. rewrite bind_ret, bind_call, Hdr. simpl deref.
    rewrite bind_panic, !emit_pair. eexists _, _. split; [reflexivity |]. by repeat constructor.
  - intros _. simpl deref. rewrite bind_panic, !emit_pair. eexists _, _.
    split; [reflexivity |]. by repeat constructor.
Qed.

Lemma bind_callE_id {B} err ev (f : option Error -> M B) n :
  bind (callE err ev (fun n => n)) f n = emit [ev err] (f err n).
Proof. rewrite bind_callE. by destruct err. Qed.

(** Lines 433-447, one iteration: it never fails; it leaves a query shard
    for the channel unless the service refuses to add one, and touches
    nothing but the query shards. *)
Lemma watchDm_watchShard_run env (req : WatchDmChannelsRequest.t) ch n :
  exists g evs,
    watchDmChannelsTask.watchShard env req ch n = (Ok tt, withQueryShards g n, evs)
    /\ (forall ch', is_Some (queryShards n !! ch') -> is_Some (g (queryShards n) !! ch'))
    /\ (addQueryShard_err env (WatchDmChannelsRequest.CollectionID req) ch
          (WatchDmChannelsRequest.ReplicaID req) = None ->
        is_Some (g (queryShards n) !! ch))
    /\ (forall P : Event -> Prop,
          (forall c ch' r e, P (EvAddQueryShard c ch' r e)) ->
          (forall ch' e, P (EvWatchDMLTSafe ch' e)) -> Forall P evs).
Proof.
  unfold watchDmChannelsTask.watchShard, hasQueryShard, addQueryShard, getQueryShard,
    watchDMLTSafe.
  rewrite bind_gets. cbv beta.
  destruct (queryShards n !! ch) as [qs|] eqn:E.
  - rewrite bool_decide_eq_true_2 by done. cbn [negb]. rewrite bind_ret, bind_gets. cbv beta.
    rewrite E. simpl deref. rewrite bind_ret, bind_callE_id.
    exists (fun m => m). eexists.
    split; [| split; [done | split; [by rewrite E |]]].
    + unfold ret. rewrite emit_pair. by destruct n.
    + intros P H1 H2. repeat constructor. apply H2.
  - rewrite bool_decide_eq_false_2 by (by intros [? ?]). cbn [negb].
    rewrite bind_assoc, bind_callE.
    destruct (addQueryShard_err env _ ch _) as [e|] eqn:Eadd.
    + rewrite bind_ret, bind_gets. cbv beta. rewrite E. unfold ret. rewrite emit_pair.
      exists (fun m => m). eexists.
      split; [by destruct n |]. split; [done |]. split; [done |].
      intros P H1 H2. repeat constructor. apply H1.
    + rewrite bind_ret, bind_gets. cbv beta.
      change (queryShards (withQueryShards ?f n)) with (f (queryShards n)).
      rewrite lookup_insert_eq.
      simpl deref. rewrite bind_ret, bind_callE_id. unfold ret. rewrite !emit_pair.
      eexists (insert ch _). eexists.
      split; [reflexivity |]. split; [| split].
      * intros ch' Hch'. apply lookup_insert_is_Some'. by right.
      * intros _. rewrite lookup_insert_eq. by eexists.
      * intros P H1 H2. repeat constructor; [apply H1 | apply H2].
Qed.

Lemma watchDm_watchShards_run env (req : WatchDmChannelsRequest.t) l n :
  exists g evs,
    forM_ l (watchDmChannelsTask.watchShard env req) n = (Ok tt, withQueryShards g n, evs)
    /\ (forall ch', is_Some (queryShards n !! ch') -> is_Some (g (queryShards n) !! ch'))
    /\ (forall ch, ch ∈ l ->
          addQueryShard_err env (WatchDmChannelsRequest.CollectionID req) ch
            (WatchDmChannelsRequest.ReplicaID req) = None ->
          is_Some (g (queryShards n) !! ch))
    /\ (forall P : Event -> Prop,
          (forall c ch' r e, P (EvAddQueryShard c ch' r e)) ->
          (forall ch' e, P (EvWatchDMLTSafe ch' e)) -> Forall P evs).
Proof.
  revert n. induction l as [|ch l IH]; intros n.
  - exists (fun m => m), []. split; [by destruct n |]. split; [done |].
    split; [intros ch Hch; by apply elem_of_nil in Hch | by constructor].
  - cbn [forM_].
    destruct (watchDm_watchShard_run env req ch n) as (g1 & evs1 & Hrun1 & Hk1 & Ha1 & Hp1).
    destruct (IH (withQueryShards g1 n)) as (g2 & evs2 & Hrun2 & Hk2 & Ha2 & Hp2).
    rewrite (bind_run _ _ _ _ _ _ Hrun1), Hrun2, emit_pair.
    exists (fun m => g2 (g1 m)), (evs1 ++ evs2).
    split; [done |]. split; [| split].
    + intros ch' Hch'. by apply Hk2, Hk1.
    + intros ch' [-> | Hin]%elem_of_cons Herr.
      * by apply Hk2, Ha1.
      * by apply Ha2.
    + intros P H1 H2. apply Forall_app. split; [by apply Hp1 | by apply Hp2].
Qed.

Lemma watchDm_finish_run env (req : WatchDmChannelsRequest.t) n :
  exists g evs,
    watchDmChannelsTask.finish env req
      (newFlowGraphs DML (WatchDmChannelsRequest.CollectionID req)
         (watchDmChannelsTask.vChannels req)) n
    = (Ok tt,
       withQueryShards g
         (withTSafes (fun s => list_to_set (watchDmChannelsTask.vChannels req) ∪ s)
            (watchDmMetadata env req n)),
       watchDmUpdates env req ++ evs
       ++ (EvFlowGraphStart DML
             <$> rangeKeys env [6%nat]
                   (newFlowGraphs DML (WatchDmChannelsRequest.CollectionID req)
                      (watchDmChannelsTask.vChannels req))))
    /\ (forall ch', is_Some (queryShards n !! ch') -> is_Some (g (queryShards n) !! ch'))
    /\ (forall ch, ch ∈ watchDmChannelsTask.vChannels req ->
          addQueryShard_err env (WatchDmChannelsRequest.CollectionID req) ch
            (WatchDmChannelsRequest.ReplicaID req) = None ->
          is_Some (g (queryShards n) !! ch))
    /\ (forall P : Event -> Prop,
          (forall c ch' r e, P (EvAddQueryShard c ch' r e)) ->
          (forall ch' e, P (EvWatchDMLTSafe ch' e)) -> Forall P evs).
Proof.
  unfold watchDmChannelsTask.finish, addVChannels, addPChannels, setLoadType, onCollection.
  rewrite !bind_call, (bind_run _ _ _ _ _ _ (addTSafes_run _ _)), !emit_emit.
  set (n1 := withTSafes _ _).
  destruct (watchDm_watchShards_run env req (watchDmChannelsTask.vChannels req) n1)
    as (g & evs & Hrun & Hk & Ha & Hp).
  rewrite (bind_run _ _ _ _ _ _ Hrun).
  unfold flowGraphStart. rewrite rangeMap_newFlowGraphs_run, !emit_pair.
  exists g, evs. split; [| done]. subst n1. rewrite <- !app_assoc. reflexivity.
Qed.

Lemma watchDm_watch_success env (req : WatchDmChannelsRequest.t) n :
  result (watchDmChannelsTask.watch env req n) = Ok tt ->
  exists fl dr g evs,
    watchDmChannelsTask.flushedCheckPointInfos env req
      (watchDmChannelsTask.groupChannels (watchDmChannelsTask.consumeSubName env req)
         (WatchDmChannelsRequest.Infos req)).1 = Some fl
    /\ watchDmChannelsTask.droppedCheckPointInfos env req
         (watchDmChannelsTask.groupChannels (watchDmChannelsTask.consumeSubName env req)
            (WatchDmChannelsRequest.Infos req)).1 = Some dr
    /\ addFlowGraphs_err env DML (WatchDmChannelsRequest.CollectionID req)
         (watchDmChannelsTask.vChannels req) = None
    /\ watchDmChannelsTask.watch env req n
       = (Ok tt, withQueryShards g (watched env req fl dr n), watchTrace env req fl dr evs)
    /\ (forall ch', is_Some (queryShards n !! ch') -> is_Some (g (queryShards n) !! ch'))
    /\ (forall ch, ch ∈ watchDmChannelsTask.vChannels req ->
          addQueryShard_err env (WatchDmChannelsRequest.CollectionID req) ch
            (WatchDmChannelsRequest.ReplicaID req) = None ->
          is_Some (g (queryShards n) !! ch))
    /\ (forall P : Event -> Prop,
          (forall c ch' r e, P (EvAddQueryShard c ch' r e)) ->
          (forall ch' e, P (EvWatchDMLTSafe ch' e)) -> Forall P evs).
Proof.
  unfold watchDmChannelsTask.watch, watchTrace.
  destruct (watchDmChannelsTask.groupChannels _ _) as [seek consume]. cbn [fst snd].
  intros Hres.
  destruct (watchDmChannelsTask.flushedCheckPointInfos env req seek) as [fl|] eqn:Hfl.
  2: { exfalso. destruct (watchDm_addCheckPoints_panics env req seek n (or_introl Hfl))
         as (n' & evs & Hp & _).
       by rewrite (bind_run_panic _ _ _ _ _ Hp) in Hres. }
  destruct (watchDmChannelsTask.droppedCheckPointInfos env req seek) as [dr|] eqn:Hdr.
  2: { exfalso. destruct (watchDm_addCheckPoints_panics env req seek n (or_intror Hdr))
         as (n' & evs & Hp & _).
       by rewrite (bind_run_panic _ _ _ _ _ Hp) in Hres. }
  revert Hres.
  rewrite (bind_run _ _ _ _ _ _ (watchDm_addCheckPoints_run env req seek fl dr n Hfl Hdr)).
  unfold addFlowGraphs. rewrite bind_assoc, bind_callE.
  destruct (addFlowGraphs_err env DML _ _) as [e|] eqn:Eadd.
  { rewrite bind_ret. simpl check. by rewrite bind_throw. }
  rewrite bind_ret. simpl check. rewrite bind_ret.
  set (n2 := withFlowGraphs DML _ _).
  destruct (watchDm_asConsumer_stops env req seek consume
              (rangeMap env [3%nat]
                 (newFlowGraphs DML (WatchDmChannelsRequest.CollectionID req)
                    (watchDmChannelsTask.vChannels req))) n2)
    as (err & evs & Hrun & Hspec).
  rewrite (bind_run _ _ _ _ _ _ Hrun). destruct err as [e|].
  { by rewrite watchDm_rollback_run. }
  destruct (watchDm_finish_run env req n2) as (g & evsS & HrunF & Hk & Ha & Hp).
  rewrite HrunF, !emit_pair. intros _. subst evs.
  exists fl, dr, g, evsS. split; [done |]. split; [done |]. split; [done |].
  split; [reflexivity |]. done.
Qed.

(** The run of a WatchDmChannels that succeeds. *)
Lemma watchDm_Execute_success env (req : WatchDmChannelsRequest.t) n :
  result (watchDmChannelsTask.Execute env req n) = Ok tt ->
  exists base segs fl dr pre n1 g evs,
    NoDup (watchDmChannelsTask.vChannels req)
    /\ WatchDmChannelsRequest.Base req = Some base
    /\ watchDmChannelsTask.unFlushedSegments req = Some segs
    /\ Forall isSetup pre
    /\ setUp (WatchDmChannelsRequest.CollectionID req) n n1
    /\ watchDmChannelsTask.Execute env req n
       = (Ok tt,
          withQueryShards g
            (watched env req fl dr
               (withReplica Streaming
                  (withSegments (fun s => list_to_set (querypb.SegmentID <$> segs) ∪ s)) n1)),
          pre ++ [EvLoadSegment (watchDmChannelsTask.loadRequest req base segs)
                    segmentTypeGrowing None]
          ++ watchTrace env req fl dr evs)
    /\ (forall ch', is_Some (queryShards n !! ch') -> is_Some (g (queryShards n) !! ch'))
    /\ (forall ch, ch ∈ watchDmChannelsTask.vChannels req ->
          addQueryShard_err env (WatchDmChannelsRequest.CollectionID req) ch
            (WatchDmChannelsRequest.ReplicaID req) = None ->
          is_Some (g (queryShards n) !! ch))
    /\ (forall P : Event -> Prop,
          (forall c ch' r e, P (EvAddQueryShard c ch' r e)) ->
          (forall ch' e, P (EvWatchDMLTSafe ch' e)) -> Forall P evs).
Proof.
  unfold watchDmChannelsTask.Execute. intros Hres.
  destruct (watchDm_prepare_outcome env req n)
    as [[Hnd Hrun] | (Hnd & pre & n1 & Hpre & [[Hrun _] | (base & segs & Hb & Hs & Hset & Hrun)])].
  - exfalso. revert Hres. unfold bind. by rewrite Hrun.
  - exfalso. revert Hres. unfold bind. by rewrite Hrun.
  - destruct (loadSegment_err env _ _) as [e|] eqn:Eload.
    { exfalso. revert Hres. unfold bind. by rewrite Hrun. }
    revert Hres. rewrite (bind_run _ _ _ _ _ _ Hrun), result_emit, defer_run.
    unfold result at 1. cbn [fst snd]. intros Hw.
    destruct (watchDm_watch_success env req _ Hw)
      as (fl & dr & g & evs & Hfl & Hdr & Hadd & Hwrun & Hk & Ha & Hp).
    rewrite Hwrun. unfold result, final, trace. cbn [fst snd watchDmChannelsTask.removeGrowing].
    unfold ret. cbn [fst snd]. rewrite emit_pair.
    pose proof Hset as (_ & _ & _ & _ & _ & _ & _ & _ & _ & H8).
    exists base, segs, fl, dr, pre, n1, g, evs.
    split; [done |]. split; [done |]. split; [done |]. split; [done |].
    split; [exact Hset |].
    split; [by rewrite app_nil_r, <- !app_assoc |].
    change (queryShards (withReplica Streaming
              (withSegments (fun s => list_to_set (querypb.SegmentID <$> segs) ∪ s)) n1))
      with (queryShards n1) in Hk, Ha.
    rewrite H8 in Hk, Ha. done.
Qed.

(** * WatchDmChannels: what a successful execution leaves behind *)

Lemma appendNew_elem dst src x :
  x ∈ Collection.appendNew dst src <-> x ∈ dst \/ x ∈ src.
Proof.
  revert dst. induction src as [|c src IH]; intros dst; simpl.
  - split; [by left |]. intros [? | H]; [done | by apply elem_of_nil in H].
  - rewrite IH. destruct (bool_decide (c ∈ dst)) eqn:E.
    + apply bool_decide_eq_true in E. rewrite elem_of_cons. split; [tauto |].
      intros [? | [-> | ?]]; tauto.
    + rewrite elem_of_app, list_elem_of_singleton, elem_of_cons. tauto.
Qed.

Section Watched.
Context (env : Env) (req : WatchDmChannelsRequest.t) (fl dr : list datapb.SegmentPtr).
Context (m : QueryNode).

Lemma watched_dml :
  dmlChannel2FlowGraph (watched env req fl dr m)
  = newFlowGraphs DML (WatchDmChannelsRequest.CollectionID req)
      (watchDmChannelsTask.vChannels req) ∪ dmlChannel2FlowGraph m.
Proof. reflexivity. Qed.

Lemma watched_delta :
  deltaChannel2FlowGraph (watched env req fl dr m) = deltaChannel2FlowGraph m.
Proof. reflexivity. Qed.

Lemma watched_tSafes :
  tSafes (watched env req fl dr m)
  = list_to_set (watchDmChannelsTask.vChannels req) ∪ tSafes m.
Proof. reflexivity. Qed.

Lemma watched_queryShards : queryShards (watched env req fl dr m) = queryShards m.
Proof. reflexivity. Qed.

Lemma watched_segments k :
  segments (replica k (watched env req fl dr m)) = segments (replica k m).
Proof. by destruct k. Qed.

Lemma watched_partitions k :
  partitions (replica k (watched env req fl dr m)) = partitions (replica k m).
Proof. by destruct k. Qed.

Lemma watched_excluded :
  excludedSegments (streaming (watched env req fl dr m))
  = excludedAfter (WatchDmChannelsRequest.CollectionID req)
      (watchDmChannelsTask.unFlushedCheckPointInfos req ++ fl ++ dr)
      (excludedSegments (streaming m)).
Proof. reflexivity. Qed.

Lemma watched_collection k c :
  collections (replica k m) !! WatchDmChannelsRequest.CollectionID req = Some c ->
  exists c',
    collections (replica k (watched env req fl dr m)) !! WatchDmChannelsRequest.CollectionID req
    = Some c'
    /\ Collection.loadType c' = watchDmChannelsTask.lType req
    /\ Collection.vChannels c'
       = Collection.appendNew (Collection.vChannels c) (watchDmChannelsTask.vChannels req)
    /\ Collection.pChannels c'
       = Collection.appendNew (Collection.pChannels c) (watchDmChannelsTask.pChannels env req)
    /\ Collection.vDeltaChannels c' = Collection.vDeltaChannels c
    /\ Collection.releaseTime c' = Collection.releaseTime c.
Proof.
  intros Hc. unfold watched, watchDmMetadata, addVChannels, addPChannels, setLoadType,
    onCollection.
  rewrite !bind_call, !final_emit. unfold call, final. cbn [fst snd].
  destruct k; simpl in *; rewrite !lookup_alter_eq, Hc; simpl;
    eexists; (split; [reflexivity |]); done.
Qed.

End Watched.

(** X9, lines 229-455: after a WatchDmChannels that succeeds, every channel
    of the request has its DML flow-graph registered and its tSafe, and a
    query shard too when it had one or the service did not refuse to add
    one; both replicas hold the collection with the load type of the
    request and with the virtual and physical channels of the request
    among its channels; the growing segments that were loaded are in the
    streaming replica and every unflushed segment of the request is
    excluded there; the delta flow-graphs and the sealed segments are
    untouched. *)
Theorem WatchDm_success_state env (req : WatchDmChannelsRequest.t) n :
  result (watchDmChannelsTask.Execute env req n) = Ok tt ->
  (forall ch, ch ∈ watchDmChannelsTask.vChannels req ->
     dmlChannel2FlowGraph (final (watchDmChannelsTask.Execute env req n)) !! ch
     = Some {| fgKind := DML; fgCollectionID := WatchDmChannelsRequest.CollectionID req;
               fgChannel := ch |}
     /\ ch ∈ tSafes (final (watchDmChannelsTask.Execute env req n))
     /\ (is_Some (queryShards n !! ch)
         \/ addQueryShard_err env (WatchDmChannelsRequest.CollectionID req) ch
              (WatchDmChannelsRequest.ReplicaID req) = None ->
         is_Some (queryShards (final (watchDmChannelsTask.Execute env req n)) !! ch)))
  /\ (forall k, exists c,
        collections (replica k (final (watchDmChannelsTask.Execute env req n)))
          !! WatchDmChannelsRequest.CollectionID req = Some c
        /\ Collection.loadType c = watchDmChannelsTask.lType req
        /\ (forall ch, ch ∈ watchDmChannelsTask.vChannels req -> ch ∈ Collection.vChannels c)
        /\ (forall p, p ∈ watchDmChannelsTask.pChannels env req -> p ∈ Collection.pChannels c))
  /\ (exists segs,
        watchDmChannelsTask.unFlushedSegments req = Some segs
        /\ forall s, s ∈ segs ->
             querypb.SegmentID s
               ∈ segments (streaming (final (watchDmChannelsTask.Execute env req n))))
  /\ (exists l,
        excludedSegments (streaming (final (watchDmChannelsTask.Execute env req n)))
          !! WatchDmChannelsRequest.CollectionID req = Some l
        /\ forall s, s ∈ watchDmChannelsTask.unFlushedCheckPointInfos req -> s ∈ l)
  /\ deltaChannel2FlowGraph (final (watchDmChannelsTask.Execute env req n))
     = deltaChannel2FlowGraph n
  /\ segments (historical (final (watchDmChannelsTask.Execute env req n)))
     = segments (historical n).
Proof.
  intros Hres.
  destruct (watchDm_Execute_success env req n Hres)
    as (base & segs & fl & dr & pre & n1 & g & evs & Hnd & Hb & Hs & Hpre & Hset & Hrun
        & Hk & Ha & Hp).
  rewrite Hrun. unfold final. cbn [fst snd].
  destruct Hset as ([[sCol HsCol] [hCol HhCol]] & Hkeep & H1 & H2 & H3 & H4 & H5 & H6 & H7 & H8).
  set (n2 := withReplica Streaming _ n1).
  split; [| split; [| split; [| split; [| split]]]].
  - intros ch Hch. split; [| split].
    + change (dmlChannel2FlowGraph (watched env req fl dr n2) !! ch = Some
                {| fgKind := DML; fgCollectionID := WatchDmChannelsRequest.CollectionID req;
                   fgChannel := ch |}).
      rewrite watched_dml. apply lookup_union_Some_l.
      rewrite newFlowGraphs_lookup. by rewrite bool_decide_eq_true_2.
    + change (ch ∈ tSafes (watched env req fl dr n2)). rewrite watched_tSafes.
      apply elem_of_union. left. by apply elem_of_list_to_set.
    + change (is_Some (queryShards n !! ch)
              \/ addQueryShard_err env (WatchDmChannelsRequest.CollectionID req) ch
                   (WatchDmChannelsRequest.ReplicaID req) = None ->
              is_Some (g (queryShards n1) !! ch)).
      rewrite H8. intros [Hq | Herr]; [by apply Hk | by apply Ha].
  - intros k.
    assert (exists c, collections (replica k n2) !! WatchDmChannelsRequest.CollectionID req
                      = Some c) as [c Hc].
    { destruct k; simpl; by eexists. }
    destruct (watched_collection env req fl dr n2 k c Hc) as (c' & Hc' & Hlt & Hv & Hpc & _).
    exists c'. split; [destruct k; exact Hc' |]. split; [done |]. split.
    + intros ch Hch. rewrite Hv. apply appendNew_elem. by right.
    + intros p Hp'. rewrite Hpc. apply appendNew_elem. by right.
  - exists segs. split; [done |]. intros s Hin.
    change (querypb.SegmentID s ∈ segments (replica Streaming (watched env req fl dr n2))).
    rewrite watched_segments. simpl. apply elem_of_union. left.
    apply elem_of_list_to_set, list_elem_of_fmap. by exists s.
  - exists (default [] (excludedSegments (streaming n2)
                          !! WatchDmChannelsRequest.CollectionID req)
            ++ watchDmChannelsTask.unFlushedCheckPointInfos req ++ fl ++ dr).
    split.
    + change (excludedSegments (streaming (watched env req fl dr n2))
                !! WatchDmChannelsRequest.CollectionID req
              = Some (default [] (excludedSegments (streaming n2)
                                    !! WatchDmChannelsRequest.CollectionID req)
                      ++ watchDmChannelsTask.unFlushedCheckPointInfos req ++ fl ++ dr)).
      rewrite watched_excluded. unfold excludedAfter. apply lookup_insert_eq.
    + intros s Hin. rewrite !elem_of_app. right. by left.
  - change (deltaChannel2FlowGraph (watched env req fl dr n2) = deltaChannel2FlowGraph n).
    by rewrite watched_delta.
  - change (segments (replica Historical (watched env req fl dr n2)) = segments (historical n)).
    by rewrite watched_segments.
Qed.

Lemma WatchDm_success_state_witness :
  dmlChannel2FlowGraph loadedNode !! "by-dev-rootcoord-dml_0"
  = Some {| fgKind := DML; fgCollectionID := 100; fgChannel := "by-dev-rootcoord-dml_0" |}
  /\ "by-dev-rootcoord-dml_0" ∈ tSafes loadedNode.
Proof.
  assert (result (watchDmChannelsTask.Execute quietEnv watchDmScenario emptyNode) = Ok tt)
    as Hres by (vm_compute; reflexivity).
  destruct (proj1 (WatchDm_success_state quietEnv watchDmScenario emptyNode Hres)
              "by-dev-rootcoord-dml_0") as (Hfg & Hts & _); [left |].
  split; [exact Hfg | exact Hts].
Defined.

(** * WatchDmChannels: how the channels are attached *)

Lemma rangeMap_newFlowGraphs_elem env tag k cid chans ch fg :
  (ch, fg) ∈ rangeMap env tag (newFlowGraphs k cid chans)
  <-> ch ∈ chans /\ fg = {| fgKind := k; fgCollectionID := cid; fgChannel := ch |}.
Proof.
  rewrite rangeMap_elem, newFlowGraphs_lookup. destruct (decide (ch ∈ chans)) as [Hin|Hin].
  - rewrite bool_decide_eq_true_2 by done. split; [intros [= <-]; done | by intros [_ ->]].
  - rewrite bool_decide_eq_false_2 by done. split; [done | tauto].
Qed.




(** * WatchDmChannels: when the flow-graphs cannot be created *)

Lemma watchDm_attach_emits (P : Event -> Prop) env req seek consume fgs l :
  (forall ch p s e, P (EvConsumeFlowGraph ch p s e)) ->
  (forall ch pos e, P (EvSeekQueryNodeFlowGraph ch pos e)) ->
  (forall k ch, P (EvFlowGraphClose k ch)) ->
  (forall k l, P (EvRemoveFlowGraphs k l)) ->
  (forall k c l, P (EvAddVChannels k c l)) ->
  (forall k c l, P (EvAddPChannels k c l)) ->
  (forall k c l, P (EvSetLoadType k c l)) ->
  (forall ch, P (EvAddTSafe ch)) ->
  (forall c ch r e, P (EvAddQueryShard c ch r e)) ->
  (forall ch e, P (EvWatchDMLTSafe ch e)) ->
  (forall k ch, P (EvFlowGraphStart k ch)) ->
  emits P (bind (watchDmChannelsTask.asConsumer env req seek consume l)
             (fun err => match err with
                         | Some e => watchDmChannelsTask.rollback env fgs e
                         | None => watchDmChannelsTask.finish env req fgs
                         end)).
Proof.
  intros. unfold watchDmChannelsTask.rollback, watchDmChannelsTask.finish,
    watchDmChannelsTask.watchShard.
  emits_steps; try (apply asConsumer_emits; done);
    first [apply emits_call | apply emits_callE]; auto.
Qed.

Lemma watchDm_watch_addFlowGraphs_failed env (req : WatchDmChannelsRequest.t) n :
  Exists addFlowGraphsFailed (trace (watchDmChannelsTask.watch env req n)) ->
  exists e fl dr,
    addFlowGraphs_err env DML (WatchDmChannelsRequest.CollectionID req)
      (watchDmChannelsTask.vChannels req) = Some e
    /\ watchDmChannelsTask.watch env req n
       = (Fail e,
          withReplica Streaming
            (withExcluded (excludedAfter (WatchDmChannelsRequest.CollectionID req)
                             (watchDmChannelsTask.unFlushedCheckPointInfos req ++ fl ++ dr))) n,
          [EvAddExcludedSegments Streaming (WatchDmChannelsRequest.CollectionID req)
             (watchDmChannelsTask.unFlushedCheckPointInfos req);
           EvAddExcludedSegments Streaming (WatchDmChannelsRequest.CollectionID req) fl;
           EvAddExcludedSegments Streaming (WatchDmChannelsRequest.CollectionID req) dr;
           EvAddFlowGraphs DML (WatchDmChannelsRequest.CollectionID req)
             (watchDmChannelsTask.vChannels req) (Some e)]).
Proof.
  unfold watchDmChannelsTask.watch.
  destruct (watchDmChannelsTask.groupChannels _ _) as [seek consume].
  intros Hex.
  assert (forall l, Forall isExclude l -> ~ Exists addFlowGraphsFailed l) as Hexcl.
  { intros l Hl. apply (Forall_not_Exists _ _ _ Hl).
    intros x Hp Hq. destruct x; simpl in *; tauto. }
  destruct (watchDmChannelsTask.flushedCheckPointInfos env req seek) as [fl|] eqn:Hfl.
  2: { exfalso. destruct (watchDm_addCheckPoints_panics env req seek n (or_introl Hfl))
         as (n' & evs & Hp & Hevs).
       rewrite (bind_run_panic _ _ _ _ _ Hp) in Hex. by apply (Hexcl evs). }
  destruct (watchDmChannelsTask.droppedCheckPointInfos env req seek) as [dr|] eqn:Hdr.
  2: { exfalso. destruct (watchDm_addCheckPoints_panics env req seek n (or_intror Hdr))
         as (n' & evs & Hp & Hevs).
       rewrite (bind_run_panic _ _ _ _ _ Hp) in Hex. by apply (Hexcl evs). }
  revert Hex.
  rewrite (bind_run _ _ _ _ _ _ (watchDm_addCheckPoints_run env req seek fl dr n Hfl Hdr)).
  unfold addFlowGraphs. rewrite bind_assoc, bind_callE.
  destruct (addFlowGraphs_err env DML _ _) as [e|] eqn:Eadd.
  { intros _. rewrite bind_ret. simpl check. rewrite bind_throw, !emit_pair.
    by exists e, fl, dr. }
  rewrite bind_ret. simpl check. rewrite bind_ret, !trace_emit.
  intros Hex. exfalso.
  apply Exists_app in Hex as [Hex | Hex].
  { revert Hex. apply Hexcl. by repeat constructor. }
  apply Exists_cons in Hex as [Hex | Hex]; [done |].
  revert Hex. apply not_Exists_emits. apply watchDm_attach_emits; intros; simpl; tauto.
Qed.

(** X11, lines 373-377 and 293-299: when the flow-graphs cannot be created,
    Execute returns that error; the failed call is followed only by the
    deferred removal of the growing segments, which are gone from the
    streaming replica. No flow-graph is attached, closed or removed. The
    segments excluded just before stay excluded, and the collection stays
    in both replicas. *)
Theorem WatchDm_addFlowGraphs_failure env (req : WatchDmChannelsRequest.t) n :
  Exists addFlowGraphsFailed (trace (watchDmChannelsTask.Execute env req n)) ->
  exists e pre base segs fl dr,
    WatchDmChannelsRequest.Base req = Some base
    /\ watchDmChannelsTask.unFlushedSegments req = Some segs
    /\ addFlowGraphs_err env DML (WatchDmChannelsRequest.CollectionID req)
         (watchDmChannelsTask.vChannels req) = Some e
    /\ result (watchDmChannelsTask.Execute env req n) = Fail e
    /\ trace (watchDmChannelsTask.Execute env req n)
       = pre
         ++ [EvLoadSegment (watchDmChannelsTask.loadRequest req base segs)
               segmentTypeGrowing None;
             EvAddExcludedSegments Streaming (WatchDmChannelsRequest.CollectionID req)
               (watchDmChannelsTask.unFlushedCheckPointInfos req);
             EvAddExcludedSegments Streaming (WatchDmChannelsRequest.CollectionID req) fl;
             EvAddExcludedSegments Streaming (WatchDmChannelsRequest.CollectionID req) dr;
             EvAddFlowGraphs DML (WatchDmChannelsRequest.CollectionID req)
               (watchDmChannelsTask.vChannels req) (Some e)]
         ++ (EvRemoveSegment Streaming <$> (querypb.SegmentID <$> segs))
    /\ Forall isSetup pre
    /\ (forall s, s ∈ segs ->
          querypb.SegmentID s
            ∉ segments (streaming (final (watchDmChannelsTask.Execute env req n))))
    /\ (exists l,
          excludedSegments (streaming (final (watchDmChannelsTask.Execute env req n)))
            !! WatchDmChannelsRequest.CollectionID req = Some l
          /\ forall s, s ∈ watchDmChannelsTask.unFlushedCheckPointInfos req -> s ∈ l)
    /\ holdsCollection (WatchDmChannelsRequest.CollectionID req)
         (final (watchDmChannelsTask.Execute env req n))
    /\ dmlChannel2FlowGraph (final (watchDmChannelsTask.Execute env req n))
       = dmlChannel2FlowGraph n
    /\ tSafes (final (watchDmChannelsTask.Execute env req n)) = tSafes n
    /\ queryShards (final (watchDmChannelsTask.Execute env req n)) = queryShards n.
Proof.
  unfold watchDmChannelsTask.Execute. intros Hex.
  assert (forall l, Forall isSetup l -> ~ Exists addFlowGraphsFailed l) as Hsetup.
  { intros l Hl. apply (Forall_not_Exists _ _ _ Hl).
    intros x Hp Hq. destruct x; simpl in *; tauto. }
  destruct (watchDm_prepare_outcome env req n)
    as [[Hnd Hrun] | (Hnd & pre & n1 & Hpre & [[Hrun _] | (base & segs & Hb & Hs & Hset & Hrun)])].
  - exfalso. revert Hex. unfold bind. rewrite Hrun. apply Exists_nil.
  - exfalso. revert Hex. unfold bind. rewrite Hrun. by apply Hsetup.
  - destruct (loadSegment_err env _ _) as [e0|] eqn:Eload.
    { exfalso. revert Hex. unfold bind. rewrite Hrun. unfold trace. cbn [snd].
      intros [Hex | Hex]%Exists_app; [by apply (Hsetup pre) |].
      apply Exists_cons in Hex as [Hex | Hex]; [done | by apply Exists_nil in Hex]. }
    revert Hex. rewrite (bind_run _ _ _ _ _ _ Hrun), trace_emit, defer_run.
    set (n2 := withReplica Streaming _ n1).
    unfold trace at 1. cbn [snd].
    intros [Hex | Hex]%Exists_app.
    { exfalso. apply Exists_app in Hex as [Hex | Hex]; [by apply (Hsetup pre) |].
      apply Exists_cons in Hex as [Hex | Hex]; [done | by apply Exists_nil in Hex]. }
    apply Exists_app in Hex as [Hex | Hex].
    2: { exfalso. revert Hex. apply not_Exists_emits.
         unfold watchDmChannelsTask.removeGrowing.
         emits_steps; apply emits_call; simpl; tauto. }
    destruct (watchDm_watch_addFlowGraphs_failed env req n2 Hex)
      as (e & fl & dr & Hadd & Hwrun).
    rewrite Hwrun. unfold result, final, trace.
    cbn [fst snd watchDmChannelsTask.removeGrowing]. rewrite removeSegments_run.
    cbn [fst snd]. rewrite !emit_pair.
    destruct Hset as (Hholds & _ & H1 & H2 & _ & _ & H5 & _ & H7 & H8).
    exists e, pre, base, segs, fl, dr.
    split; [done |]. split; [done |]. split; [done |]. split; [done |].
    split; [by rewrite <- !app_assoc |]. split; [done |].
    split; [| split; [| split; [exact Hholds | done]]].
    + intros s Hin. simpl. apply not_elem_of_difference. right.
      apply elem_of_list_to_set, list_elem_of_fmap. by exists s.
    + eexists. split; [apply lookup_insert_eq |].
      intros s Hin. rewrite !elem_of_app. right. by left.
Qed.

Lemma WatchDm_addFlowGraphs_failure_witness :
  exists e,
    result (watchDmChannelsTask.Execute addFlowGraphsFailsEnv watchDmScenario emptyNode)
    = Fail e
    /\ 7 ∉ segments (streaming (final (watchDmChannelsTask.Execute addFlowGraphsFailsEnv
                                         watchDmScenario emptyNode))).
Proof.
  assert (Exists addFlowGraphsFailed
            (trace (watchDmChannelsTask.Execute addFlowGraphsFailsEnv watchDmScenario
                      emptyNode))) as Hex.
  { vm_compute. repeat first [apply Exists_cons_hd; exact I | apply Exists_cons_tl]. }
  destruct (WatchDm_addFlowGraphs_failure addFlowGraphsFailsEnv watchDmScenario emptyNode Hex)
    as (e & pre & base & segs & fl & dr & _ & Hs & _ & Hres & _ & _ & Hgone & _).
  exists e. split; [exact Hres |].
  assert (segs = [watchDmChannelsTask.toSegmentLoadInfo segment7]) as ->.
  { assert (Some segs = Some [watchDmChannelsTask.toSegmentLoadInfo segment7]) as Heq
      by (rewrite <- Hs; reflexivity).
    by injection Heq. }
  apply (Hgone (watchDmChannelsTask.toSegmentLoadInfo segment7)). left.
Defined.

(** * LoadSegments *)

(** Lines 641-650, one iteration: the historical replica first, and the
    first error ends it. *)
Lemma loadSegments_addPartitions_run env cid pid n :
  loadSegmentsTask.addPartitions env cid pid n
  = match addPartition_err env Historical cid pid with
    | Some e => (Fail e, n, [EvAddPartition Historical cid pid (Some e)])
    | None =>
        let n1 := withReplica Historical
                    (withPartitions (fun ps => match ps !! pid with
                                               | Some _ => ps
                                               | None => <[pid := cid]> ps
                                               end)) n in
        match addPartition_err env Streaming cid pid with
        | Some e =>
            (Fail e, n1,
             [EvAddPartition Historical cid pid None; EvAddPartition Streaming cid pid (Some e)])
        | None =>
            (Ok tt,
             withReplica Streaming
               (withPartitions (fun ps => match ps !! pid with
                                          | Some _ => ps
                                          | None => <[pid := cid]> ps
                                          end)) n1,
             [EvAddPartition Historical cid pid None; EvAddPartition Streaming cid pid None])
        end
    end.
Proof.
  unfold loadSegmentsTask.addPartitions, addPartition. rewrite bind_callE.
  destruct (addPartition_err env Historical cid pid) as [e|]; [done |].
  simpl check. rewrite bind_ret, bind_callE.
  destruct (addPartition_err env Streaming cid pid) as [e|]; done.
Qed.

Lemma addPartition_is_Some (ps : gmap Z Z) pid cid pid' :
  pid' = pid \/ is_Some (ps !! pid') ->
  is_Some (match ps !! pid with Some _ => ps | None => <[pid := cid]> ps end !! pid').
Proof.
  intros H. destruct (ps !! pid) eqn:E.
  - destruct H as [-> | H]; [by eexists | done].
  - apply lookup_insert_is_Some'. destruct H; [left; congruence | by right].
Qed.

(** The loop of lines 641-650: either every partition is added to both
    replicas, or the loop stops at the first addPartition that fails. *)
Lemma loadSegments_addPartitions_loop env cid l n :
  exists n' evs,
    sameButPartitions n n'
    /\ (forall k pid, is_Some (partitions (replica k n) !! pid) ->
          is_Some (partitions (replica k n') !! pid))
    /\ Forall isSetup evs
    /\ ((forM_ l (loadSegmentsTask.addPartitions env cid) n = (Ok tt, n', evs)
         /\ evs = l ≫= (fun pid => [EvAddPartition Historical cid pid None;
                                    EvAddPartition Streaming cid pid None])
         /\ Forall (fun ev => ~ addPartitionFailed ev) evs
         /\ forall k pid, pid ∈ l -> is_Some (partitions (replica k n') !! pid))
        \/ exists e pre k pid,
             forM_ l (loadSegmentsTask.addPartitions env cid) n = (Fail e, n', evs)
             /\ evs = pre ++ [EvAddPartition k cid pid (Some e)]
             /\ Forall (fun ev => ~ addPartitionFailed ev) pre
             /\ pid ∈ l).
Proof.
  revert n. induction l as [|pid l IH]; intros n.
  - exists n, []. split; [apply sameButPartitions_refl |]. split; [done |].
    split; [constructor |]. left.
    split; [done |]. split; [done |]. split; [constructor |].
    intros k pid Hin. by apply elem_of_nil in Hin.
  - cbn [forM_]. pose proof (loadSegments_addPartitions_run env cid pid n) as Hstep.
    destruct (addPartition_err env Historical cid pid) as [e|] eqn:EH.
    { exists n. eexists. split; [apply sameButPartitions_refl |]. split; [done |].
      split; cycle 1.
      - right. exists e, [], Historical, pid. unfold bind. rewrite Hstep.
        split; [reflexivity |]. split; [done |]. split; [constructor | left].
      - by repeat constructor. }
    cbv zeta in Hstep.
    set (nH := withReplica Historical _ n) in *.
    destruct (addPartition_err env Streaming cid pid) as [e|] eqn:ES.
    { exists nH. eexists. split; [by repeat split |]. split.
      { intros k pid' Hp. destruct k; simpl; [done |]. apply addPartition_is_Some. by right. }
      split; cycle 1.
      - right. exists e, [EvAddPartition Historical cid pid None], Streaming, pid.
        unfold bind. rewrite Hstep. split; [reflexivity |]. split; [done |].
        split; [repeat constructor; simpl; tauto | left].
      - by repeat constructor. }
    set (nS := withReplica Streaming _ nH) in *.
    assert (forall k pid', pid' = pid \/ is_Some (partitions (replica k n) !! pid') ->
              is_Some (partitions (replica k nS) !! pid')) as Hstep_keep.
    { intros k pid' Hp. destruct k; simpl; by apply addPartition_is_Some. }
    destruct (IH nS) as (n' & evs & Hsame & Hkeep & Hsetup & Hcases).
    exists n', ([EvAddPartition Historical cid pid None;
                 EvAddPartition Streaming cid pid None] ++ evs).
    split; [| split; [| split]].
    { destruct Hsame as (P1 & P2 & P3 & P4 & P5 & P6 & P7 & P8 & P9 & P10 & P11).
      by repeat split. }
    { intros k pid' Hp. apply Hkeep, Hstep_keep. by right. }
    { by repeat constructor. }
    rewrite (bind_run _ _ _ _ _ _ Hstep).
    destruct Hcases as [(Hrun & Hevs & Hok & Hall)
                       | (e & pre & k & pid' & Hrun & -> & Hpre & Hin)].
    + left. rewrite Hrun, emit_pair. split; [reflexivity |]. split; [by rewrite Hevs |].
      split; [repeat constructor; simpl; tauto || done |].
      intros k pid' [-> | Hin]%elem_of_cons.
      * apply Hkeep, Hstep_keep. by left.
      * by apply Hall.
    + right. exists e, ([EvAddPartition Historical cid pid None;
                         EvAddPartition Streaming cid pid None] ++ pre), k, pid'.
      rewrite Hrun, emit_pair. split; [reflexivity |].
      split; [by rewrite <- app_assoc |].
      split; [| by right]. repeat constructor; simpl; tauto || done.
Qed.

Lemma setUp_partitions_kept cid n n0 n1 :
  setUp cid n n0 ->
  (forall k pid, is_Some (partitions (replica k n) !! pid) ->
     is_Some (partitions (replica k n0) !! pid)) ->
  sameButPartitions n0 n1 ->
  (forall k pid, is_Some (partitions (replica k n0) !! pid) ->
     is_Some (partitions (replica k n1) !! pid)) ->
  setUp cid n n1
  /\ forall k pid, is_Some (partitions (replica k n) !! pid) ->
       is_Some (partitions (replica k n1) !! pid).
Proof.
  intros Hset Hk0 Hsame Hk1. split; [by apply (setUp_sameButPartitions cid n n0 n1) |].
  intros k pid Hp. by apply Hk1, Hk0.
Qed.

(** How Execute ends when Base is present: at the first addPartition that
    fails, at a failed loadSegment, or with everything loaded. *)
Lemma loadSegments_Execute_outcome env (req : LoadSegmentsRequest.t) base n :
  LoadSegmentsRequest.Base req = Some base ->
  exists n1 pre,
    setUp (LoadSegmentsRequest.CollectionID req) n n1
    /\ (forall k pid, is_Some (partitions (replica k n) !! pid) ->
          is_Some (partitions (replica k n1) !! pid))
    /\ Forall isSetup pre
    /\ Forall (fun ev => ~ addPartitionFailed ev) pre
    /\ ((exists e k pid,
           pid ∈ querypb.GetPartitionIDs (LoadSegmentsRequest.LoadMeta req)
           /\ loadSegmentsTask.Execute env req n
              = (Fail e, n1,
                 pre ++ [EvAddPartition k (LoadSegmentsRequest.CollectionID req) pid (Some e)]))
        \/ ((forall k pid, pid ∈ querypb.GetPartitionIDs (LoadSegmentsRequest.LoadMeta req) ->
               is_Some (partitions (replica k n1) !! pid))
            /\ pre = [EvAddCollection Historical (LoadSegmentsRequest.CollectionID req);
                      EvAddCollection Streaming (LoadSegmentsRequest.CollectionID req)]
                     ++ (querypb.GetPartitionIDs (LoadSegmentsRequest.LoadMeta req)
                         ≫= (fun pid =>
                               [EvAddPartition Historical
                                  (LoadSegmentsRequest.CollectionID req) pid None;
                                EvAddPartition Streaming
                                  (LoadSegmentsRequest.CollectionID req) pid None]))
            /\ loadSegmentsTask.Execute env req n
               = (match loadSegment_err env req segmentTypeSealed with
                  | Some e => Fail e
                  | None => Ok tt
                  end,
                  match loadSegment_err env req segmentTypeSealed with
                  | Some _ => n1
                  | None =>
                      withReplica Historical
                        (withSegments (fun s =>
                           list_to_set (querypb.SegmentID <$> LoadSegmentsRequest.Infos req)
                           ∪ s)) n1
                  end,
                  pre ++ [EvLoadSegment req segmentTypeSealed
                            (loadSegment_err env req segmentTypeSealed)]))).
Proof.
  intros Hb. unfold loadSegmentsTask.Execute. rewrite Hb. simpl deref. rewrite bind_ret.
  unfold addCollection. rewrite !bind_call.
  set (n0 := withReplica Streaming _ (withReplica Historical _ n)).
  assert (setUp (LoadSegmentsRequest.CollectionID req) n n0) as Hn0.
  { split; [| split; [| done]].
    - split; simpl; destruct (collections _ !! _) eqn:E; rewrite ?E; try done;
        rewrite lookup_insert_eq; done.
    - intros k id c Hc. destruct k; simpl in *;
        (destruct (collections _ !! LoadSegmentsRequest.CollectionID req) eqn:E; [done |]);
        rewrite lookup_insert_ne; [done | congruence | done | congruence]. }
  destruct (loadSegments_addPartitions_loop env (LoadSegmentsRequest.CollectionID req)
              (querypb.GetPartitionIDs (LoadSegmentsRequest.LoadMeta req)) n0)
    as (n1 & evs & Hsame & Hkeep & Hsetup & Hcases).
  destruct (setUp_partitions_kept _ n n0 n1 Hn0 ltac:(by intros [] ?) Hsame Hkeep)
    as [Hn1 Hkeep1].
  destruct Hcases as [(Hrun & Hevs & Hok & Hall) | (e & pre & k & pid & Hrun & -> & Hpre & Hin)].
  - exists n1, ([EvAddCollection Historical (LoadSegmentsRequest.CollectionID req);
                 EvAddCollection Streaming (LoadSegmentsRequest.CollectionID req)] ++ evs).
    split; [done |]. split; [done |]. split; [by repeat constructor |].
    split; [repeat constructor; simpl; tauto || done |].
    right. split; [done |]. split; [by rewrite Hevs |].
    rewrite (bind_run _ _ _ _ _ _ Hrun). unfold loadSegment. rewrite bind_callE.
    destruct (loadSegment_err env req segmentTypeSealed) as [e|].
    + simpl check. rewrite bind_throw, !emit_pair. by rewrite <- !app_assoc.
    + simpl check. rewrite bind_ret. simpl deref. rewrite bind_ret. unfold ret.
      rewrite !emit_pair. by rewrite app_nil_r, <- !app_assoc.
  - exists n1, ([EvAddCollection Historical (LoadSegmentsRequest.CollectionID req);
                 EvAddCollection Streaming (LoadSegmentsRequest.CollectionID req)] ++ pre).
    split; [done |]. split; [done |].
    apply Forall_app in Hsetup as [Hsetup _].
    split; [by repeat constructor |].
    split; [repeat constructor; simpl; tauto || done |].
    left. exists e, k, pid. split; [done |].
    unfold bind at 1. rewrite Hrun. rewrite !emit_pair. by rewrite <- !app_assoc.
Qed.

(** X12, lines 632-660: a LoadSegments that succeeds registers the collection
    in both replicas, adds every partition of LoadMeta to both, the
    historical replica first, and then loads the sealed segments into the
    historical replica as its last call. The growing segments, the
    flow-graphs, the tSafes and the query shards are not touched. *)
Theorem LoadSegments_success env (req : LoadSegmentsRequest.t) n :
  result (loadSegmentsTask.Execute env req n) = Ok tt ->
  trace (loadSegmentsTask.Execute env req n)
  = [EvAddCollection Historical (LoadSegmentsRequest.CollectionID req);
     EvAddCollection Streaming (LoadSegmentsRequest.CollectionID req)]
    ++ (querypb.GetPartitionIDs (LoadSegmentsRequest.LoadMeta req)
        ≫= (fun pid =>
              [EvAddPartition Historical (LoadSegmentsRequest.CollectionID req) pid None;
               EvAddPartition Streaming (LoadSegmentsRequest.CollectionID req) pid None]))
    ++ [EvLoadSegment req segmentTypeSealed None]
  /\ holdsCollection (LoadSegmentsRequest.CollectionID req)
       (final (loadSegmentsTask.Execute env req n))
  /\ (forall k pid, pid ∈ querypb.GetPartitionIDs (LoadSegmentsRequest.LoadMeta req) ->
        is_Some (partitions (replica k (final (loadSegmentsTask.Execute env req n))) !! pid))
  /\ (forall info, info ∈ LoadSegmentsRequest.Infos req ->
        querypb.SegmentID info
          ∈ segments (historical (final (loadSegmentsTask.Execute env req n))))
  /\ segments (streaming (final (loadSegmentsTask.Execute env req n))) = segments (streaming n)
  /\ dmlChannel2FlowGraph (final (loadSegmentsTask.Execute env req n)) = dmlChannel2FlowGraph n
  /\ deltaChannel2FlowGraph (final (loadSegmentsTask.Execute env req n))
     = deltaChannel2FlowGraph n
  /\ tSafes (final (loadSegmentsTask.Execute env req n)) = tSafes n
  /\ queryShards (final (loadSegmentsTask.Execute env req n)) = queryShards n.
Proof.
  intros Hres.
  destruct (LoadSegmentsRequest.Base req) as [base|] eqn:Hb.
  2: { exfalso. revert Hres. unfold loadSegmentsTask.Execute. by rewrite Hb. }
  destruct (loadSegments_Execute_outcome env req base n Hb)
    as (n1 & pre & Hset & Hkeep & Hsetup & Hok
        & [(e & k & pid & _ & Hrun) | (Hall & Hpre & Hrun)]).
  { exfalso. by rewrite Hrun in Hres. }
  destruct (loadSegment_err env req segmentTypeSealed) as [e|] eqn:Eload.
  { exfalso. by rewrite Hrun in Hres. }
  rewrite Hrun. unfold final, trace. cbn [fst snd].
  destruct Hset as (Hholds & _ & H1 & H2 & H3 & H4 & H5 & H6 & H7 & H8).
  split; [by rewrite Hpre, <- !app_assoc |].
  split; [exact Hholds |].
  split; [intros k pid Hin; specialize (Hall k pid Hin); by destruct k |].
  split; [| done].
  intros info Hin. simpl. apply elem_of_union. left.
  apply elem_of_list_to_set, list_elem_of_fmap. by exists info.
Qed.

Lemma LoadSegments_success_witness :
  holdsCollection 300 (final (loadSegmentsTask.Execute quietEnv (loadSegments300 (Some base1))
                                emptyNode))
  /\ is_Some (partitions (historical (final (loadSegmentsTask.Execute quietEnv
                                               (loadSegments300 (Some base1)) emptyNode)))
              !! 2).
Proof.
  assert (result (loadSegmentsTask.Execute quietEnv (loadSegments300 (Some base1)) emptyNode)
          = Ok tt) as Hres by (vm_compute; reflexivity).
  destruct (LoadSegments_success quietEnv (loadSegments300 (Some base1)) emptyNode Hres)
    as (_ & Hholds & Hparts & _).
  split; [exact Hholds |]. apply (Hparts Historical 2). right. left.
Defined.



(** * ReleaseCollection: every way it ends *)

Lemma ReleaseCollection_outcome env (req : ReleaseCollectionRequest.t) n :
  releaseCollectionTask.Execute env req n
  = match collections (streaming n) !! ReleaseCollectionRequest.CollectionID req with
    | None =>
        (Fail (ErrReleaseCollectionFailed (ReleaseCollectionRequest.CollectionID req)
                 (ErrCollectionNotExist (ReleaseCollectionRequest.CollectionID req))),
         n, [EvSleep 1; EvQueryLock Streaming; EvQueryUnlock Streaming])
    | Some sCol =>
        match ReleaseCollectionRequest.Base req with
        | None => (Panic, n, [EvSleep 1; EvQueryLock Streaming])
        | Some base =>
            match removeCollection_err env Streaming (ReleaseCollectionRequest.CollectionID req)
            with
            | Some e =>
                (Fail (ErrReleaseCollectionFailed (ReleaseCollectionRequest.CollectionID req) e),
                 released Streaming replicaStreaming (ReleaseCollectionRequest.CollectionID req)
                   (commonpb.Timestamp base) sCol (Some e) n,
                 [EvSleep 1]
                 ++ releaseTrace Streaming replicaStreaming
                      (ReleaseCollectionRequest.CollectionID req) (commonpb.Timestamp base)
                      sCol (Some e))
            | None =>
                match collections (historical n) !! ReleaseCollectionRequest.CollectionID req
                with
                | None =>
                    (Fail (ErrReleaseCollectionFailed
                             (ReleaseCollectionRequest.CollectionID req)
                             (ErrCollectionNotExist (ReleaseCollectionRequest.CollectionID req))),
                     released Streaming replicaStreaming
                       (ReleaseCollectionRequest.CollectionID req)
                       (commonpb.Timestamp base) sCol None n,
                     [EvSleep 1]
                     ++ releaseTrace Streaming replicaStreaming
                          (ReleaseCollectionRequest.CollectionID req) (commonpb.Timestamp base)
                          sCol None
                     ++ [EvQueryLock Historical; EvQueryUnlock Historical])
                | Some hCol =>
                    match removeCollection_err env Historical
                            (ReleaseCollectionRequest.CollectionID req) with
                    | Some e =>
                        (Fail (ErrReleaseCollectionFailed
                                 (ReleaseCollectionRequest.CollectionID req) e),
                         released Historical replicaHistorical
                           (ReleaseCollectionRequest.CollectionID req)
                           (commonpb.Timestamp base) hCol (Some e)
                           (released Streaming replicaStreaming
                              (ReleaseCollectionRequest.CollectionID req)
                              (commonpb.Timestamp base) sCol None n),
                         [EvSleep 1]
                         ++ releaseTrace Streaming replicaStreaming
                              (ReleaseCollectionRequest.CollectionID req)
                              (commonpb.Timestamp base) sCol None
                         ++ releaseTrace Historical replicaHistorical
                              (ReleaseCollectionRequest.CollectionID req)
                              (commonpb.Timestamp base) hCol (Some e))
                    | None =>
                        (Ok tt,
                         withQueryShards
                           (filter (fun kv => qsCollectionID kv.2
                                              <> ReleaseCollectionRequest.CollectionID req))
                           (released Historical replicaHistorical
                              (ReleaseCollectionRequest.CollectionID req)
                              (commonpb.Timestamp base) hCol None
                              (released Streaming replicaStreaming
                                 (ReleaseCollectionRequest.CollectionID req)
                                 (commonpb.Timestamp base) sCol None n)),
                         [EvSleep 1]
                         ++ releaseTrace Streaming replicaStreaming
                              (ReleaseCollectionRequest.CollectionID req)
                              (commonpb.Timestamp base) sCol None
                         ++ releaseTrace Historical replicaHistorical
                              (ReleaseCollectionRequest.CollectionID req)
                              (commonpb.Timestamp base) hCol None
                         ++ [EvFreeOSMemory;
                             EvReleaseCollection (ReleaseCollectionRequest.CollectionID req)])
                    end
                end
            end
        end
    end.
Proof.
  destruct (collections (streaming n) !! ReleaseCollectionRequest.CollectionID req)
    as [sCol|] eqn:Hs.
  2: { unfold releaseCollectionTask.Execute, sleep. rewrite bind_call.
       rewrite (bind_run _ _ _ _ _ _ (releaseReplica_not_found env req Streaming
                                        replicaStreaming n Hs)).
       unfold throw. by rewrite !emit_pair. }
  destruct (ReleaseCollectionRequest.Base req) as [base|] eqn:Hb.
  2: { unfold releaseCollectionTask.Execute, sleep. rewrite bind_call.
       rewrite (bind_run_panic _ _ _ _ _
                  (releaseReplica_nil_Base_panics env req Streaming replicaStreaming n Hb
                     (mk_is_Some _ _ Hs))).
       by rewrite emit_pair. }
  destruct (collections (historical n) !! ReleaseCollectionRequest.CollectionID req)
    as [hCol|] eqn:Hh.
  { rewrite (ReleaseCollection_run env req n sCol hCol base Hs Hh Hb).
    destruct (removeCollection_err env Streaming _); [done |].
    by destruct (removeCollection_err env Historical _). }
  unfold releaseCollectionTask.Execute, sleep. rewrite bind_call.
  rewrite (bind_run _ _ _ _ _ _ (releaseReplica_run env req Streaming replicaStreaming
                                   n sCol base Hs Hb)).
  cbv zeta.
  destruct (removeCollection_err env Streaming (ReleaseCollectionRequest.CollectionID req))
    as [e|] eqn:ES.
  { unfold throw. rewrite !emit_pair. by rewrite app_nil_r. }
  assert (collections (replica Historical
            (released Streaming replicaStreaming (ReleaseCollectionRequest.CollectionID req)
               (commonpb.Timestamp base) sCol None n))
          !! ReleaseCollectionRequest.CollectionID req = None) as Hh1 by exact Hh.
  rewrite (bind_run _ _ _ _ _ _ (releaseReplica_not_found env req Historical
                                   replicaHistorical _ Hh1)).
  unfold throw. rewrite !emit_pair. by rewrite app_nil_r.
Qed.



Lemma locksAfter_removeTSafes held (chans : list Channel) rest :
  locksAfter held ((EvRemoveTSafe <$> chans) ++ rest) = locksAfter held rest.
Proof. induction chans as [|ch chans IH]; [done | exact IH]. Qed.

Lemma locksAfter_releaseTrace k ty cid ts c err rest :
  locksAfter [] (releaseTrace k ty cid ts c err ++ rest) = locksAfter [] rest.
Proof.
  unfold releaseTrace. rewrite <- !app_assoc.
  destruct k; cbn [app locksAfter]; rewrite locksAfter_removeTSafes; reflexivity.
Qed.

(** X15, lines 696-766: the query locks. In every execution a lock is taken
    only when it is free and released only when it is held, and no lock
    is held when Execute returns, with or without error. The one
    exception is the panic at the nil Base, which happens between the
    lock and the unlock of the streaming replica and leaves that lock
    held; ReleaseCollection panics in no other case. *)
Theorem ReleaseCollection_locks env (req : ReleaseCollectionRequest.t) n :
  match result (releaseCollectionTask.Execute env req n) with
  | Panic =>
      ReleaseCollectionRequest.Base req = None
      /\ is_Some (collections (streaming n) !! ReleaseCollectionRequest.CollectionID req)
      /\ locksAfter [] (trace (releaseCollectionTask.Execute env req n)) = Some [Streaming]
  | _ => locksAfter [] (trace (releaseCollectionTask.Execute env req n)) = Some []
  end.
Proof.
  rewrite ReleaseCollection_outcome.
  destruct (collections (streaming n) !! _) as [sCol|]; [| reflexivity].
  destruct (ReleaseCollectionRequest.Base req) as [base|]; [| by repeat split].
  destruct (removeCollection_err env Streaming _) as [e|].
  { unfold result, trace. cbn [fst snd app locksAfter].
    rewrite <- (app_nil_r (releaseTrace _ _ _ _ _ _)). by rewrite locksAfter_releaseTrace. }
  destruct (collections (historical n) !! _) as [hCol|].
  2: { unfold result, trace. cbn [fst snd app locksAfter].
       by rewrite locksAfter_releaseTrace. }
  destruct (removeCollection_err env Historical _) as [e|].
  - unfold result, trace. cbn [fst snd app locksAfter]. rewrite locksAfter_releaseTrace.
    rewrite <- (app_nil_r (releaseTrace _ _ _ _ _ _)). by rewrite locksAfter_releaseTrace.
  - unfold result, trace. cbn [fst snd app locksAfter].
    by rewrite !locksAfter_releaseTrace.
Qed.

(** X16, lines 696-766: releasing twice. After a ReleaseCollection that
    succeeded, a second one for the same collection, whatever its Base
    and whatever the replicas would answer, finds nothing in the
    streaming replica: it fails with the lookup error and changes
    nothing. *)
Theorem ReleaseCollection_twice env (req : ReleaseCollectionRequest.t) n n' evs :
  releaseCollectionTask.Execute env req n = (Ok tt, n', evs) ->
  forall env' (req' : ReleaseCollectionRequest.t),
    ReleaseCollectionRequest.CollectionID req' = ReleaseCollectionRequest.CollectionID req ->
    releaseCollectionTask.Execute env' req' n'
    = (Fail (ErrReleaseCollectionFailed (ReleaseCollectionRequest.CollectionID req)
               (ErrCollectionNotExist (ReleaseCollectionRequest.CollectionID req))),
       n', [EvSleep 1; EvQueryLock Streaming; EvQueryUnlock Streaming]).
Proof.
  rewrite ReleaseCollection_outcome.
  destruct (collections (streaming n) !! _) as [sCol|]; [| done].
  destruct (ReleaseCollectionRequest.Base req) as [base|]; [| done].
  destruct (removeCollection_err env Streaming _) as [e|]; [done |].
  destruct (collections (historical n) !! _) as [hCol|]; [| done].
  destruct (removeCollection_err env Historical _) as [e|]; [done |].
  intros Heq.
  assert (collections (streaming n') !! ReleaseCollectionRequest.CollectionID req = None)
    as Hgone.
  { apply (f_equal final) in Heq. unfold final in Heq. cbn [fst snd] in Heq. subst n'.
    apply lookup_delete_eq. }
  intros env' req' Hcid. rewrite ReleaseCollection_outcome, Hcid, Hgone. reflexivity.
Qed.

Lemma ReleaseCollection_twice_witness :
  result (releaseCollectionTask.Execute quietEnv (releaseCollection100At 3000) (final releaseRun))
  = Fail (ErrReleaseCollectionFailed 100 (ErrCollectionNotExist 100)).
Proof.
  assert (releaseCollectionTask.Execute quietEnv (releaseCollection100At 2000) loadedNode
          = (Ok tt, final releaseRun, trace releaseRun)) as Hrun
    by (vm_compute; reflexivity).
  rewrite (ReleaseCollection_twice quietEnv (releaseCollection100At 2000) loadedNode
             (final releaseRun) (trace releaseRun) Hrun quietEnv (releaseCollection100At 3000)
             eq_refl).
  reflexivity.
Defined.

(** * ReleasePartitions: releasing again *)

Lemma releasePartitions_Execute_found env (req : ReleasePartitionsRequest.t) n :
  is_Some (collections (historical n) !! ReleasePartitionsRequest.CollectionID req) ->
  is_Some (collections (streaming n) !! ReleasePartitionsRequest.CollectionID req) ->
  releasePartitionsTask.Execute env req n
  = emit [EvSleep 1]
      (forM_ (ReleasePartitionsRequest.PartitionIDs req)
         (releasePartitionsTask.releasePartition env) n).
Proof.
  intros [hCol Eh] [sCol Es]. unfold releasePartitionsTask.Execute, sleep, getCollectionByID.
  rewrite bind_call, bind_gets. simpl. rewrite Eh. simpl. rewrite bind_gets. simpl.
  by rewrite Es.
Qed.

Lemma releasePartitions_none env l n :
  (forall k pid, pid ∈ l -> partitions (replica k n) !! pid = None) ->
  forM_ l (releasePartitionsTask.releasePartition env) n = (Ok tt, n, []).
Proof.
  induction l as [|pid l IH]; intros Hnone; [done |].
  cbn [forM_].
  pose proof (releasePartition_run env pid n) as Hstep. cbv zeta in Hstep.
  assert (partitions (historical n) !! pid = None) as HH by (apply (Hnone Historical); left).
  assert (partitions (streaming n) !! pid = None) as HS by (apply (Hnone Streaming); left).
  rewrite HH in Hstep.
  rewrite (bool_decide_eq_false_2 (is_Some (@None Z))) in Hstep by (by intros [? ?]).
  cbv iota in Hstep. rewrite HS in Hstep.
  rewrite (bool_decide_eq_false_2 (is_Some (@None Z))) in Hstep by (by intros [? ?]).
  cbv iota in Hstep. rewrite (bind_run _ _ _ _ _ _ Hstep), IH; [done |].
  intros k pid' Hin. apply Hnone. by right.
Qed.

Lemma releasePartitions_keeps_collections env (req : ReleasePartitionsRequest.t) n :
  preserves (fun n' => collections (historical n') = collections (historical n)
                       /\ collections (streaming n') = collections (streaming n))
    (releasePartitionsTask.Execute env req).
Proof.
  unfold releasePartitionsTask.Execute, releasePartitionsTask.releasePartition. frame_steps.
Qed.

(** X17, lines 794-838: releasing again. After a ReleasePartitions on a
    collection that both replicas hold and in which no removal failed, a
    second ReleasePartitions of the same collection for any of the same
    partitions finds none of them in either replica: it calls no
    removePartition, changes nothing and succeeds. *)
Theorem ReleasePartitions_twice env (req : ReleasePartitionsRequest.t) n :
  is_Some (collections (historical n) !! ReleasePartitionsRequest.CollectionID req) ->
  is_Some (collections (streaming n) !! ReleasePartitionsRequest.CollectionID req) ->
  (forall k pid, pid ∈ ReleasePartitionsRequest.PartitionIDs req ->
     removePartition_err env k pid = None) ->
  forall env' (req' : ReleasePartitionsRequest.t),
    ReleasePartitionsRequest.CollectionID req' = ReleasePartitionsRequest.CollectionID req ->
    (forall pid, pid ∈ ReleasePartitionsRequest.PartitionIDs req' ->
       pid ∈ ReleasePartitionsRequest.PartitionIDs req) ->
    releasePartitionsTask.Execute env' req' (final (releasePartitionsTask.Execute env req n))
    = (Ok tt, final (releasePartitionsTask.Execute env req n), [EvSleep 1]).
Proof.
  intros Hh Hs Herr env' req' Hcid Hsub.
  destruct (releasePartitions_keeps_collections env req n n) as [Hch Hcs]; [done |].
  assert (forall k pid, pid ∈ ReleasePartitionsRequest.PartitionIDs req ->
            partitions (replica k (final (releasePartitionsTask.Execute env req n))) !! pid
            = None) as Hgone.
  { intros k pid Hin. rewrite (releasePartitions_Execute_found env req n Hh Hs), final_emit.
    apply releasePartitions_remove; [done | by apply Herr]. }
  set (n1 := final (releasePartitionsTask.Execute env req n)) in *.
  rewrite releasePartitions_Execute_found.
  - rewrite releasePartitions_none; [done |]. intros k pid Hin. by apply Hgone, Hsub.
  - by rewrite Hcid, Hch.
  - by rewrite Hcid, Hcs.
Qed.

Lemma ReleasePartitions_twice_witness :
  releasePartitionsTask.Execute quietEnv (releasePartitions100 [1])
    (final (releasePartitionsTask.Execute quietEnv (releasePartitions100 [1; 2]) loadedNode))
  = (Ok tt, final (releasePartitionsTask.Execute quietEnv (releasePartitions100 [1; 2])
                     loadedNode), [EvSleep 1]).
Proof.
  apply (ReleasePartitions_twice quietEnv (releasePartitions100 [1; 2]) loadedNode).
  - apply (bool_decide_unpack _). vm_compute. exact I.
  - apply (bool_decide_unpack _). vm_compute. exact I.
  - intros k pid _. reflexivity.
  - reflexivity.
  - intros pid Hin. apply elem_of_cons. left.
    apply elem_of_cons in Hin as [Hin | Hin]; [exact Hin |].
    apply elem_of_nil in Hin. destruct Hin.
Defined.

(** * WatchDeltaChannels: what a successful execution does *)

Lemma foldl_insert_lookup_val {X V} (key : X -> string) (val : X -> V) (l : list X) x :
  NoDup (key <$> l) -> x ∈ l ->
  foldl (fun m y => <[key y := val y]> m) (∅ : gmap string V) l !! key x = Some (val x).
Proof.
  induction l as [|y l IH] using rev_ind; intros Hnd Hin; [by apply elem_of_nil in Hin |].
  rewrite foldl_app. cbn [foldl]. rewrite fmap_app in Hnd.
  apply NoDup_app in Hnd as (Hnd & Hfresh & _).
  apply elem_of_app in Hin as [Hin | ->%list_elem_of_singleton].
  - rewrite lookup_insert_ne; [by apply IH |].
    intros Heq. apply (Hfresh (key x)); [by apply list_elem_of_fmap_2 |].
    rewrite <- Heq. left.
  - apply lookup_insert_eq.
Qed.

(** What follows the tSafes in finish touches only the query shards. *)
Lemma watchDelta_tail_frame env req l (L : list (string * queryNodeFlowGraph)) n0 :
  preserves (fun n' => streaming n' = streaming n0 /\ historical n' = historical n0
                       /\ dmlChannel2FlowGraph n' = dmlChannel2FlowGraph n0
                       /\ deltaChannel2FlowGraph n' = deltaChannel2FlowGraph n0
                       /\ tSafes n' = tSafes n0)
    (bind (forM_ l (watchDeltaChannelsTask.watchShard env req))
       (fun _ => forM_ L (fun '(_, fg) => flowGraphStart fg))).
Proof. unfold watchDeltaChannelsTask.watchShard. frame_steps. Qed.

(** WatchDeltaChannels makes none of the calls by which WatchDmChannels
    sets a collection up. *)
Lemma watchDelta_Execute_never_dml env req :
  emits notDmlSetup (watchDeltaChannelsTask.Execute env req).
Proof.
  unfold watchDeltaChannelsTask.Execute, watchDeltaChannelsTask.rollback,
    watchDeltaChannelsTask.finish, watchDeltaChannelsTask.watchShard.
  emits_steps; try (apply watchDelta_asConsumer_emits; done);
    first [apply emits_call | apply emits_callE]; simpl; done.
Qed.

(** X18, lines 484-604: a WatchDeltaChannels that succeeds never seeks: for
    every channel of the request it has consumed the physical channel
    from the latest position under the subscription name and replayed the
    deletes from the channel's SeekPosition, and neither call failed. The
    channel's delta flow-graph is registered and its tSafe exists; both
    replicas list the channel among the collection's delta channels and
    keep the collection's DML channels and load type. The segments, the
    partitions, the excluded segments and the DML flow-graphs are as they
    were. *)
Theorem WatchDelta_success env (req : WatchDeltaChannelsRequest.t) n :
  result (watchDeltaChannelsTask.Execute env req n) = Ok tt ->
  (forall info, info ∈ WatchDeltaChannelsRequest.Infos req ->
     EvConsumeFlowGraphFromLatest (datapb.ChannelName info)
       (ToPhysicalChannel env (datapb.ChannelName info))
       (watchDeltaChannelsTask.consumeSubName env req) None
       ∈ trace (watchDeltaChannelsTask.Execute env req n)
     /\ EvFromDmlCPLoadDelete (WatchDeltaChannelsRequest.CollectionID req)
          (datapb.SeekPosition info) None
          ∈ trace (watchDeltaChannelsTask.Execute env req n)
     /\ deltaChannel2FlowGraph (final (watchDeltaChannelsTask.Execute env req n))
          !! datapb.ChannelName info
        = Some {| fgKind := Delta;
                  fgCollectionID := WatchDeltaChannelsRequest.CollectionID req;
                  fgChannel := datapb.ChannelName info |}
     /\ datapb.ChannelName info ∈ tSafes (final (watchDeltaChannelsTask.Execute env req n)))
  /\ (forall k, exists c c',
        collections (replica k n) !! WatchDeltaChannelsRequest.CollectionID req = Some c
        /\ collections (replica k (final (watchDeltaChannelsTask.Execute env req n)))
             !! WatchDeltaChannelsRequest.CollectionID req = Some c'
        /\ (forall ch, ch ∈ watchDeltaChannelsTask.vDeltaChannels req ->
              ch ∈ Collection.vDeltaChannels c')
        /\ (forall p, p ∈ watchDeltaChannelsTask.pDeltaChannels env req ->
              p ∈ Collection.pDeltaChannels c')
        /\ Collection.vChannels c' = Collection.vChannels c
        /\ Collection.loadType c' = Collection.loadType c)
  /\ (forall k,
        segments (replica k (final (watchDeltaChannelsTask.Execute env req n)))
        = segments (replica k n)
        /\ partitions (replica k (final (watchDeltaChannelsTask.Execute env req n)))
           = partitions (replica k n)
        /\ excludedSegments (replica k (final (watchDeltaChannelsTask.Execute env req n)))
           = excludedSegments (replica k n))
  /\ dmlChannel2FlowGraph (final (watchDeltaChannelsTask.Execute env req n))
     = dmlChannel2FlowGraph n
  /\ Forall notDmlSetup (trace (watchDeltaChannelsTask.Execute env req n)).
Proof.
  intros Hres.
  assert (NoDup (watchDeltaChannelsTask.vDeltaChannels req)
          /\ holdsCollection (WatchDeltaChannelsRequest.CollectionID req) n) as [Hnd Hholds].
  { apply dec_stable. intros Hnot.
    destruct (watchDelta_Execute_early env req n Hnot) as [e He]. by rewrite He in Hres. }
  pose proof (watchDelta_Execute_never_dml env req n) as Hnever.
  split; [| split; [| split; [| split; [| exact Hnever]]]]; clear Hnever;
    revert Hres; rewrite (watchDelta_Execute_found env req n Hnd Hholds);
    unfold addFlowGraphs; rewrite bind_assoc, bind_callE;
    (destruct (addFlowGraphs_err env Delta _ _) as [e|] eqn:Eadd;
     [rewrite bind_ret; simpl check; by rewrite bind_throw |]);
    rewrite bind_ret; simpl check; rewrite bind_ret; cbn [fst snd];
    set (n1 := withFlowGraphs Delta _ n);
    destruct (watchDelta_asConsumer_run env req
                (rangeMap env [3%nat]
                   (newFlowGraphs Delta (WatchDeltaChannelsRequest.CollectionID req)
                      (watchDeltaChannelsTask.vDeltaChannels req))) n1)
      as (err & evs & Hrun & Hspec);
    rewrite (bind_run _ _ _ _ _ _ Hrun);
    (destruct err as [e|]; [by rewrite watchDelta_rollback_run |]);
    intros _; rewrite ?final_emit, ?trace_emit;
    unfold watchDeltaChannelsTask.finish, addVDeltaChannels, addPDeltaChannels, onCollection;
    rewrite !bind_call, (bind_run _ _ _ _ _ _ (addTSafes_run _ _)), ?final_emit;
    match goal with
    | |- context [final (bind (forM_ ?l (watchDeltaChannelsTask.watchShard env req)) ?f ?n0)] =>
        destruct (watchDelta_tail_frame env req l
                    (rangeMap env [6%nat]
                       (newFlowGraphs Delta (WatchDeltaChannelsRequest.CollectionID req)
                          (watchDeltaChannelsTask.vDeltaChannels req))) n0 n0)
          as (Fs & Fh & Fdml & Fdelta & Fts); [done |];
        set (nF := final (bind (forM_ l (watchDeltaChannelsTask.watchShard env req)) f n0))
          in *
    | _ => idtac
    end.
  - intros info Hin.
    assert (datapb.ChannelName info ∈ watchDeltaChannelsTask.vDeltaChannels req) as Hch
      by (by apply list_elem_of_fmap_2).
    assert ((datapb.ChannelName info,
             {| fgKind := Delta; fgCollectionID := WatchDeltaChannelsRequest.CollectionID req;
                fgChannel := datapb.ChannelName info |})
            ∈ rangeMap env [3%nat]
                (newFlowGraphs Delta (WatchDeltaChannelsRequest.CollectionID req)
                   (watchDeltaChannelsTask.vDeltaChannels req))) as Hentry
      by (by apply rangeMap_newFlowGraphs_elem).
    assert (watchDeltaChannelsTask.VPDeltaChannels env req !! datapb.ChannelName info
            = Some (ToPhysicalChannel env (datapb.ChannelName info))) as Hvp.
    { unfold watchDeltaChannelsTask.VPDeltaChannels.
      rewrite (foldl_insert_lookup datapb.ChannelName (ToPhysicalChannel env)).
      by rewrite bool_decide_eq_true_2. }
    assert (watchDeltaChannelsTask.vChannel2SeekPosition req !! datapb.ChannelName info
            = Some (datapb.SeekPosition info)) as Hseek
      by (by apply (foldl_insert_lookup_val datapb.ChannelName datapb.SeekPosition)).
    subst evs. split; [| split; [| split]].
    + rewrite !elem_of_app. right. left. apply list_elem_of_bind. eexists. split; [| exact Hentry].
      cbv beta iota. rewrite Hvp. left.
    + rewrite !elem_of_app. right. left. apply list_elem_of_bind. eexists. split; [| exact Hentry].
      cbv beta iota. rewrite Hseek. right. left.
    + rewrite Fdelta. simpl. apply lookup_union_Some_l.
      rewrite newFlowGraphs_lookup. by rewrite bool_decide_eq_true_2.
    + rewrite Fts. simpl. apply elem_of_union. left. by apply elem_of_list_to_set.
  - intros k. destruct Hholds as [[sCol HsCol] [hCol HhCol]].
    destruct k; cbn [replica].
    + exists sCol. eexists. split; [exact HsCol |]. rewrite Fs. simpl.
      rewrite !lookup_alter_eq, HsCol. simpl. split; [reflexivity |]. simpl.
      split; [intros ch Hch; apply appendNew_elem; by right |].
      split; [intros p Hp; apply appendNew_elem; by right | done].
    + exists hCol. eexists. split; [exact HhCol |]. rewrite Fh. simpl.
      rewrite !lookup_alter_eq, HhCol. simpl. split; [reflexivity |]. simpl.
      split; [intros ch Hch; apply appendNew_elem; by right |].
      split; [intros p Hp; apply appendNew_elem; by right | done].
  - intros k. destruct k; cbn [replica]; rewrite ?Fs, ?Fh; done.
  - by rewrite Fdml.
Qed.

Lemma WatchDelta_success_witness :
  deltaChannel2FlowGraph (final (watchDeltaChannelsTask.Execute quietEnv watchDelta100
                                   loadedNode))
    !! "by-dev-rootcoord-delta_0"
  = Some {| fgKind := Delta; fgCollectionID := 100; fgChannel := "by-dev-rootcoord-delta_0" |}.
Proof.
  assert (result (watchDeltaChannelsTask.Execute quietEnv watchDelta100 loadedNode) = Ok tt)
    as Hres by (vm_compute; reflexivity).
  destruct (proj1 (WatchDelta_success quietEnv watchDelta100 loadedNode Hres)
              (deltaInfo "by-dev-rootcoord-delta_0")) as (_ & _ & Hfg & _); [left |].
  exact Hfg.
Defined.

(** * What the loading tasks never do *)

Section EmitsOk.
Context (P : Event -> Prop).

Lemma emitsOk_emits {A} (m : M A) : emits P m -> emitsOk P m.
Proof. intros Hm n _. apply Hm. Qed.

Lemma emitsOk_fails {A} (m : M A) :
  (forall n a, result (m n) <> Ok a) -> emitsOk P m.
Proof. intros Hm n [a Ha]. by destruct (Hm n a). Qed.

Lemma emitsOk_bind {A B} (m : M A) (f : A -> M B) :
  emitsOk P m -> (forall a, emitsOk P (f a)) -> emitsOk P (bind m f).
Proof.
  intros Hm Hf n [b Hb]. specialize (Hm n). revert Hb. rewrite result_bind, trace_bind.
  destruct (result (m n)) as [a| |] eqn:Ea; [| done | done]. intros Hb.
  apply Forall_app. split; [apply Hm; by exists a | apply Hf; by exists b].
Qed.

Lemma emitsOk_defer {A} (d : Res A -> M unit) (m : M A) :
  emitsOk P m -> (forall a, emits P (d (Ok a))) -> emitsOk P (defer d m).
Proof.
  intros Hm Hd n [a Ha]. rewrite defer_run in Ha |- *. unfold result at 1 in Ha.
  cbn [fst] in Ha. unfold trace at 1. cbn [snd]. rewrite Ha.
  apply Forall_app. split; [apply Hm; by exists a | apply Hd].
Qed.

End EmitsOk.

Lemma watchDm_rollback_fails env fgs e n a :
  result (watchDmChannelsTask.rollback env fgs e n) <> Ok a.
Proof.
  unfold watchDmChannelsTask.rollback. rewrite result_bind.
  destruct (result (forM_ _ _ n)); [| done | done].
  unfold removeFlowGraphs. by rewrite bind_call, result_emit.
Qed.

Lemma watchDelta_rollback_fails env fgs e n a :
  result (watchDeltaChannelsTask.rollback env fgs e n) <> Ok a.
Proof.
  unfold watchDeltaChannelsTask.rollback. rewrite result_bind.
  destruct (result (forM_ _ _ n)); [| done | done].
  unfold removeFlowGraphs. by rewrite bind_call, result_emit.
Qed.

Lemma watchDm_Execute_no_rollback env req :
  emitsOk notRollback (watchDmChannelsTask.Execute env req).
Proof.
  unfold watchDmChannelsTask.Execute. apply emitsOk_bind.
  { apply emitsOk_emits, watchDm_prepare_emits; intros; exact I. }
  intros ids. apply emitsOk_defer; [| intros a; apply emits_ret].
  unfold watchDmChannelsTask.watch.
  destruct (watchDmChannelsTask.groupChannels _ _) as [seek consume].
  apply emitsOk_bind.
  { apply emitsOk_emits. unfold watchDmChannelsTask.addCheckPoints. emits_steps. }
  intros _. apply emitsOk_bind.
  { apply emitsOk_emits. emits_steps. }
  intros [fgs err]. apply emitsOk_bind; [apply emitsOk_emits, emits_check |].
  intros _. apply emitsOk_bind.
  { apply emitsOk_emits, asConsumer_emits; intros; exact I. }
  intros [e|].
  - apply emitsOk_fails. intros n a. apply watchDm_rollback_fails.
  - apply emitsOk_emits. unfold watchDmChannelsTask.finish, watchDmChannelsTask.watchShard.
    emits_steps.
Qed.

Lemma watchDelta_Execute_no_rollback env req :
  emitsOk notRollback (watchDeltaChannelsTask.Execute env req).
Proof.
  unfold watchDeltaChannelsTask.Execute.
  destruct (negb _); [apply emitsOk_emits, emits_throw |].
  apply emitsOk_bind; [apply emitsOk_emits; emits_steps |].
  intros has. destruct (negb has); [apply emitsOk_emits, emits_throw |].
  apply emitsOk_bind; [apply emitsOk_emits; emits_steps |].
  intros hCol. apply emitsOk_bind; [apply emitsOk_emits, emits_check |].
  intros _. apply emitsOk_bind; [apply emitsOk_emits; emits_steps |].
  intros has'. destruct (negb has'); [apply emitsOk_emits, emits_throw |].
  apply emitsOk_bind; [apply emitsOk_emits; emits_steps |].
  intros sCol. apply emitsOk_bind; [apply emitsOk_emits, emits_check |].
  intros _. apply emitsOk_bind.
  { apply emitsOk_emits. emits_steps. }
  intros [fgs err]. apply emitsOk_bind; [apply emitsOk_emits, emits_check |].
  intros _. apply emitsOk_bind.
  { apply emitsOk_emits, watchDelta_asConsumer_emits; intros; exact I. }
  intros [e|].
  - apply emitsOk_fails. intros n a. apply watchDelta_rollback_fails.
  - apply emitsOk_emits.
    unfold watchDeltaChannelsTask.finish, watchDeltaChannelsTask.watchShard. emits_steps.
Qed.

(** X19, lines 189-456, 484-604 and 632-660: WatchDmChannels,
    WatchDeltaChannels and LoadSegments never make a call of a release:
    no sleep, no query lock, no release time, no removal of a collection,
    a partition, a tSafe or the excluded segments. LoadSegments undoes
    nothing, whatever happens; the two watch tasks close a flow-graph,
    remove flow-graphs or remove a segment only in an execution that does
    not succeed. *)
Theorem loading_never_releases env n :
  (forall req : WatchDmChannelsRequest.t,
     Forall notRelease (trace (watchDmChannelsTask.Execute env req n))
     /\ (result (watchDmChannelsTask.Execute env req n) = Ok tt ->
         Forall notRollback (trace (watchDmChannelsTask.Execute env req n))))
  /\ (forall req : WatchDeltaChannelsRequest.t,
     Forall notRelease (trace (watchDeltaChannelsTask.Execute env req n))
     /\ (result (watchDeltaChannelsTask.Execute env req n) = Ok tt ->
         Forall notRollback (trace (watchDeltaChannelsTask.Execute env req n))))
  /\ (forall req : LoadSegmentsRequest.t,
     Forall notRelease (trace (loadSegmentsTask.Execute env req n))
     /\ Forall notRollback (trace (loadSegmentsTask.Execute env req n))).
Proof.
  split; [| split]; intros req; split.
  - revert n. change (emits notRelease (watchDmChannelsTask.Execute env req)).
    unfold watchDmChannelsTask.Execute. apply emits_bind.
    + apply watchDm_prepare_emits; intros; exact I.
    + intros ids. apply watchDm_armed_emits; intros; exact I.
  - intros Hres. apply watchDm_Execute_no_rollback. by exists tt.
  - revert n. change (emits notRelease (watchDeltaChannelsTask.Execute env req)).
    unfold watchDeltaChannelsTask.Execute, watchDeltaChannelsTask.rollback,
      watchDeltaChannelsTask.finish, watchDeltaChannelsTask.watchShard.
    emits_steps; try (apply watchDelta_asConsumer_emits; done);
      first [apply emits_call | apply emits_callE]; simpl; done.
  - intros Hres. apply watchDelta_Execute_no_rollback. by exists tt.
  - revert n. change (emits notRelease (loadSegmentsTask.Execute env req)).
    unfold loadSegmentsTask.Execute, loadSegmentsTask.addPartitions. emits_steps.
  - revert n. change (emits notRollback (loadSegmentsTask.Execute env req)).
    unfold loadSegmentsTask.Execute, loadSegmentsTask.addPartitions. emits_steps.
Qed.

Lemma loading_never_releases_witness :
  Forall notRollback (trace (watchDmChannelsTask.Execute quietEnv watchDmScenario emptyNode)).
Proof.
  apply (proj1 (loading_never_releases quietEnv emptyNode) watchDmScenario).
  vm_compute. reflexivity.
Defined.

(** * WatchDmChannels, then ReleaseCollection *)

Lemma watchDm_success_collection env (req : WatchDmChannelsRequest.t) n k :
  result (watchDmChannelsTask.Execute env req n) = Ok tt ->
  exists c,
    collections (replica k (final (watchDmChannelsTask.Execute env req n)))
      !! WatchDmChannelsRequest.CollectionID req = Some c
    /\ forall ch, ch ∈ watchDmChannelsTask.vChannels req -> ch ∈ Collection.vChannels c.
Proof.
  intros Hres.
  destruct (watchDm_Execute_success env req n Hres)
    as (base & segs & fl & dr & pre & n1 & g & evs & Hnd & Hb & Hs & Hpre & Hset & Hrun & _).
  rewrite Hrun. unfold final. cbn [fst snd].
  destruct Hset as ([[sCol HsCol] [hCol HhCol]] & _).
  set (n2 := withReplica Streaming _ n1).
  assert (exists c, collections (replica k n2) !! WatchDmChannelsRequest.CollectionID req
                    = Some c) as [c Hc].
  { destruct k; simpl; by eexists. }
  destruct (watched_collection env req fl dr n2 k c Hc) as (c' & Hc' & _ & Hv & _).
  exists c'. split; [destruct k; exact Hc' |].
  intros ch Hch. rewrite Hv. apply appendNew_elem. by right.
Qed.

(** X20, lines 189-456 and 696-766: a ReleaseCollection that follows a
    successful WatchDmChannels of the same collection, with a Base and
    with replicas that do not refuse the removal, succeeds and leaves
    nothing of what was watched: no DML flow-graph and no tSafe of a
    channel of the request, the collection and its excluded segments in
    neither replica, and no query shard of the collection. *)
Theorem WatchDm_then_ReleaseCollection env (req : WatchDmChannelsRequest.t) n
  env' (rreq : ReleaseCollectionRequest.t) base :
  result (watchDmChannelsTask.Execute env req n) = Ok tt ->
  ReleaseCollectionRequest.CollectionID rreq = WatchDmChannelsRequest.CollectionID req ->
  ReleaseCollectionRequest.Base rreq = Some base ->
  removeCollection_err env' Streaming (WatchDmChannelsRequest.CollectionID req) = None ->
  removeCollection_err env' Historical (WatchDmChannelsRequest.CollectionID req) = None ->
  result (releaseCollectionTask.Execute env' rreq
            (final (watchDmChannelsTask.Execute env req n))) = Ok tt
  /\ (forall ch, ch ∈ watchDmChannelsTask.vChannels req ->
        dmlChannel2FlowGraph
          (final (releaseCollectionTask.Execute env' rreq
                    (final (watchDmChannelsTask.Execute env req n)))) !! ch = None
        /\ ch ∉ tSafes (final (releaseCollectionTask.Execute env' rreq
                                 (final (watchDmChannelsTask.Execute env req n)))))
  /\ (forall k,
        collections
          (replica k (final (releaseCollectionTask.Execute env' rreq
                               (final (watchDmChannelsTask.Execute env req n)))))
          !! WatchDmChannelsRequest.CollectionID req = None
        /\ excludedSegments
             (replica k (final (releaseCollectionTask.Execute env' rreq
                                  (final (watchDmChannelsTask.Execute env req n)))))
             !! WatchDmChannelsRequest.CollectionID req = None)
  /\ (forall ch qs,
        queryShards (final (releaseCollectionTask.Execute env' rreq
                              (final (watchDmChannelsTask.Execute env req n)))) !! ch = Some qs ->
        qsCollectionID qs <> WatchDmChannelsRequest.CollectionID req).
Proof.
  intros Hres Hcid Hb HeS HeH.
  destruct (watchDm_success_collection env req n Streaming Hres) as (sCol & HsCol & Hchans).
  destruct (watchDm_success_collection env req n Historical Hres) as (hCol & HhCol & _).
  set (n1 := final (watchDmChannelsTask.Execute env req n)) in *.
  cbn [replica] in HsCol, HhCol.
  rewrite ReleaseCollection_outcome, Hcid, HsCol, Hb, HeS, HhCol, HeH.
  unfold result, final. cbn [fst snd].
  split; [done |]. split; [| split].
  - intros ch Hch. split.
    + simpl. rewrite foldr_delete_lookup. rewrite bool_decide_eq_true_2; [done |].
      by apply Hchans.
    + simpl. specialize (Hchans ch Hch). set_solver.
  - intros k. destruct k; split; apply lookup_delete_eq.
  - intros ch qs Hq. simpl in Hq. apply map_lookup_filter_Some in Hq as [_ Hq]. exact Hq.
Qed.

Lemma WatchDm_then_ReleaseCollection_witness :
  result (releaseCollectionTask.Execute quietEnv (releaseCollection100At 2000) loadedNode)
  = Ok tt
  /\ dmlChannel2FlowGraph
       (final (releaseCollectionTask.Execute quietEnv (releaseCollection100At 2000) loadedNode))
       !! "by-dev-rootcoord-dml_0" = None.
Proof.
  assert (result (watchDmChannelsTask.Execute quietEnv watchDmScenario emptyNode) = Ok tt)
    as Hres by (vm_compute; reflexivity).
  destruct (WatchDm_then_ReleaseCollection quietEnv watchDmScenario emptyNode quietEnv
              (releaseCollection100At 2000) _ Hres eq_refl eq_refl eq_refl eq_refl)
    as (Hok & Hgone & _).
  split; [exact Hok |]. apply (Hgone "by-dev-rootcoord-dml_0"). left.
Defined.

(** * The identity of a task *)

Section TaskComposition.
Context {R : Type} `{Request R}.

(** X21, lines 87-93, 109-124 and the five other variants: ID returns what
    SetID stored. Timestamp dereferences the request pointer without a
    check and panics when it is nil, where OnEnqueue tests the pointer
    first. OnEnqueue changes nothing but the id, so Timestamp is the same
    before and after; and it does not look at the id it replaces: after a
    SetID or an earlier OnEnqueue it leaves the same task as without. *)
Theorem task_identity (rand rand' : Rand) (r : task.t R) (uid : UniqueID) :
  task.ID (task.SetID uid r) = uid
  /\ (task.req r = None ->
        task.Timestamp r = Panic
        /\ task.OnEnqueue rand r = (task.SetID (Int63n rand 100000000000) r, None))
  /\ task.Timestamp (task.OnEnqueue rand r).1 = task.Timestamp r
  /\ task.Timestamp (task.SetID uid r) = task.Timestamp r
  /\ task.OnEnqueue rand' (task.SetID uid r) = task.OnEnqueue rand' r
  /\ task.OnEnqueue rand' (task.OnEnqueue rand r).1 = task.OnEnqueue rand' r.
Proof.
  unfold task.OnEnqueue, task.Timestamp, task.SetID, task.ID.
  split; [done |]. split.
  { intros ->. done. }
  destruct (task.req r) as [q|] eqn:Er; [destruct (Base q) as [base|] eqn:Eb |];
    simpl; rewrite ?Er, ?Eb; done.
Qed.

End TaskComposition.

Lemma task_identity_witness :
  task.Timestamp {| task.id := 0; task.req := @None ReleaseCollectionRequest.t |} = Panic.
Proof.
  apply (proj1 (proj1 (proj2 (task_identity zeroRand zeroRand
                                {| task.id := 0; task.req := None |} 0)) eq_refl)).
Defined.

(** * WatchDmChannels: when it panics *)





